(** * Resilient publishing orchestrator: retry handler, scheduler,
      content tester and bulk publisher of the AI content publisher SDK.

    The TypeScript sources are embedded as Rocq functions.  Conventions:
    - a JS [number] holding a count, a status code or a millisecond
      timestamp is a [Z]; a delay in milliseconds, which the retry handler
      multiplies by [Math.random()], is a rational [Q] (rounding of
      doubles is not modelled);
    - a [Date] is its [getTime()] value in milliseconds, a [Z];
    - a string is a [string]; [toLowerCase] folds the ASCII letters;
    - an optional property is an [option];
    - a [Map] whose iteration order is observed is an association list in
      insertion order; a [Map] or object only looked up by key is a [gmap];
    - [Array.prototype.sort] is a stable sort driven by the comparator;
    - asynchronous code runs on an explicit [World] (clock, counters of the
      calls made to the outside, and the trace of what happened). *)

From stdpp Require Import gmap strings.
From Stdlib Require Import ZArith QArith Qround Qminmax Qpower Lia Lqa List
  String Ascii Permutation Sorted Bool.
Import ListNotations.

Open Scope Z_scope.

(** ** JavaScript helpers *)

Module Js.

(** [String.prototype.toLowerCase], on ASCII. *)
Definition lower_ascii (c : ascii) : ascii :=
  let n := N_of_ascii c in
  if (65 <=? n)%N && (n <=? 90)%N then ascii_of_N (n + 32) else c.

(** Letters outside ASCII are left as they are. *)
Fixpoint toLowerCase (s : string) : string :=
  match s with
  | EmptyString => EmptyString
  | String c r => String (lower_ascii c) (toLowerCase r)
  end.

(** [String.prototype.includes]. *)
Fixpoint includes (s sub : string) : bool :=
  if String.prefix sub s then true
  else match s with
       | EmptyString => false
       | String _ r => includes r sub
       end.

(** [a || b] on optional numbers: [undefined] and [0] are falsy. *)
Definition or_num (a b : option Z) : option Z :=
  match a with
  | Some x => if x =? 0 then b else Some x
  | None => b
  end.

(** [a || d] with a default. *)
Definition or_default (a : option Z) (d : Z) : Z :=
  match a with
  | Some x => if x =? 0 then d else x
  | None => d
  end.

(** [Array.prototype.sort (cmp)]: the specification asks for a stable sort,
    so for a comparator that is a total preorder the result is the one of
    this insertion sort: an element goes before the first later element it
    does not compare greater than. *)
Section Sort.
Context {A : Type} (cmp : A -> A -> Z).

Fixpoint insert_sorted (x : A) (l : list A) : list A :=
  match l with
  | [] => [x]
  | y :: r => if cmp x y <=? 0 then x :: y :: r else y :: insert_sorted x r
  end.

Fixpoint sort (l : list A) : list A :=
  match l with
  | [] => []
  | x :: r => insert_sorted x (sort r)
  end.
End Sort.

(** [Math.ceil (n / c)] on natural numbers. *)
Definition ceil_div (n c : nat) : nat := ((n + c - 1) / c)%nat.

(** [Array.prototype.slice (i, j)] for [0 <= i <= j]. *)
Definition slice {A} (i j : nat) (l : list A) : list A :=
  firstn (j - i) (skipn i l).

End Js.

(** ** Retry handler and circuit breaker (core/retry-handler.ts) *)

Module RetryHandler.

Inductive CircuitState := CLOSED | OPEN | HALF_OPEN.

Inductive ErrorType :=
  NETWORK | AUTHENTICATION | RATE_LIMIT | VALIDATION | SERVER | CLIENT
| TIMEOUT | UNKNOWN.

(** What an operation can throw: an instance of [RetryableError], or any
    other object, of which the handler reads [message], [response.status]
    and [statusCode]. *)
Inductive JsError :=
| RetryableError (message : string) (type : ErrorType) (isRetryable : bool)
    (statusCode : option Z)
| PlainError (message : option string) (response_status : option Z)
    (statusCode : option Z).

Definition err_message (e : JsError) : option string :=
  match e with
  | RetryableError m _ _ _ => Some m
  | PlainError m _ _ => m
  end.

Definition err_response_status (e : JsError) : option Z :=
  match e with
  | RetryableError _ _ _ _ => None
  | PlainError _ r _ => r
  end.

Definition err_statusCode (e : JsError) : option Z :=
  match e with
  | RetryableError _ _ _ s => s
  | PlainError _ _ s => s
  end.

(** [error.message?.toLowerCase() || ''] *)
Definition lowered_message (e : JsError) : string :=
  match err_message e with
  | Some m => Js.toLowerCase m
  | None => EmptyString
  end.

(** [error.response?.status || error.statusCode] *)
Definition status_of (e : JsError) : option Z :=
  Js.or_num (err_response_status e) (err_statusCode e).

Inductive Outcome (T : Type) :=
| Resolved (v : T)
| Rejected (e : JsError).
Arguments Resolved {T} v.
Arguments Rejected {T} e.

(** *** The world around the handler *)

Inductive AttemptResult := Succeeded | Failed (e : JsError).

Inductive Event :=
| EvStart (attempt : Z)                 (* a loop iteration begins *)
| EvInvoke (k : nat)                    (* the operation is called *)
| EvEnd (attempt : Z) (r : AttemptResult)
| EvSleep (ms : Q).                     (* sleep (ms) *)

Record World := mkWorld {
  clock : Z;            (* Date.now () *)
  invoked : nat;        (* calls of the operation so far *)
  drawn : nat;          (* calls of Math.random () so far *)
  trace : list Event
}.

Definition log (e : Event) (w : World) : World :=
  mkWorld (clock w) (invoked w) (drawn w) (trace w ++ [e]).

(** An operation is scripted: its [k]-th call, made at time [t], settles
    after [op_elapsed] milliseconds with [op_result]. *)
Record OpStep (T : Type) := mkOpStep {
  op_result : Outcome T;
  op_elapsed : Z
}.
Arguments mkOpStep {T} _ _.
Arguments op_result {T} _.
Arguments op_elapsed {T} _.

Definition Operation (T : Type) := nat -> Z -> OpStep T.

(** [await operation ()] *)
Definition invoke {T} (op : Operation T) (w : World) : Outcome T * World :=
  let s := op (invoked w) (clock w) in
  (op_result s,
   mkWorld (clock w + Z.max 0 (op_elapsed s)) (S (invoked w)) (drawn w)
     (trace w ++ [EvInvoke (invoked w)])).

(** [await this.sleep (ms)] *)
Definition sleep (ms : Q) (w : World) : World :=
  mkWorld (clock w + Z.max 0 (Qfloor ms)) (invoked w) (drawn w)
    (trace w ++ [EvSleep ms]).

(** *** CircuitBreaker *)

Record CircuitBreaker := mkBreaker {
  state : CircuitState;
  failureCount : Z;
  lastFailureTime : Z;
  successCount : Z;
  threshold : Z;
  resetTimeMs : Z
}.

(** [new CircuitBreaker (threshold = 5, resetTimeMs = 60000)] *)
Definition newCircuitBreaker (th rt : option Z) : CircuitBreaker :=
  mkBreaker CLOSED 0 0 0
    (match th with Some t => t | None => 5 end)
    (match rt with Some t => t | None => 60000 end).

Definition set_state (s : CircuitState) (b : CircuitBreaker) :=
  mkBreaker s (failureCount b) (lastFailureTime b) (successCount b)
    (threshold b) (resetTimeMs b).

Definition set_failureCount (n : Z) (b : CircuitBreaker) :=
  mkBreaker (state b) n (lastFailureTime b) (successCount b)
    (threshold b) (resetTimeMs b).

Definition set_lastFailureTime (t : Z) (b : CircuitBreaker) :=
  mkBreaker (state b) (failureCount b) t (successCount b)
    (threshold b) (resetTimeMs b).

Definition set_successCount (n : Z) (b : CircuitBreaker) :=
  mkBreaker (state b) (failureCount b) (lastFailureTime b) n
    (threshold b) (resetTimeMs b).

Definition is_open (s : CircuitState) : bool :=
  match s with OPEN => true | _ => false end.

Definition is_half_open (s : CircuitState) : bool :=
  match s with HALF_OPEN => true | _ => false end.

Definition onSuccess (b : CircuitBreaker) : CircuitBreaker :=
  let b := set_failureCount 0 b in
  if is_half_open (state b) then
    let b := set_successCount (successCount b + 1) b in
    if successCount b >=? 3 then set_state CLOSED b else b
  else b.

Definition onFailure (now : Z) (b : CircuitBreaker) : CircuitBreaker :=
  let b := set_failureCount (failureCount b + 1) b in
  let b := set_lastFailureTime now b in
  if failureCount b >=? threshold b then set_state OPEN b else b.

Definition breaker_open_error : JsError :=
  PlainError (Some "Circuit breaker is OPEN - operation not allowed"%string)
    None None.

(** The guard at the head of [execute]: [None] when it throws, otherwise
    the breaker as the operation finds it. *)
Definition execute_gate (now : Z) (b : CircuitBreaker)
  : option CircuitBreaker :=
  if is_open (state b) then
    if now - lastFailureTime b <? resetTimeMs b then None
    else Some (set_successCount 0 (set_state HALF_OPEN b))
  else Some b.

Definition execute {T} (b : CircuitBreaker) (op : Operation T) (w : World)
  : Outcome T * CircuitBreaker * World :=
  match execute_gate (clock w) b with
  | None => (Rejected breaker_open_error, b, w)
  | Some b1 =>
      let (r, w1) := invoke op w in
      match r with
      | Resolved v => (Resolved v, onSuccess b1, w1)
      | Rejected e => (Rejected e, onFailure (clock w1) b1, w1)
      end
  end.

Definition reset (b : CircuitBreaker) : CircuitBreaker :=
  mkBreaker CLOSED 0 0 0 (threshold b) (resetTimeMs b).

(** *** RetryHandler *)

Record RetryConfig := mkRetryConfig {
  maxRetries : Z;
  baseDelayMs : Q;
  maxDelayMs : Q;
  exponentialBackoff : bool;
  jitterMs : option Q;
  retryableErrors : option (list string);
  circuitBreakerThreshold : option Z;
  circuitBreakerResetTimeMs : option Z
}.

(** [Partial<RetryConfig>] *)
Record PartialRetryConfig := mkPartial {
  p_maxRetries : option Z;
  p_baseDelayMs : option Q;
  p_maxDelayMs : option Q;
  p_exponentialBackoff : option bool;
  p_jitterMs : option Q;
  p_retryableErrors : option (list string);
  p_circuitBreakerThreshold : option Z;
  p_circuitBreakerResetTimeMs : option Z
}.

Definition over {A} (o : option A) (d : A) : A :=
  match o with Some x => x | None => d end.

Definition over_opt {A} (o d : option A) : option A :=
  match o with Some x => Some x | None => d end.

(** [{ ...this.defaultConfig, ...config }] *)
Definition mergeConfig (d : RetryConfig) (c : option PartialRetryConfig)
  : RetryConfig :=
  match c with
  | None => d
  | Some c =>
      mkRetryConfig
        (over (p_maxRetries c) (maxRetries d))
        (over (p_baseDelayMs c) (baseDelayMs d))
        (over (p_maxDelayMs c) (maxDelayMs d))
        (over (p_exponentialBackoff c) (exponentialBackoff d))
        (over_opt (p_jitterMs c) (jitterMs d))
        (over_opt (p_retryableErrors c) (retryableErrors d))
        (over_opt (p_circuitBreakerThreshold c) (circuitBreakerThreshold d))
        (over_opt (p_circuitBreakerResetTimeMs c)
           (circuitBreakerResetTimeMs d))
  end.

Definition network_words : list string :=
  ["network"; "timeout"; "connection"; "econnreset"; "enotfound"]%string.

Definition retryableStatusCodes : list Z := [408; 429; 500; 502; 503; 504].

Definition isRetryableError (e : JsError) (config : RetryConfig) : bool :=
  match e with
  | RetryableError _ _ r _ => r
  | PlainError _ _ _ =>
      let errorMessage := lowered_message e in
      if existsb (Js.includes errorMessage) network_words then true
      else if match status_of e with
              | Some s => existsb (Z.eqb s) retryableStatusCodes
              | None => false
              end then true
      else match retryableErrors config with
           | Some l =>
               existsb
                 (fun retryableError =>
                    Js.includes errorMessage (Js.toLowerCase retryableError))
                 l
           | None => false
           end
  end.

Definition status_is (p : Z -> bool) (s : option Z) : bool :=
  match s with Some x => p x | None => false end.

Definition categorizeError (e : JsError) : ErrorType :=
  let message := lowered_message e in
  let statusCode := status_of e in
  if status_is (fun s => (s =? 401) || (s =? 403)) statusCode
  then AUTHENTICATION
  else if status_is (fun s => s =? 429) statusCode then RATE_LIMIT
  else if status_is (fun s => (s >=? 400) && (s <? 500)) statusCode
  then CLIENT
  else if status_is (fun s => s >=? 500) statusCode then SERVER
  else if Js.includes message "timeout" then TIMEOUT
  else if Js.includes message "network"
          || Js.includes message "connection"
          || Js.includes message "econnreset"
          || Js.includes message "enotfound" then NETWORK
  else if Js.includes message "validation" || Js.includes message "invalid"
  then VALIDATION
  else UNKNOWN.

(** [if (config.jitterMs)]: present and not zero. *)
Definition jitter_on (c : RetryConfig) : option Q :=
  match jitterMs c with
  | Some j => if Qeq_bool j 0 then None else Some j
  | None => None
  end.

Section Handler.
(** [Math.random ()]: the value of the [k]-th draw. *)
Variable random : nat -> Q.
Context {T : Type}.
Variable operation : Operation T.

Definition calculateDelay (attempt : Z) (config : RetryConfig) (w : World)
  : Q * World :=
  let delay :=
    if exponentialBackoff config then
      Qmin (baseDelayMs config * Qpower 2 (attempt - 1)) (maxDelayMs config)
    else baseDelayMs config in
  match jitter_on config with
  | Some j =>
      let jitter := random (drawn w) * j in
      (Qmin (delay + jitter) (maxDelayMs config),
       mkWorld (clock w) (invoked w) (S (drawn w)) (trace w))
  | None => (Qmin delay (maxDelayMs config), w)
  end%Q.

(** How the [for] loop of [executeWithRetry] is left. *)
Record LoopExit := mkExit {
  x_data : option T;              (* [Some] when an attempt succeeded *)
  x_attempts : Z;
  x_lastError : option JsError;
  x_breaker : option CircuitBreaker;
  x_world : World
}.

(** One attempt: through the breaker when there is one. *)
Definition attempt_once (cb : option CircuitBreaker) (w : World)
  : Outcome T * option CircuitBreaker * World :=
  match cb with
  | Some b => let '(r, b1, w1) := execute b operation w in (r, Some b1, w1)
  | None => let (r, w1) := invoke operation w in (r, None, w1)
  end.

(** [for (attempts = a; attempts <= maxRetries + 1; attempts++)], entered
    with [remaining] iterations left before the condition fails
    ([remaining = maxRetries + 2 - a], or 0 when that is negative). *)
Fixpoint retry_loop (config : RetryConfig) (remaining : nat) (attempts : Z)
    (cb : option CircuitBreaker) (lastError : option JsError) (w : World)
  : LoopExit :=
  match remaining with
  | O => mkExit None attempts lastError cb w
  | S r =>
      let '(res, cb1, w1) := attempt_once cb (log (EvStart attempts) w) in
      match res with
      | Resolved v =>
          mkExit (Some v) attempts lastError cb1
            (log (EvEnd attempts Succeeded) w1)
      | Rejected e =>
          let w2 := log (EvEnd attempts (Failed e)) w1 in
          if negb (isRetryableError e config) then
            mkExit None attempts (Some e) cb1 w2
          else if attempts >? maxRetries config then
            mkExit None attempts (Some e) cb1 w2
          else
            let (delay, w3) := calculateDelay attempts config w2 in
            retry_loop config r (attempts + 1) cb1 (Some e) (sleep delay w3)
      end
  end.

Record RetryResult := mkResult {
  success : bool;
  data : option T;
  error : option JsError;
  attempts : Z;
  totalTime : Z
}.

Record Handler := mkHandler {
  circuitBreakers : gmap string CircuitBreaker;
  defaultConfig : RetryConfig
}.

(** [if (circuitBreakerKey)]: given and not the empty string. *)
Definition key_on (k : option string) : option string :=
  match k with
  | Some s => if String.eqb s EmptyString then None else Some s
  | None => None
  end.

(** "Get or create circuit breaker". *)
Definition breaker_for (h : Handler) (config : RetryConfig)
    (circuitBreakerKey : option string) : option CircuitBreaker :=
  match key_on circuitBreakerKey with
  | Some k =>
      match circuitBreakers h !! k with
      | Some b => Some b
      | None =>
          Some (newCircuitBreaker (circuitBreakerThreshold config)
                  (circuitBreakerResetTimeMs config))
      end
  | None => None
  end.

(** The breaker is an object held by the map: what the loop did to it is
    what the map holds afterwards. *)
Definition store_breaker (h : Handler) (circuitBreakerKey : option string)
    (cb : option CircuitBreaker) : Handler :=
  match key_on circuitBreakerKey, cb with
  | Some k, Some b => mkHandler (<[k := b]> (circuitBreakers h))
                        (defaultConfig h)
  | _, _ => h
  end.

Definition executeWithRetry (h : Handler) (config : option PartialRetryConfig)
    (circuitBreakerKey : option string) (w : World)
  : RetryResult * Handler * World :=
  let finalConfig := mergeConfig (defaultConfig h) config in
  let startTime := clock w in
  let cb := breaker_for h finalConfig circuitBreakerKey in
  let x := retry_loop finalConfig (Z.to_nat (maxRetries finalConfig + 1)) 1
             cb None w in
  let w1 := x_world x in
  let h1 := store_breaker h circuitBreakerKey (x_breaker x) in
  match x_data x with
  | Some v =>
      (mkResult true (Some v) None (x_attempts x) (clock w1 - startTime),
       h1, w1)
  | None =>
      (mkResult false None (x_lastError x) (x_attempts x)
         (clock w1 - startTime), h1, w1)
  end.

Definition getCircuitBreakerState (h : Handler) (key : string)
  : option CircuitState :=
  state <$> (circuitBreakers h !! key).

Definition resetCircuitBreaker (h : Handler) (key : string) : Handler :=
  mkHandler (alter reset key (circuitBreakers h)) (defaultConfig h).
End Handler.

Arguments mkExit {T} _ _ _ _ _.
Arguments mkResult {T} _ _ _ _ _.

Definition DEFAULT_RETRY_CONFIGS_network : RetryConfig :=
  mkRetryConfig 3 1000 10000 true (Some 500%Q) None (Some 5) (Some 60000).
Definition DEFAULT_RETRY_CONFIGS_api : RetryConfig :=
  mkRetryConfig 2 2000 8000 true (Some 1000%Q) None (Some 3) (Some 30000).
Definition DEFAULT_RETRY_CONFIGS_upload : RetryConfig :=
  mkRetryConfig 5 2000 30000 true (Some 2000%Q) None (Some 10) (Some 120000).

End RetryHandler.

(** ** Insertion-ordered [Map<string, V>] *)

Module JsMap.
Section Map.
Context {V : Type}.

Definition t := list (string * V).

Fixpoint get (k : string) (m : list (string * V)) : option V :=
  match m with
  | [] => None
  | (k1, v) :: r => if String.eqb k1 k then Some v else get k r
  end.

Definition has (k : string) (m : list (string * V)) : bool :=
  match get k m with Some _ => true | None => false end.

(** [set] keeps the place of a key that is already there and appends a
    new one. *)
Fixpoint set (k : string) (v : V) (m : list (string * V))
  : list (string * V) :=
  match m with
  | [] => [(k, v)]
  | (k1, v1) :: r =>
      if String.eqb k1 k then (k1, v) :: r else (k1, v1) :: set k v r
  end.

Fixpoint delete (k : string) (m : list (string * V)) : list (string * V) :=
  match m with
  | [] => []
  | (k1, v1) :: r => if String.eqb k1 k then r else (k1, v1) :: delete k r
  end.

Definition values (m : list (string * V)) : list V := map snd m.
End Map.
End JsMap.

(** ** Content tester (core/content-tester.ts) *)

Module ContentTester.

(** [PlatformType] (core/content-manager.ts, which holds the declarations
    of types/content.ts): a union of string literals, at run time a string.
    The model takes every string, so that a name outside the union can be
    asked for, as the maps keyed by it allow. *)
Definition PlatformType := string.

(** [AIContent] (core/content-manager.ts), with the properties the tester
    reads: [type], [title], [content], [excerpt], [tags], [images] and the
    texts of [twitterThread.tweets].  [other_fields] names the further
    properties holding a truthy value. *)
Record AIContent := mkContent {
  c_type : string;
  c_title : string;
  c_content : string;
  c_excerpt : option string;
  c_tags : option (list string);
  c_images : option (list string);
  c_twitterThread : option (list string);   (* the text of each tweet *)
  other_fields : list string
}.

Inductive IssueType := error_ | warning_ | info_.
Inductive Severity := low | medium | high | critical.

(** The message and the suggestion of an issue are left out: nothing
    reads them back. *)
Record ContentIssue := mkIssue {
  i_type : IssueType;
  i_field : string;
  i_severity : Severity
}.

(** [suggestions] and [estimatedEngagement] are left out likewise. *)
Record ContentTestResult := mkTestResult {
  r_platform : PlatformType;
  isCompatible : bool;
  score : Z;
  issues : list ContentIssue
}.

Record ImageRequirements := mkImageReq {
  maxSize : option Z;
  supportedFormats : option (list string);
  maxCount : option Z
}.

Record PlatformRequirements := mkReq {
  maxTitleLength : option Z;
  maxContentLength : option Z;
  maxExcerptLength : option Z;
  maxTags : option Z;
  maxHashtags : option Z;
  requiredFields : option (list string);
  supportedContentTypes : option (list string);
  imageRequirements : option ImageRequirements;
  characterLimits : list (string * Z)
}.

Definition platformRequirements : gmap string PlatformRequirements :=
  list_to_map
    [ ("twitter"%string,
       mkReq (Some 280) (Some 280) None None (Some 3) None
         (Some ["social-post"; "twitter-thread"]%string) None
         [("tweet"%string, 280); ("thread"%string, 2800)]);
      ("linkedin"%string,
       mkReq (Some 200) (Some 3000) (Some 300) None (Some 5) None
         (Some ["social-post"; "linkedin-article"]%string) None
         [("post"%string, 3000); ("article"%string, 125000)]);
      ("instagram"%string,
       mkReq None (Some 2200) None None (Some 30) None
         (Some ["social-post"; "social-story"; "social-reel";
                "social-carousel"]%string)
         (Some (mkImageReq (Some (8 * 1024 * 1024))
                  (Some ["jpg"; "jpeg"; "png"]%string) (Some 10)))
         []);
      ("medium"%string,
       mkReq (Some 100) (Some 1000000) None (Some 5) None None
         (Some ["article"; "medium-story"]%string) None []);
      ("ghost"%string,
       mkReq (Some 200) (Some 1000000) (Some 300) None None None
         (Some ["blog"; "article"]%string) None []);
      ("wordpress"%string,
       mkReq (Some 200) (Some 1000000) (Some 300) None None None
         (Some ["blog"; "article"; "page"]%string) None []);
      ("webflow"%string,
       mkReq (Some 200) (Some 1000000) None None None None
         (Some ["blog"; "article"; "landing-page"]%string) None []);
      ("substack"%string,
       mkReq (Some 200) (Some 1000000) (Some 300) None None None
         (Some ["newsletter"; "newsletter-issue"; "article"]%string) None [])
    ].

(** [s.length], for the ASCII strings of the model: one character is one
    UTF-16 unit. *)
Definition strlen (s : string) : Z := Z.of_nat (String.length s).
Definition len {A} (l : list A) : Z := Z.of_nat (List.length l).

(** [limit && n > limit] *)
Definition exceeds (limit : option Z) (n : Z) : bool :=
  match limit with
  | Some m => negb (m =? 0) && (n >? m)
  | None => false
  end.

Definition string_in (s : string) (l : list string) : bool :=
  existsb (String.eqb s) l.

(** [\w] *)
Definition is_word_char (c : ascii) : bool :=
  let n := N_of_ascii c in
  ((48 <=? n) && (n <=? 57) || (65 <=? n) && (n <=? 90)
   || (97 <=? n) && (n <=? 122) || (n =? 95))%N.

(** The number of matches of [/#\w+/g]. *)
Fixpoint count_hashtag_matches (s : string) : Z :=
  match s with
  | EmptyString => 0
  | String c r =>
      (if Ascii.eqb c "#"
       then match r with
            | String d _ => if is_word_char d then 1 else 0
            | EmptyString => 0
            end
       else 0) + count_hashtag_matches r
  end.

Definition countHashtags (content : AIContent) : Z :=
  let text :=
    (c_title content ++ " " ++ c_content content ++ " "
       ++ match c_excerpt content with Some e => e | None => EmptyString end)%string in
  count_hashtag_matches text.

Definition nonempty (s : string) : bool :=
  negb (String.eqb s EmptyString).

Definition hasRequiredField (content : AIContent) (field : string) : bool :=
  if String.eqb field "title" then nonempty (c_title content)
  else if String.eqb field "content" then nonempty (c_content content)
  else if String.eqb field "excerpt" then
    match c_excerpt content with Some e => nonempty e | None => false end
  else if String.eqb field "tags" then
    match c_tags content with Some l => len l >? 0 | None => false end
  else if String.eqb field "images" then
    match c_images content with Some l => len l >? 0 | None => false end
  else if String.eqb field "type" then nonempty (c_type content)
  else if String.eqb field "twitterThread" then
    match c_twitterThread content with Some _ => true | None => false end
  else string_in field (other_fields content).

Definition testImages (images : list string) (requirements : ImageRequirements)
  : list ContentIssue :=
  if exceeds (maxCount requirements) (len images)
  then [mkIssue error_ "images" high]
  else [].

Definition testPlatformSpecificRequirements (content : AIContent)
    (platform : PlatformType) : list ContentIssue :=
  if String.eqb platform "twitter" then
    match c_twitterThread content with
    | Some tweets =>
        if String.eqb (c_type content) "twitter-thread"
           && (fold_left (fun sum tweet => sum + strlen tweet) tweets 0
               >? 2800)
        then [mkIssue warning_ "twitterThread" medium]
        else []
    | None => []
    end
  else if String.eqb platform "linkedin" then
    if Js.includes (c_content content) "!!!"
       || Js.includes (c_content content) "???"
    then [mkIssue info_ "content" low]
    else []
  else if String.eqb platform "instagram" then
    match c_images content with
    | Some (_ :: _) => []
    | _ => [mkIssue warning_ "images" medium]
    end
  else [].

Definition blocking (i : ContentIssue) : bool :=
  match i_severity i with
  | critical | high => true
  | _ => false
  end.

(** The issues and the score are accumulated in the order of the source. *)
Definition check (cond : bool) (i : ContentIssue) (penalty : Z)
    (acc : list ContentIssue * Z) : list ContentIssue * Z :=
  if cond then (fst acc ++ [i], snd acc - penalty) else acc.

Definition testContentForPlatform (content : AIContent)
    (platform : PlatformType) : ContentTestResult :=
  match platformRequirements !! platform with
  | None =>
      mkTestResult platform false 0 [mkIssue error_ "platform" critical]
  | Some requirements =>
      let acc := ([], 100) in
      let acc :=
        check (match supportedContentTypes requirements with
               | Some l => negb (string_in (c_type content) l)
               | None => false
               end)
          (mkIssue warning_ "type" medium) 20 acc in
      let acc :=
        check (exceeds (maxTitleLength requirements)
                 (strlen (c_title content)))
          (mkIssue error_ "title" high) 30 acc in
      let acc :=
        check (exceeds (maxContentLength requirements)
                 (strlen (c_content content)))
          (mkIssue error_ "content" high) 30 acc in
      let acc :=
        check (match c_excerpt content with
               | Some e => nonempty e
                           && exceeds (maxExcerptLength requirements)
                                (strlen e)
               | None => false
               end)
          (mkIssue warning_ "excerpt" medium) 10 acc in
      let acc :=
        check (match c_tags content with
               | Some l => exceeds (maxTags requirements) (len l)
               | None => false
               end)
          (mkIssue warning_ "tags" medium) 10 acc in
      let acc :=
        check (exceeds (maxHashtags requirements) (countHashtags content))
          (mkIssue warning_ "hashtags" medium) 10 acc in
      let acc :=
        match requiredFields requirements with
        | Some fields =>
            fold_left
              (fun acc field =>
                 check (negb (hasRequiredField content field))
                   (mkIssue error_ field high) 25 acc)
              fields acc
        | None => acc
        end in
      let acc :=
        match imageRequirements requirements, c_images content with
        | Some ir, Some images =>
            let imageIssues := testImages images ir in
            (fst acc ++ imageIssues, snd acc - len imageIssues * 5)
        | _, _ => acc
        end in
      let platformSpecificIssues :=
        testPlatformSpecificRequirements content platform in
      let acc :=
        (fst acc ++ platformSpecificIssues,
         snd acc - len platformSpecificIssues * 5) in
      mkTestResult platform
        (len (filter blocking (fst acc)) =? 0)
        (Z.max 0 (snd acc))
        (fst acc)
  end.

Definition testContentForMultiplePlatforms (content : AIContent)
    (platforms : list PlatformType) : list (string * ContentTestResult) :=
  fold_left
    (fun results platform =>
       JsMap.set platform (testContentForPlatform content platform) results)
    platforms [].

(** [results.get (platform)!]: every platform asked for was set. *)
Definition result_of (content : AIContent)
    (results : list (string * ContentTestResult)) (platform : PlatformType)
  : ContentTestResult :=
  match JsMap.get platform results with
  | Some r => r
  | None => testContentForPlatform content platform
  end.

Definition by_score_desc (a b : PlatformType * ContentTestResult) : Z :=
  score (snd b) - score (snd a).

Definition getBestPlatformsForContent (content : AIContent)
    (availablePlatforms : list PlatformType) : list PlatformType :=
  let results := testContentForMultiplePlatforms content availablePlatforms in
  map fst
    (Js.sort by_score_desc
       (filter (fun item => isCompatible (snd item))
          (map (fun platform => (platform, result_of content results platform))
             availablePlatforms))).

End ContentTester.

(** ** What the scheduler and the bulk publisher share *)

Module Publishing.

Import ContentTester.

Inductive Priority := low | medium | high | urgent.

Inductive Status :=
  pending | testing | ready | publishing | published | failed.

Definition Priority_eqb (a b : Priority) : bool :=
  match a, b with
  | low, low | medium, medium | high, high | urgent, urgent => true
  | _, _ => false
  end.

Definition Status_eqb (a b : Status) : bool :=
  match a, b with
  | pending, pending | testing, testing | ready, ready
  | publishing, publishing | published, published | failed, failed => true
  | _, _ => false
  end.

(** [{ urgent: 4, high: 3, medium: 2, low: 1 }] *)
Definition priorityOrder (p : Priority) : Z :=
  match p with urgent => 4 | high => 3 | medium => 2 | low => 1 end.

(** [PublishResult] (core/content-manager.ts): the outcome of one publish
    to one target, with [success], [platform] and [message]; the
    orchestration reads [success] only. *)
Record PublishResult := mkPublishResult {
  pr_success : bool;
  pr_platform : PlatformType;
  pr_message : option string
}.

(** How a promise settles; a rejection carries [error.message]. *)
Inductive Settled (T : Type) :=
| Fulfilled (v : T)
| RejectedWith (message : string).
Arguments Fulfilled {T} v.
Arguments RejectedWith {T} message.

(** [publisher.publishToMultiple], scripted: its [k]-th call settles after
    [p_elapsed] milliseconds with [p_settled]. *)
Record PublishStep := mkPublishStep {
  p_settled : Settled (list PublishResult);
  p_elapsed : Z
}.

Definition Publisher :=
  nat -> AIContent -> list PlatformType -> PublishStep.

Inductive Event :=
| EvBatch (k total : Z)          (* "Processing batch k/total" *)
| EvPublish (id : string)        (* publishToMultiple is called for the item *)
| EvSettle (id : string)         (* that call has settled *)
| EvDelay (ms : Z).              (* await this.delay (ms) *)

Record World := mkWorld {
  now : Z;               (* Date.now () *)
  calls : nat;           (* calls of publishToMultiple so far *)
  generated : nat;       (* identifiers generated so far *)
  trace : list Event
}.

Definition log (e : Event) (w : World) : World :=
  mkWorld (now w) (calls w) (generated w) (trace w ++ [e]).

Definition delay (ms : Z) (w : World) : World :=
  mkWorld (now w + Z.max 0 ms) (calls w) (generated w)
    (trace w ++ [EvDelay ms]).

(** The call of [publishToMultiple] and, later, its settling. *)
Definition start_publish (publisher : Publisher) (id : string)
    (content : AIContent) (platforms : list PlatformType) (w : World)
  : PublishStep * World :=
  (publisher (calls w) content platforms,
   mkWorld (now w) (S (calls w)) (generated w)
     (trace w ++ [EvPublish id])).

Definition settle (id : string) (s : PublishStep) (w : World) : World :=
  mkWorld (now w + Z.max 0 (p_elapsed s)) (calls w) (generated w)
    (trace w ++ [EvSettle id]).

(** [results.every (r => r.success)] *)
Definition allSuccessful (results : list PublishResult) : bool :=
  forallb pr_success results.

End Publishing.

(** ** Content scheduler (core/content-scheduler.ts) *)

Module ContentScheduler.

Import ContentTester Publishing.

Record OptimalTime := mkOptimalTime {
  dayOfWeek : Z;
  hour : Z;
  engagement : Z
}.

Record QueuedContent := mkQueued {
  id : string;
  content : AIContent;
  platforms : list PlatformType;
  scheduledFor : Z;
  priority : Priority;
  status : Status;
  testResults : option (list (string * ContentTestResult));
  publishResults : option (list PublishResult);
  retryCount : option Z;
  createdAt : Z;
  updatedAt : Z
}.

(** [ScheduleConfig]; [frequency] and [timezone] are never read. *)
Record ScheduleConfig := mkConfig {
  cfg_platforms : list PlatformType;
  optimalTimes : option (gmap string (list OptimalTime));
  cfg_contentQueue : option (list QueuedContent);
  autoTest : option bool;
  retryFailed : option bool;
  maxRetries : option Z
}.

(** [Partial<QueuedContent>]: any of the properties of an item, the ones
    the scheduler itself updates first. *)
Record Updates := mkUpdates {
  u_status : option Status;
  u_scheduledFor : option Z;
  u_testResults : option (list (string * ContentTestResult));
  u_publishResults : option (list PublishResult);
  u_retryCount : option Z;
  u_id : option string;
  u_content : option AIContent;
  u_platforms : option (list PlatformType);
  u_priority : option Priority;
  u_createdAt : option Z;
  u_updatedAt : option Z
}.

Definition no_updates : Updates :=
  mkUpdates None None None None None None None None None None None.

(** The updates the scheduler makes carry none of [id], [content],
    [platforms], [priority], [createdAt] and [updatedAt]. *)
Definition own_updates (st : option Status) (sf : option Z)
    (tr : option (list (string * ContentTestResult)))
    (pr : option (list PublishResult)) (rc : option Z) : Updates :=
  mkUpdates st sf tr pr rc None None None None None None.

Record Scheduler := mkScheduler {
  scheduleConfig : ScheduleConfig;
  contentQueue : list (string * QueuedContent);
  isRunning : bool
}.

Definition with_queue (q : list (string * QueuedContent)) (s : Scheduler) :=
  mkScheduler (scheduleConfig s) q (isRunning s).

Definition opt_true (o : option bool) : bool :=
  match o with Some b => b | None => false end.

Definition new_ContentScheduler (config : ScheduleConfig) : Scheduler :=
  mkScheduler config
    (match cfg_contentQueue config with
     | Some items =>
         fold_left (fun q item => JsMap.set (id item) item q) items []
     | None => []
     end)
    false.

(** [{ ...content, ...updates, updatedAt: new Date () }]: a property the
    updates carry overrides the item's, and [updatedAt] is set last. *)
Definition apply_updates (c : QueuedContent) (u : Updates) (t : Z)
  : QueuedContent :=
  mkQueued
    (match u_id u with Some x => x | None => id c end)
    (match u_content u with Some x => x | None => content c end)
    (match u_platforms u with Some x => x | None => platforms c end)
    (match u_scheduledFor u with Some x => x | None => scheduledFor c end)
    (match u_priority u with Some x => x | None => priority c end)
    (match u_status u with Some x => x | None => status c end)
    (match u_testResults u with Some x => Some x | None => testResults c end)
    (match u_publishResults u with
     | Some x => Some x
     | None => publishResults c
     end)
    (match u_retryCount u with Some x => Some x | None => retryCount c end)
    (match u_createdAt u with Some x => x | None => createdAt c end)
    t.

Definition updateQueuedContent (contentId : string) (updates : Updates)
    (s : Scheduler) (w : World) : bool * Scheduler :=
  match JsMap.get contentId (contentQueue s) with
  | None => (false, s)
  | Some c =>
      (true,
       with_queue
         (JsMap.set contentId (apply_updates c updates (now w))
            (contentQueue s)) s)
  end.

Definition update (contentId : string) (updates : Updates)
    (s : Scheduler) (w : World) : Scheduler :=
  snd (updateQueuedContent contentId updates s w).

Definition removeFromQueue (contentId : string) (s : Scheduler)
  : bool * Scheduler :=
  (JsMap.has contentId (contentQueue s),
   with_queue (JsMap.delete contentId (contentQueue s)) s).

Definition getQueuedContent (contentId : string) (s : Scheduler)
  : option QueuedContent :=
  JsMap.get contentId (contentQueue s).

Definition getAllQueuedContent (s : Scheduler) : list QueuedContent :=
  JsMap.values (contentQueue s).

(** The comparator of [getReadyContent]. *)
Definition by_priority_then_time (a b : QueuedContent) : Z :=
  let priorityDiff := priorityOrder (priority b) - priorityOrder (priority a) in
  if negb (priorityDiff =? 0) then priorityDiff
  else scheduledFor a - scheduledFor b.

Definition is_ready_at (t : Z) (c : QueuedContent) : bool :=
  Status_eqb (status c) ready && (scheduledFor c <=? t).

Definition getReadyContent (s : Scheduler) (w : World) : list QueuedContent :=
  Js.sort by_priority_then_time
    (filter (is_ready_at (now w)) (JsMap.values (contentQueue s))).

Definition retry_count (c : QueuedContent) : Z :=
  Js.or_default (retryCount c) 0.

Section WithPublisher.
Variable publisher : Publisher.

(** The body of the loop of [publishAllReady], for one item. *)
Definition publish_one (queuedContent : QueuedContent)
    (st : Scheduler * list string * World)
  : Scheduler * list string * World :=
  let '(s, errors, w) := st in
  let s := update (id queuedContent) (own_updates (Some publishing) None None
                                        None None) s w in
  let (step, w) :=
    start_publish publisher (id queuedContent) (content queuedContent)
      (platforms queuedContent) w in
  let w := settle (id queuedContent) step w in
  match p_settled step with
  | Fulfilled publishResults =>
      (update (id queuedContent)
         (own_updates
            (Some (if allSuccessful publishResults
                   then published else failed))
            None None (Some publishResults) None) s w,
       errors, w)
  | RejectedWith message =>
      let errorMessage :=
        ("Failed to publish content " ++ id queuedContent ++ ": "
           ++ message)%string in
      (update (id queuedContent)
         (own_updates (Some failed) None None None
            (Some (retry_count queuedContent + 1))) s w,
       errors ++ [errorMessage], w)
  end.

Record ScheduleResult := mkScheduleResult {
  sr_success : bool;
  scheduledContent : list QueuedContent;
  sr_errors : list string
}.

Definition publishAllReady (s : Scheduler) (w : World)
  : ScheduleResult * Scheduler * World :=
  let readyContent := getReadyContent s w in
  let '(s1, errors, w1) :=
    fold_left (fun st c => publish_one c st) readyContent (s, [], w) in
  (mkScheduleResult (List.length errors =? 0)%nat readyContent errors,
   s1, w1).

Definition testContent (queuedContent : QueuedContent) (s : Scheduler)
    (w : World) : Scheduler :=
  let s := update (id queuedContent)
             (own_updates (Some testing) None None None None) s w in
  let testResults :=
    testContentForMultiplePlatforms (content queuedContent)
      (platforms queuedContent) in
  let isReady := forallb isCompatible (JsMap.values testResults) in
  update (id queuedContent)
    (own_updates (Some (if isReady then ready else pending)) None
       (Some testResults) None None) s w.

(** [(content.retryCount || 0) < (this.scheduleConfig.maxRetries || 3)] *)
Definition may_retry (s : Scheduler) (c : QueuedContent) : bool :=
  Status_eqb (status c) failed
  && (retry_count c <? Js.or_default (maxRetries (scheduleConfig s)) 3).

Definition retryFailedContent (s : Scheduler) (w : World) : Scheduler :=
  let failedContent :=
    filter (may_retry s) (JsMap.values (contentQueue s)) in
  fold_left
    (fun s c =>
       update (id c)
         (own_updates (Some pending) (Some (now w + 5 * 60 * 1000)) None None
            None) s w)
    failedContent s.

Definition processScheduledContent (s : Scheduler) (w : World)
  : Scheduler * World :=
  let readyContent := getReadyContent s w in
  let '(s, w) :=
    if (0 <? List.length readyContent)%nat
    then let '(_, s1, w1) := publishAllReady s w in (s1, w1)
    else (s, w) in
  if opt_true (retryFailed (scheduleConfig s))
  then (retryFailedContent s w, w)
  else (s, w).
End WithPublisher.

(** *** Optimal publishing time *)

Section LocalTime.
(** The local time zone, as a fixed offset from UTC in milliseconds
    (daylight saving changes are not modelled). *)
Variable tz : Z.

Definition HOUR : Z := 60 * 60 * 1000.
Definition DAY : Z := 24 * HOUR.

Definition local_day (t : Z) : Z := (t + tz) / DAY.

(** [Date.prototype.getDay]; 1970-01-01 was a Thursday. *)
Definition getDay (t : Z) : Z := (local_day t + 4) mod 7.

(** [setDate (getDate () + daysUntilTarget)] followed by
    [setHours (hour, 0, 0, 0)]. *)
Definition createTimeForDay (baseDate : Z) (dayOfWeek hour : Z) : Z :=
  let currentDay := getDay baseDate in
  let daysUntilTarget := Z.rem (dayOfWeek - currentDay + 7) 7 in
  (local_day baseDate + daysUntilTarget) * DAY + hour * HOUR - tz.

(** The two nested loops of [calculateOptimalTime] visit the slots of the
    platforms in this order. *)
Definition slots_of (optimalTimes : gmap string (list OptimalTime))
    (platforms : list PlatformType) : list OptimalTime :=
  flat_map
    (fun platform =>
       match optimalTimes !! platform with
       | Some platformTimes => platformTimes
       | None => []
       end)
    platforms.

Definition consider (t0 : Z) (best : Z * Z) (time : OptimalTime) : Z * Z :=
  let (bestTime, bestScore) := best in
  let scheduledTime := createTimeForDay t0 (dayOfWeek time) (hour time) in
  if (scheduledTime >? t0) && (engagement time >? bestScore)
  then (scheduledTime, engagement time)
  else best.

Definition calculateOptimalTime (config : ScheduleConfig)
    (platforms : list PlatformType) (t0 : Z) : Z :=
  match optimalTimes config with
  | None => t0 + 60 * 60 * 1000
  | Some optimalTimes =>
      fst (fold_left (consider t0) (slots_of optimalTimes platforms)
             (t0 + 60 * 60 * 1000, 0))
  end.

(** [generateContentId]: the [k]-th identifier, made at time [t]. *)
Variable generateContentId : nat -> Z -> string.

Record AddOptions := mkAddOptions {
  o_priority : option Priority;
  o_scheduledFor : option Z
}.

Definition addToQueue (content : AIContent) (platforms : list PlatformType)
    (options : option AddOptions) (s : Scheduler) (w : World)
  : QueuedContent * Scheduler * World :=
  let id := generateContentId (generated w) (now w) in
  let w := mkWorld (now w) (calls w) (S (generated w)) (trace w) in
  let priority :=
    match options with
    | Some (mkAddOptions (Some p) _) => p
    | _ => medium
    end in
  let scheduledFor :=
    match options with
    | Some (mkAddOptions _ (Some t)) => t
    | _ => calculateOptimalTime (scheduleConfig s) platforms (now w)
    end in
  let queuedContent :=
    mkQueued id content platforms scheduledFor priority pending None None
      None (now w) (now w) in
  let s := with_queue (JsMap.set id queuedContent (contentQueue s)) s in
  let s :=
    if opt_true (autoTest (scheduleConfig s))
    then testContent queuedContent s w
    else s in
  (queuedContent, s, w).
End LocalTime.

(** *** Status *)

Record SchedulerStatus := mkStatus {
  st_isRunning : bool;
  queueSize : Z;
  readyCount : Z;
  failedCount : Z;
  nextRun : option Z
}.

Definition by_scheduled_time (a b : QueuedContent) : Z :=
  scheduledFor a - scheduledFor b.

Definition getStatus (s : Scheduler) : SchedulerStatus :=
  let allContent := JsMap.values (contentQueue s) in
  let readyCount :=
    len (filter (fun c => Status_eqb (status c) ready) allContent) in
  let failedCount :=
    len (filter (fun c => Status_eqb (status c) failed) allContent) in
  let nextReady :=
    hd_error
      (Js.sort by_scheduled_time
         (filter (fun c => Status_eqb (status c) ready) allContent)) in
  mkStatus (isRunning s) (len (contentQueue s)) readyCount failedCount
    (option_map scheduledFor nextReady).

End ContentScheduler.

(** ** Bulk publisher (core/bulk-publisher.ts) *)

Module BulkPublisher.

Import ContentTester Publishing.

(** [concurrency] is a natural number: a negative or fractional batch size
    is outside the model. *)
Record BulkPublishConfig := mkConfig {
  cfg_platforms : list PlatformType;
  concurrency : option nat;
  delayBetweenPublishes : option Z;
  autoTest : option bool;
  stopOnError : option bool;
  retryFailed : option bool;
  maxRetries : option Z;
  retryDelay : option Z
}.

Record BulkPublishItem := mkItem {
  id : string;
  content : AIContent;
  platforms : list PlatformType;
  priority : Priority;
  status : Status;
  testResults : option (list (string * ContentTestResult));
  publishResults : option (list PublishResult);
  retryCount : option Z;
  createdAt : Z;
  updatedAt : Z
}.

Record Updates := mkUpdates {
  u_status : option Status;
  u_testResults : option (list (string * ContentTestResult));
  u_publishResults : option (list PublishResult);
  u_retryCount : option Z
}.

Record Bulk := mkBulk {
  config : BulkPublishConfig;
  items : list (string * BulkPublishItem);
  isPublishing : bool
}.

Definition with_items (m : list (string * BulkPublishItem)) (s : Bulk) :=
  mkBulk (config s) m (isPublishing s).

Definition with_isPublishing (b : bool) (s : Bulk) :=
  mkBulk (config s) (items s) b.

Definition or_some {A} (o : option A) (d : A) : option A :=
  match o with Some x => Some x | None => Some d end.

(** The constructor spreads the given configuration over the defaults. *)
Definition new_BulkPublisher (c : BulkPublishConfig) : Bulk :=
  mkBulk
    (mkConfig (cfg_platforms c)
       (or_some (concurrency c) 5%nat)
       (or_some (delayBetweenPublishes c) 2000)
       (or_some (autoTest c) true)
       (or_some (stopOnError c) false)
       (or_some (retryFailed c) true)
       (or_some (maxRetries c) 3)
       (or_some (retryDelay c) 5000))
    [] false.

Definition opt_true (o : option bool) : bool :=
  match o with Some b => b | None => false end.

(** [this.config.concurrency || 5] *)
Definition effective_concurrency (s : Bulk) : nat :=
  match concurrency (config s) with
  | Some O | None => 5%nat
  | Some c => c
  end.

Definition apply_updates (i : BulkPublishItem) (u : Updates) (t : Z)
  : BulkPublishItem :=
  mkItem (id i) (content i) (platforms i) (priority i)
    (match u_status u with Some x => x | None => status i end)
    (match u_testResults u with Some x => Some x | None => testResults i end)
    (match u_publishResults u with
     | Some x => Some x
     | None => publishResults i
     end)
    (match u_retryCount u with Some x => Some x | None => retryCount i end)
    (createdAt i) t.

Definition updateItem (itemId : string) (updates : Updates) (s : Bulk)
    (w : World) : Bulk :=
  match JsMap.get itemId (items s) with
  | Some item =>
      with_items (JsMap.set itemId (apply_updates item updates (now w))
                    (items s)) s
  | None => s
  end.

Definition updateItemStatus (itemId : string) (st : Status) (s : Bulk)
    (w : World) : Bulk :=
  updateItem itemId (mkUpdates (Some st) None None None) s w.

Definition getAllItems (s : Bulk) : list BulkPublishItem :=
  JsMap.values (items s).

Definition getItemsByStatus (st : Status) (s : Bulk) : list BulkPublishItem :=
  filter (fun item => Status_eqb (status item) st) (JsMap.values (items s)).

Definition removeItem (itemId : string) (s : Bulk) : bool * Bulk :=
  (JsMap.has itemId (items s), with_items (JsMap.delete itemId (items s)) s).

Definition testItem (item : BulkPublishItem) (s : Bulk) (w : World) : Bulk :=
  let s := updateItemStatus (id item) testing s w in
  let testResults :=
    testContentForMultiplePlatforms (content item) (platforms item) in
  let isReady := forallb isCompatible (JsMap.values testResults) in
  updateItem (id item)
    (mkUpdates (Some (if isReady then ready else pending)) (Some testResults)
       None None) s w.

Definition testAllItems (s : Bulk) (w : World) : Bulk :=
  let pendingItems := getItemsByStatus pending s in
  fold_left (fun s item => testItem item s w) pendingItems s.

(** The comparator of [sortItemsByPriority]. *)
Definition by_priority_then_creation (a b : BulkPublishItem) : Z :=
  let priorityDiff := priorityOrder (priority b) - priorityOrder (priority a) in
  if negb (priorityDiff =? 0) then priorityDiff
  else createdAt a - createdAt b.

Definition sortItemsByPriority (l : list BulkPublishItem)
  : list BulkPublishItem :=
  Js.sort by_priority_then_creation l.

(** [summary.averageScore], a floating-point mean, is left out. *)
Record Summary := mkSummary {
  totalPublishes : Z;
  successfulPublishes : Z;
  failedPublishes : Z
}.

Record BulkPublishResult := mkBulkResult {
  success : bool;
  totalItems : Z;
  successfulItems : Z;
  failedItems : Z;
  results : list (string * list PublishResult);
  errors : list string;
  summary : Summary
}.

Definition createEmptyResult : BulkPublishResult :=
  mkBulkResult true 0 0 0 [] [] (mkSummary 0 0 0).

Section WithPublisher.
Variable publisher : Publisher.

(** [publishItem] up to its [await]: the item is marked and the call to
    the publisher is made. *)
Definition publishItem_start (item : BulkPublishItem)
    (st : Bulk * World) : PublishStep * (Bulk * World) :=
  let (s, w) := st in
  let s := updateItemStatus (id item) publishing s w in
  let (step, w) :=
    start_publish publisher (id item) (content item) (platforms item) w in
  (step, (s, w)).

(** [publishItem] from the point where that call settles. *)
Definition publishItem_finish (item : BulkPublishItem) (step : PublishStep)
    (st : Bulk * World) : Bulk * World :=
  let (s, w) := st in
  let w := settle (id item) step w in
  match p_settled step with
  | Fulfilled publishResults =>
      (updateItem (id item)
         (mkUpdates
            (Some (if allSuccessful publishResults
                   then published else failed))
            None (Some publishResults) None) s w, w)
  | RejectedWith _ => (updateItemStatus (id item) failed s w, w)
  end.

(** [await this.publishItem (item)] *)
Definition publishItem (item : BulkPublishItem) (st : Bulk * World)
  : PublishStep * (Bulk * World) :=
  let (step, st) := publishItem_start item st in
  (step, publishItem_finish item step st).

(** [batch.map (item => this.publishItem (item))]: every publish of the
    batch is started, in the order of the batch. *)
Fixpoint start_batch (batch : list BulkPublishItem) (st : Bulk * World)
  : list (BulkPublishItem * PublishStep) * (Bulk * World) :=
  match batch with
  | [] => ([], st)
  | item :: r =>
      let (step, st) := publishItem_start item st in
      let (started, st) := start_batch r st in
      ((item, step) :: started, st)
  end.

(** [await Promise.allSettled (batchPromises)]: every publish of the batch
    settles; the model takes them in the order of the batch. *)
Definition settle_batch (started : list (BulkPublishItem * PublishStep))
    (st : Bulk * World) : Bulk * World :=
  fold_left (fun st p => publishItem_finish (fst p) (snd p) st) started st.

Record Tally := mkTally {
  t_results : list (string * list PublishResult);
  t_errors : list string;
  t_successfulItems : Z;
  t_failedItems : Z;
  t_totalPublishes : Z;
  t_successfulPublishes : Z;
  t_failedPublishes : Z
}.

Definition empty_tally : Tally := mkTally [] [] 0 0 0 0 0.

(** "Process batch results", for one settled promise. *)
Definition record_result (p : BulkPublishItem * PublishStep)
    (st : Tally * Bulk * World) : Tally * Bulk * World :=
  let '(t, s, w) := st in
  let item := fst p in
  match p_settled (snd p) with
  | Fulfilled publishResults =>
      let itemSuccessful := allSuccessful publishResults in
      (mkTally
         (JsMap.set (id item) publishResults (t_results t))
         (t_errors t)
         (t_successfulItems t + if itemSuccessful then 1 else 0)
         (t_failedItems t + if itemSuccessful then 0 else 1)
         (t_totalPublishes t + len publishResults)
         (t_successfulPublishes t + len (filter pr_success publishResults))
         (t_failedPublishes t
          + len (filter (fun r => negb (pr_success r)) publishResults)),
       updateItemStatus (id item)
         (if itemSuccessful then published else failed) s w,
       w)
  | RejectedWith message =>
      (mkTally (t_results t)
         (t_errors t
          ++ [("Failed to publish item " ++ id item ++ ": " ++ message)
                %string])
         (t_successfulItems t) (t_failedItems t + 1)
         (t_totalPublishes t) (t_successfulPublishes t)
         (t_failedPublishes t),
       updateItemStatus (id item) failed s w,
       w)
  end.

(** One turn of the loop over the batches. *)
Definition run_batch (all : list BulkPublishItem) (concurrency : nat)
    (pause : Z) (i : nat) (st : Tally * Bulk * World)
  : Tally * Bulk * World :=
  let '(t, s, w) := st in
  let batch := Js.slice i (i + concurrency) all in
  let w :=
    log (EvBatch (Z.of_nat (i / concurrency) + 1)
           (Z.of_nat (Js.ceil_div (List.length all) concurrency))) w in
  let (started, sw) := start_batch batch (s, w) in
  let (s, w) := settle_batch started sw in
  let '(t, s, w) :=
    fold_left (fun st p => record_result p st) started (t, s, w) in
  if (i + concurrency <? List.length all)%nat
  then (t, s, delay pause w)
  else (t, s, w).

(** [for (let i = 0; i < items.length; i += concurrency)], entered at [i];
    [fuel] bounds the number of turns. *)
Fixpoint batch_loop (fuel : nat) (all : list BulkPublishItem)
    (concurrency : nat) (pause : Z) (i : nat) (st : Tally * Bulk * World)
  : Tally * Bulk * World :=
  match fuel with
  | O => st
  | S f =>
      if (i <? List.length all)%nat
      then batch_loop f all concurrency pause (i + concurrency)
             (run_batch all concurrency pause i st)
      else st
  end.

Definition retry_count (item : BulkPublishItem) : Z :=
  Js.or_default (retryCount item) 0.

Definition retryFailedItems (s : Bulk) (w : World) : Bulk * World :=
  let failedItems := getItemsByStatus failed s in
  let maxRetries := Js.or_default (maxRetries (config s)) 3 in
  fold_left
    (fun (st : Bulk * World) item =>
       if retry_count item <? maxRetries then
         let (s, w) := st in
         let s :=
           updateItem (id item)
             (mkUpdates (Some pending) None None
                (Some (retry_count item + 1))) s w in
         let w := delay (Js.or_default (retryDelay (config s)) 5000) w in
         snd (publishItem item (s, w))
       else st)
    failedItems (s, w).

Definition publishItemsInBatches (all : list BulkPublishItem) (s : Bulk)
    (w : World) : BulkPublishResult * Bulk * World :=
  let concurrency := effective_concurrency s in
  let pause := Js.or_default (delayBetweenPublishes (config s)) 2000 in
  let '(t, s, w) :=
    batch_loop (List.length all) all concurrency pause 0
      (empty_tally, s, w) in
  let (s, w) :=
    if opt_true (retryFailed (config s)) then retryFailedItems s w
    else (s, w) in
  (mkBulkResult (t_failedItems t =? 0) (len all) (t_successfulItems t)
     (t_failedItems t) (t_results t) (t_errors t)
     (mkSummary (t_totalPublishes t) (t_successfulPublishes t)
        (t_failedPublishes t)),
   s, w).


Definition publishAll (s : Bulk) (w : World)
  : Settled BulkPublishResult * Bulk * World :=
  if isPublishing s
  then (RejectedWith "Bulk publishing is already in progress", s, w)
  else
    let s := with_isPublishing true s in
    let s :=
      if opt_true (autoTest (config s)) then testAllItems s w else s in
    let readyItems := getItemsByStatus ready s in
    match readyItems with
    | [] => (Fulfilled createEmptyResult, with_isPublishing false s, w)
    | _ =>
        let sortedItems := sortItemsByPriority readyItems in
        let '(r, s, w) := publishItemsInBatches sortedItems s w in
        (Fulfilled r, with_isPublishing false s, w)
    end.
End WithPublisher.

(** *** Adding items, status *)

Section Adding.
(** [generateItemId]: the [k]-th identifier, made at time [t]. *)
Variable generateItemId : nat -> Z -> string.

Definition addItem (content : AIContent) (platforms : list PlatformType)
    (priority : option Priority) (s : Bulk) (w : World)
  : BulkPublishItem * Bulk * World :=
  let id := generateItemId (generated w) (now w) in
  let w := mkWorld (now w) (calls w) (S (generated w)) (trace w) in
  let item :=
    mkItem id content platforms
      (match priority with Some p => p | None => medium end)
      pending None None None (now w) (now w) in
  (item, with_items (JsMap.set id item (items s)) s, w).

Record NewItem := mkNewItem {
  n_content : AIContent;
  n_platforms : list PlatformType;
  n_priority : option Priority
}.

Definition addItems (contentItems : list NewItem) (s : Bulk) (w : World)
  : list BulkPublishItem * Bulk * World :=
  fold_left
    (fun (acc : list BulkPublishItem * Bulk * World) item =>
       let '(added, s, w) := acc in
       let '(bulkItem, s, w) :=
         addItem (n_content item) (n_platforms item) (n_priority item) s w in
       (added ++ [bulkItem], s, w))
    contentItems ([], s, w).
End Adding.

Record BulkStatus := mkBulkStatus {
  st_isPublishing : bool;
  st_totalItems : Z;
  pendingCount : Z;
  readyCount : Z;
  publishedCount : Z;
  failedCount : Z
}.

Definition count_status (st : Status) (l : list BulkPublishItem) : Z :=
  len (filter (fun i => Status_eqb (status i) st) l).

Definition getStatus (s : Bulk) : BulkStatus :=
  let allItems := JsMap.values (items s) in
  mkBulkStatus (isPublishing s) (len allItems)
    (count_status pending allItems) (count_status ready allItems)
    (count_status published allItems) (count_status failed allItems).

Definition clearAll (s : Bulk) : Bulk := with_items [] s.

End BulkPublisher.

(** * Scenarios and reference definitions used by the statements *)

(** An open breaker was opened by [onFailure]: its failure count is at the
    threshold or above.  Every breaker made by the constructor and driven
    through [execute] is so. *)
Definition opened_by_failures (b : RetryHandler.CircuitBreaker) : Prop :=
  RetryHandler.state b = RetryHandler.OPEN ->
  RetryHandler.threshold b <= RetryHandler.failureCount b.

(** A caller waits [wait] milliseconds and then calls through the breaker. *)
Definition call_after {T} (wait : Z) (op : RetryHandler.Operation T)
    (st : RetryHandler.CircuitBreaker * RetryHandler.World)
  : RetryHandler.CircuitBreaker * RetryHandler.World :=
  let (b, w) := st in
  let w := RetryHandler.mkWorld (RetryHandler.clock w + wait)
             (RetryHandler.invoked w) (RetryHandler.drawn w)
             (RetryHandler.trace w) in
  let '(_, b1, w1) := RetryHandler.execute b op w in
  (b1, w1).

Definition failing_op : RetryHandler.Operation unit :=
  fun _ _ =>
    RetryHandler.mkOpStep
      (RetryHandler.Rejected
         (RetryHandler.PlainError (Some "fail"%string) None None)) 1.

Definition succeeding_op : RetryHandler.Operation unit :=
  fun _ _ => RetryHandler.mkOpStep (RetryHandler.Resolved tt) 1.

(** The breaker of the test-suite, [new CircuitBreaker (3, 1000)], after
    three failures, a pause longer than the reset time and one success. *)
Definition half_open_after_one_success
  : RetryHandler.CircuitBreaker * RetryHandler.World :=
  call_after 1000 succeeding_op
    (call_after 0 failing_op
       (call_after 0 failing_op
          (call_after 0 failing_op
             (RetryHandler.newCircuitBreaker (Some 3) (Some 1000),
              RetryHandler.mkWorld 0 0 0 [])))).


(** Two elements tie under a comparator when neither has to come first. *)
Definition tied {A} (cmp : A -> A -> Z) (a x : A) : bool :=
  (cmp a x <=? 0) && (cmp x a <=? 0).

(** *** The events of one run of the retry loop *)

Section RetryShape.
Import RetryHandler.
Variable random : nat -> Q.
Variable cfg : RetryConfig.

(** The delay [calculateDelay] returns after attempt [a] when it makes the
    [k]-th draw of [Math.random ()]. *)
Definition delay_value (a : Z) (k : nat) : Q :=
  fst (calculateDelay random a cfg (mkWorld 0 0 k [])).

(** An attempt calls the operation once, or not at all when the breaker
    rejects it. *)
Definition invocation_part (inv : list Event) : Prop :=
  inv = [] \/ exists k, inv = [EvInvoke k].

(** The loop is left after an attempt that succeeded, or that failed with an
    error that is not retryable or when no retry is left. *)
Definition final_result (a : Z) (r : AttemptResult) : Prop :=
  r = Succeeded
  \/ exists e, r = Failed e
               /\ (isRetryableError e cfg = false \/ maxRetries cfg < a).

(** The events of the loop entered at attempt [a]. *)
Inductive Shape : Z -> list Event -> Prop :=
| Shape_final a inv r :
    invocation_part inv -> final_result a r ->
    Shape a (EvStart a :: inv ++ [EvEnd a r])
| Shape_retry a inv e k rest :
    invocation_part inv -> isRetryableError e cfg = true ->
    a <= maxRetries cfg -> Shape (a + 1) rest ->
    Shape a (EvStart a :: inv
               ++ [EvEnd a (Failed e); EvSleep (delay_value a k)] ++ rest).
End RetryShape.


(** The scenario of the test-suite: [maxRetries = 2], no breaker key, an
    operation that fails with retryable errors on its first two calls and
    succeeds on the third. *)
Definition network_timeout : RetryHandler.JsError :=
  RetryHandler.PlainError (Some "network timeout"%string) None None.

Definition connection_reset : RetryHandler.JsError :=
  RetryHandler.PlainError (Some "connection reset"%string) None None.

Definition fails_twice_then_succeeds : RetryHandler.Operation nat :=
  fun k _ =>
    match k with
    | O => RetryHandler.mkOpStep (RetryHandler.Rejected network_timeout) 1
    | S O => RetryHandler.mkOpStep (RetryHandler.Rejected connection_reset) 1
    | _ => RetryHandler.mkOpStep (RetryHandler.Resolved 42%nat) 1
    end.

Definition test_overrides : RetryHandler.PartialRetryConfig :=
  RetryHandler.mkPartial (Some 2) (Some 10%Q) (Some 50%Q) (Some false)
    None None None None.

Definition api_handler : RetryHandler.Handler :=
  RetryHandler.mkHandler ∅ RetryHandler.DEFAULT_RETRY_CONFIGS_api.

Definition half : nat -> Q := fun _ => (1 # 2)%Q.

Definition fresh_world : RetryHandler.World := RetryHandler.mkWorld 0 0 0 [].

(** The backoff before attempt [n >= 2], without the jitter. *)
Definition backoff (cfg : RetryHandler.RetryConfig) (n : Z) : Q :=
  if RetryHandler.exponentialBackoff cfg
  then Qmin (RetryHandler.baseDelayMs cfg * 2 ^ (n - 2))
         (RetryHandler.maxDelayMs cfg)
  else RetryHandler.baseDelayMs cfg.

(** The largest jitter the configuration allows. *)
Definition jitter_bound (cfg : RetryHandler.RetryConfig) : Q :=
  match RetryHandler.jitterMs cfg with Some j => j | None => 0 end.

(** Errors carrying the status 401. *)
Definition unauthorized_connection : RetryHandler.JsError :=
  RetryHandler.PlainError (Some "Connection refused: unauthorized"%string)
    (Some 401) None.

Definition unauthorized_plain : RetryHandler.JsError :=
  RetryHandler.PlainError (Some "Unauthorized"%string) (Some 401) None.

Definition unauthorized_marked : RetryHandler.JsError :=
  RetryHandler.RetryableError "Unauthorized" RetryHandler.AUTHENTICATION true
    (Some 401).

Definition always_failing_with (e : RetryHandler.JsError)
  : RetryHandler.Operation unit :=
  fun _ _ => RetryHandler.mkOpStep (RetryHandler.Rejected e) 1.

Definition custom_unauthorized : RetryHandler.PartialRetryConfig :=
  RetryHandler.mkPartial None None None None None
    (Some ["unauthorized"%string]) None None.

(** The message of a plain error matches neither the built-in network words
    nor the custom retryable substrings of the configuration. *)
Definition message_unmatched (e : RetryHandler.JsError)
    (cfg : RetryHandler.RetryConfig) : Prop :=
  existsb (Js.includes (RetryHandler.lowered_message e))
    RetryHandler.network_words = false
  /\ forall l, RetryHandler.retryableErrors cfg = Some l ->
       existsb
         (fun r => Js.includes (RetryHandler.lowered_message e)
                     (Js.toLowerCase r)) l = false.

(** *** Ready content *)

(** [a] may come before [b]: a higher priority, or the same priority and a
    scheduled time that is not later. *)
Definition ready_order (a b : ContentScheduler.QueuedContent) : Prop :=
  Publishing.priorityOrder (ContentScheduler.priority b)
    < Publishing.priorityOrder (ContentScheduler.priority a)
  \/ (ContentScheduler.priority a = ContentScheduler.priority b
      /\ ContentScheduler.scheduledFor a <= ContentScheduler.scheduledFor b).

(** The items of one priority scheduled for the same time. *)
Definition same_tier (p : Publishing.Priority) (t : Z)
    (c : ContentScheduler.QueuedContent) : bool :=
  Publishing.Priority_eqb (ContentScheduler.priority c) p
  && (ContentScheduler.scheduledFor c =? t).

Definition sample_content : ContentTester.AIContent :=
  ContentTester.mkContent "blog" "Hello" "Some text" None None None None [].

Definition queued (i : string) (p : Publishing.Priority) (t : Z)
  : ContentScheduler.QueuedContent :=
  ContentScheduler.mkQueued i sample_content ["ghost"%string] t p
    Publishing.ready None None None t t.

Definition three_ready : ContentScheduler.Scheduler :=
  ContentScheduler.new_ContentScheduler
    (ContentScheduler.mkConfig [] None
       (Some [queued "first" Publishing.low 10;
              queued "second" Publishing.urgent 20;
              queued "third" Publishing.medium 30])
       None None None).

(** Two ready items of one priority, the first of them created later than
    the second: scheduled for the same time, and scheduled earlier. *)
Definition queued_created (i : string) (scheduled created : Z)
  : ContentScheduler.QueuedContent :=
  ContentScheduler.mkQueued i sample_content ["ghost"%string] scheduled
    Publishing.medium Publishing.ready None None None created created.

Definition later_created_first_tied : ContentScheduler.Scheduler :=
  ContentScheduler.new_ContentScheduler
    (ContentScheduler.mkConfig [] None
       (Some [queued_created "a" 10 20; queued_created "b" 10 10])
       None None None).

Definition later_created_first_earlier : ContentScheduler.Scheduler :=
  ContentScheduler.new_ContentScheduler
    (ContentScheduler.mkConfig [] None
       (Some [queued_created "b" 20 10; queued_created "a" 10 20])
       None None None).

(** The queue maps each identifier to one item, the item of that
    identifier: what [set (item.id, item)] builds. *)
Definition well_keyed (q : list (string * ContentScheduler.QueuedContent))
  : Prop :=
  NoDup (map fst q)
  /\ Forall (fun e => ContentScheduler.id (snd e) = fst e) q.

(** *** A publish that keeps failing *)

(** [publishToMultiple] reports a failed publish in its results (it catches
    the rejections of the adapters): it fulfils with [success = false]. *)
Definition failing_publisher : Publishing.Publisher :=
  fun _ _ platforms =>
    Publishing.mkPublishStep
      (Publishing.Fulfilled
         (map (fun p => Publishing.mkPublishResult false p
                          (Some "Publish operation failed"%string))
            platforms))
      1.

Definition retrying_config : ContentScheduler.ScheduleConfig :=
  ContentScheduler.mkConfig ["ghost"%string] None None None (Some true)
    (Some 3).

Definition failed_post : ContentScheduler.QueuedContent :=
  ContentScheduler.mkQueued "post" sample_content ["ghost"%string] 0
    Publishing.medium Publishing.failed None None None 0 0.

Definition one_failed : ContentScheduler.Scheduler :=
  ContentScheduler.mkScheduler retrying_config [("post"%string, failed_post)]
    true.

(** One round of the life of the item: the scheduling loop runs (publish
    what is ready, re-queue what failed), then, once the five minutes have
    passed, the caller tests the item again. *)
Definition retry_round (st : ContentScheduler.Scheduler * Publishing.World)
  : ContentScheduler.Scheduler * Publishing.World :=
  let (s, w) := st in
  let (s, w) :=
    ContentScheduler.processScheduledContent failing_publisher s w in
  let w := Publishing.mkWorld (Publishing.now w + 5 * 60 * 1000 + 1)
             (Publishing.calls w) (Publishing.generated w)
             (Publishing.trace w) in
  match ContentScheduler.getQueuedContent "post" s with
  | Some c => (ContentScheduler.testContent c s w, w)
  | None => (s, w)
  end.

Definition after_six_rounds : ContentScheduler.Scheduler * Publishing.World :=
  Nat.iter 6 retry_round (one_failed, Publishing.mkWorld 0 0 0 []).

(** The time [calculateOptimalTime] makes of a slot, seen from [t0]. *)
Definition slot_time (tz t0 : Z) (s : ContentScheduler.OptimalTime) : Z :=
  ContentScheduler.createTimeForDay tz t0 (ContentScheduler.dayOfWeek s)
    (ContentScheduler.hour s).

(** A slot counts when its time is after [t0] and its engagement positive. *)
Definition eligible (tz t0 : Z) (s : ContentScheduler.OptimalTime) : Prop :=
  t0 < slot_time tz t0 s /\ 0 < ContentScheduler.engagement s.

(** *** Optimal time, as the specification words it *)

Section ClaimedOptimalTime.
Variable tz : Z.

(** The next time, strictly after [t0], that falls on the weekday and the
    hour of the slot. *)
Definition next_occurrence (t0 : Z) (slot : ContentScheduler.OptimalTime) : Z :=
  let t := ContentScheduler.createTimeForDay tz t0
             (ContentScheduler.dayOfWeek slot) (ContentScheduler.hour slot) in
  if t >? t0 then t else t + 7 * ContentScheduler.DAY.

Definition highest_engagement (slots : list ContentScheduler.OptimalTime) : Z :=
  fold_right (fun s m => Z.max (ContentScheduler.engagement s) m) 0 slots.

(** "The nearest future slot with the highest engagement score across all
    requested targets; if no slot data exists, now + 1 hour". *)
Definition claimed_optimal_time (config : ContentScheduler.ScheduleConfig)
    (platforms : list ContentTester.PlatformType) (t0 : Z) : Z :=
  let slots :=
    match ContentScheduler.optimalTimes config with
    | Some ot => ContentScheduler.slots_of ot platforms
    | None => []
    end in
  let best :=
    filter (fun s => ContentScheduler.engagement s =? highest_engagement slots)
      slots in
  match map (next_occurrence t0) best with
  | [] => t0 + 60 * 60 * 1000
  | t :: ts => fold_right Z.min t ts
  end.
End ClaimedOptimalTime.

(** Thursday 1970-01-01, 12:00 UTC. *)
Definition thursday_noon : Z := 12 * ContentScheduler.HOUR.

(** The best slot is earlier on the same day. *)
Definition slots_best_passed : ContentScheduler.ScheduleConfig :=
  ContentScheduler.mkConfig ["ghost"%string]
    (Some (<["ghost"%string :=
              [ContentScheduler.mkOptimalTime 4 9 90;
               ContentScheduler.mkOptimalTime 5 9 50]]> ∅))
    None None None None.

(** Two slots tie; the later one is listed first. *)
Definition slots_tied : ContentScheduler.ScheduleConfig :=
  ContentScheduler.mkConfig ["ghost"%string]
    (Some (<["ghost"%string :=
              [ContentScheduler.mkOptimalTime 6 9 80;
               ContentScheduler.mkOptimalTime 5 9 80]]> ∅))
    None None None None.

(** *** Best platforms *)

(** The order [getBestPlatformsForContent] sorts by, on the platforms. *)
Definition by_tested_score (content : ContentTester.AIContent)
    (a b : ContentTester.PlatformType) : Z :=
  ContentTester.score (ContentTester.testContentForPlatform content b)
  - ContentTester.score (ContentTester.testContentForPlatform content a).

Definition compatible_with (content : ContentTester.AIContent)
    (p : ContentTester.PlatformType) : bool :=
  ContentTester.isCompatible (ContentTester.testContentForPlatform content p).

Definition scores (content : ContentTester.AIContent) (sc : Z)
    (p : ContentTester.PlatformType) : bool :=
  ContentTester.score (ContentTester.testContentForPlatform content p) =? sc.

(** *** Waves of the bulk publisher *)








(** Five pending items and a publisher that always succeeds. *)
Definition succeeding_publisher : Publishing.Publisher :=
  fun _ _ platforms =>
    Publishing.mkPublishStep
      (Publishing.Fulfilled
         (map (fun p => Publishing.mkPublishResult true p None) platforms))
      10.

Definition bulk_item (i : string) (p : Publishing.Priority) (t : Z)
  : BulkPublisher.BulkPublishItem :=
  BulkPublisher.mkItem i sample_content ["ghost"%string] p Publishing.pending
    None None None t t.

Definition five_items : BulkPublisher.Bulk :=
  BulkPublisher.with_items
    [("a", bulk_item "a" Publishing.low 1);
     ("b", bulk_item "b" Publishing.urgent 2);
     ("c", bulk_item "c" Publishing.medium 3);
     ("d", bulk_item "d" Publishing.medium 4);
     ("e", bulk_item "e" Publishing.high 5)]%string
    (BulkPublisher.new_BulkPublisher
       (BulkPublisher.mkConfig ["ghost"%string] (Some 2%nat) None None None
          None None None)).

(** * Further scenarios and reference definitions *)

(** *** Runs of calls through one breaker *)

Definition always_rejects {T} (op : RetryHandler.Operation T) : Prop :=
  forall k t, exists e,
    RetryHandler.op_result (op k t) = RetryHandler.Rejected e.

Definition always_resolves {T} (op : RetryHandler.Operation T) : Prop :=
  forall k t, exists v,
    RetryHandler.op_result (op k t) = RetryHandler.Resolved v.

(** The caller makes the calls one after the other, waiting as it likes
    before each. *)
Definition call_all {T} (calls : list (Z * RetryHandler.Operation T))
    (st : RetryHandler.CircuitBreaker * RetryHandler.World)
  : RetryHandler.CircuitBreaker * RetryHandler.World :=
  fold_left (fun st c => call_after (fst c) (snd c) st) calls st.

(** Two optional breakers are both absent, or both present with the same
    threshold and reset time. *)
Definition same_settings (cb cb1 : option RetryHandler.CircuitBreaker)
  : Prop :=
  match cb, cb1 with
  | Some b, Some b1 =>
      RetryHandler.threshold b1 = RetryHandler.threshold b
      /\ RetryHandler.resetTimeMs b1 = RetryHandler.resetTimeMs b
  | None, None => True
  | _, _ => False
  end.

(** *** One publish per ready item *)

(** The calls of [publishToMultiple] a loop over [l] makes, the first of
    them being call number [k]. *)
Fixpoint steps_from (publisher : Publishing.Publisher) (k : nat)
    (l : list ContentScheduler.QueuedContent)
  : list (ContentScheduler.QueuedContent * Publishing.PublishStep) :=
  match l with
  | [] => []
  | c :: r =>
      (c, publisher k (ContentScheduler.content c)
            (ContentScheduler.platforms c))
      :: steps_from publisher (S k) r
  end.

(** The message [publishAllReady] records when the call for [c] throws. *)
Definition error_of_step
    (cs : ContentScheduler.QueuedContent * Publishing.PublishStep)
  : list string :=
  match Publishing.p_settled (snd cs) with
  | Publishing.Fulfilled _ => []
  | Publishing.RejectedWith message =>
      [("Failed to publish content " ++ ContentScheduler.id (fst cs) ++ ": "
          ++ message)%string]
  end.

Definition is_fulfilled
    (cs : ContentScheduler.QueuedContent * Publishing.PublishStep) : bool :=
  match Publishing.p_settled (snd cs) with
  | Publishing.Fulfilled _ => true
  | Publishing.RejectedWith _ => false
  end.

(** [c1] is the ready item [c] after its publish settled as [step]. *)
Definition published_as (c : ContentScheduler.QueuedContent)
    (step : Publishing.PublishStep) (c1 : ContentScheduler.QueuedContent)
  : Prop :=
  ContentScheduler.content c1 = ContentScheduler.content c
  /\ ContentScheduler.platforms c1 = ContentScheduler.platforms c
  /\ ContentScheduler.scheduledFor c1 = ContentScheduler.scheduledFor c
  /\ ContentScheduler.priority c1 = ContentScheduler.priority c
  /\ match Publishing.p_settled step with
     | Publishing.Fulfilled rs =>
         ContentScheduler.status c1
         = (if Publishing.allSuccessful rs
            then Publishing.published else Publishing.failed)
         /\ ContentScheduler.publishResults c1 = Some rs
         /\ ContentScheduler.retryCount c1 = ContentScheduler.retryCount c
     | Publishing.RejectedWith _ =>
         ContentScheduler.status c1 = Publishing.failed
         /\ ContentScheduler.publishResults c1
            = ContentScheduler.publishResults c
         /\ ContentScheduler.retryCount c1
            = Some (ContentScheduler.retry_count c + 1)
     end.

(** *** Bulk publisher: counters and frame *)

(** The counters of a tally agree with each other after [n] items. *)
Definition tally_ok (n : Z) (t : BulkPublisher.Tally) : Prop :=
  BulkPublisher.t_successfulItems t + BulkPublisher.t_failedItems t = n
  /\ 0 <= BulkPublisher.t_successfulItems t
  /\ ContentTester.len (BulkPublisher.t_errors t)
     <= BulkPublisher.t_failedItems t
  /\ BulkPublisher.t_totalPublishes t
     = BulkPublisher.t_successfulPublishes t
       + BulkPublisher.t_failedPublishes t
  /\ 0 <= BulkPublisher.t_successfulPublishes t
  /\ 0 <= BulkPublisher.t_failedPublishes t.

(** The same for a result. *)
Definition consistent_result (r : BulkPublisher.BulkPublishResult) : Prop :=
  BulkPublisher.successfulItems r + BulkPublisher.failedItems r
  = BulkPublisher.totalItems r
  /\ 0 <= BulkPublisher.successfulItems r
  /\ ContentTester.len (BulkPublisher.errors r) <= BulkPublisher.failedItems r
  /\ (BulkPublisher.success r = true
      <-> BulkPublisher.successfulItems r = BulkPublisher.totalItems r)
  /\ BulkPublisher.totalPublishes (BulkPublisher.summary r)
     = BulkPublisher.successfulPublishes (BulkPublisher.summary r)
       + BulkPublisher.failedPublishes (BulkPublisher.summary r).

(** What no operation of the bulk publisher changes in an item. *)
Definition same_item_core (a b : BulkPublisher.BulkPublishItem) : Prop :=
  BulkPublisher.id b = BulkPublisher.id a
  /\ BulkPublisher.content b = BulkPublisher.content a
  /\ BulkPublisher.platforms b = BulkPublisher.platforms a
  /\ BulkPublisher.priority b = BulkPublisher.priority a
  /\ BulkPublisher.createdAt b = BulkPublisher.createdAt a.

(** [s1] has the configuration of [s], the same identifiers in the same
    order, and under each of them an item with the same core. *)
Definition bulk_frame (s s1 : BulkPublisher.Bulk) : Prop :=
  BulkPublisher.config s1 = BulkPublisher.config s
  /\ map fst (BulkPublisher.items s1) = map fst (BulkPublisher.items s)
  /\ forall k c1,
       JsMap.get k (BulkPublisher.items s1) = Some c1 ->
       exists c,
         JsMap.get k (BulkPublisher.items s) = Some c /\ same_item_core c c1.

(** The items are held each under its own identifier: what
    [set (item.id, item)] builds. *)
Definition items_keyed (q : list (string * BulkPublisher.BulkPublishItem))
  : Prop :=
  NoDup (map fst q)
  /\ Forall (fun e => BulkPublisher.id (snd e) = fst e) q.

(** [retryFailedItems] retries [c]: it failed and has retries left. *)
Definition retriable (maxRetries : Z) (c : BulkPublisher.BulkPublishItem)
  : bool :=
  Publishing.Status_eqb (BulkPublisher.status c) Publishing.failed
  && (BulkPublisher.retry_count c <? maxRetries).

(** One failed item, never retried, in a publisher with the default
    configuration. *)
Definition one_failed_item : BulkPublisher.Bulk :=
  BulkPublisher.with_items
    [("a"%string,
      BulkPublisher.mkItem "a" sample_content ["ghost"%string]
        Publishing.medium Publishing.failed None None None 1 1)]
    (BulkPublisher.new_BulkPublisher
       (BulkPublisher.mkConfig ["ghost"%string] None None None None None None
          None)).

(** *** Tester: issues against the score *)

(** Every issue recorded so far has cost at least 5 points of the 100. *)
Definition scored (acc : list ContentTester.ContentIssue * Z) : Prop :=
  snd acc + 5 * ContentTester.len (fst acc) <= 100
  /\ (fst acc = [] -> snd acc = 100).

(** The issue [i] is recorded and the points are down to [bound] or less. *)
Definition marked_down (i : ContentTester.ContentIssue) (bound : Z)
    (acc : list ContentTester.ContentIssue * Z) : Prop :=
  In i (fst acc) /\ snd acc <= bound.

(** A title of 101 characters. *)
Definition long_title : string :=
  "aaaaaaaaaaaaaaaaaaaaaaaaaaaaaaaaaaaaaaaaaaaaaaaaaaaaaaaaaaaaaaaaaaaaaaaaaaaaaaaaaaaaaaaaaaaaaaaaaaaaa".

Definition long_titled : ContentTester.AIContent :=
  ContentTester.mkContent "article" long_title "Some text" None None None
    None [].

(** *** What holds of a breaker between two calls *)

Definition breaker_inv
    (st : RetryHandler.CircuitBreaker * RetryHandler.World) : Prop :=
  let (b, w) := st in
  1 <= RetryHandler.threshold b
  /\ 0 <= RetryHandler.failureCount b
  /\ (RetryHandler.state b = RetryHandler.OPEN <->
      RetryHandler.threshold b <= RetryHandler.failureCount b)
  /\ (RetryHandler.state b = RetryHandler.HALF_OPEN ->
      1 <= RetryHandler.successCount b <= 2)
  /\ RetryHandler.lastFailureTime b <= RetryHandler.clock w.

(** A handler whose breaker for the key "api" is closed, one failure short
    of its threshold of 3. *)
Definition api_nearly_open : RetryHandler.Handler :=
  RetryHandler.mkHandler
    (<["api"%string :=
         RetryHandler.mkBreaker RetryHandler.CLOSED 2 0 0 3 30000]>
       (∅ : gmap string RetryHandler.CircuitBreaker))
    RetryHandler.DEFAULT_RETRY_CONFIGS_api.

(** Identifiers that differ from each other: the [i]-th is ["n"] behind
    [i] times ["x"]. *)
Fixpoint numbered (i : nat) : string :=
  match i with
  | O => "n"
  | S j => String "x" (numbered j)
  end.

(** The item under [k] has been through a publish: it is published or
    failed. *)
Definition item_done (s : BulkPublisher.Bulk) (k : string) : Prop :=
  exists c,
    JsMap.get k (BulkPublisher.items s) = Some c
    /\ (BulkPublisher.status c = Publishing.published
        \/ BulkPublisher.status c = Publishing.failed).

Definition item_held (s : BulkPublisher.Bulk) (k : string) : Prop :=
  JsMap.get k (BulkPublisher.items s) <> None.

(** *** Spreading an update over an item *)

(** The value of a property after [{ ...item, ...updates }]: the one the
    updates carry, or else the item's. *)
Definition spread {A} (carried : option A) (old : A) : A :=
  match carried with
  | Some x => x
  | None => old
  end.

(** The same for a property the item may lack. *)
Definition spread_opt {A} (carried : option A) (old : option A) : option A :=
  match carried with
  | Some x => Some x
  | None => old
  end.
(** * Properties *)

(** ** Circuit breaker *)

Section BreakerFacts.
Import RetryHandler.
Context {T : Type}.
Implicit Types (b : CircuitBreaker) (w : World) (op : Operation T).

Lemma invoke_invoked op w :
  invoked (snd (invoke op w)) = S (invoked w).
Proof. reflexivity. Qed.

Lemma invoke_trace op w :
  trace (snd (invoke op w)) = trace w ++ [EvInvoke (invoked w)].
Proof. reflexivity. Qed.

Lemma invoke_result op w :
  fst (invoke op w) = op_result (op (invoked w) (clock w)).
Proof. reflexivity. Qed.

(** A breaker that is not open lets the call through unchanged. *)
Lemma execute_gate_not_open now b :
  state b <> OPEN -> execute_gate now b = Some b.
Proof.
  unfold execute_gate. destruct (state b); simpl; congruence.
Qed.

Lemma execute_gate_open_early now b :
  state b = OPEN -> now - lastFailureTime b < resetTimeMs b ->
  execute_gate now b = None.
Proof.
  intros Hs Hlt. unfold execute_gate. rewrite Hs. simpl.
  destruct (Z.ltb_spec (now - lastFailureTime b) (resetTimeMs b));
    [reflexivity | lia].
Qed.

Lemma execute_gate_open_late now b :
  state b = OPEN -> resetTimeMs b <= now - lastFailureTime b ->
  execute_gate now b = Some (set_successCount 0 (set_state HALF_OPEN b)).
Proof.
  intros Hs Hge. unfold execute_gate. rewrite Hs. simpl.
  destruct (Z.ltb_spec (now - lastFailureTime b) (resetTimeMs b));
    [lia | reflexivity].
Qed.

(** What [execute] does once the gate has let the call through. *)
Lemma execute_through b b1 op w :
  execute_gate (clock w) b = Some b1 ->
  execute b op w =
    (fst (invoke op w),
     match fst (invoke op w) with
     | Resolved _ => onSuccess b1
     | Rejected _ => onFailure (clock (snd (invoke op w))) b1
     end,
     snd (invoke op w)).
Proof.
  intros Hg. unfold execute. rewrite Hg.
  destruct (invoke op w) as [r w1]. simpl. destruct r; reflexivity.
Qed.

(** A failure in the half-open state re-opens the breaker exactly when the
    failure count reaches the threshold. *)
Lemma onFailure_half_open now b :
  state b = HALF_OPEN ->
  state (onFailure now b) =
    if failureCount b + 1 >=? threshold b then OPEN else HALF_OPEN.
Proof.
  intros Hs. unfold onFailure. simpl.
  destruct (failureCount b + 1 >=? threshold b); simpl; congruence.
Qed.

Lemma onFailure_reopens_first_probe now b :
  state b = HALF_OPEN -> threshold b <= failureCount b + 1 ->
  state (onFailure now b) = OPEN.
Proof.
  intros Hs Hth. rewrite onFailure_half_open by assumption.
  destruct (Z.geb_spec (failureCount b + 1) (threshold b)); [reflexivity | lia].
Qed.

Lemma newCircuitBreaker_opened_by_failures th rt :
  opened_by_failures (newCircuitBreaker th rt).
Proof. unfold opened_by_failures. simpl. discriminate. Qed.

Lemma execute_gate_passes now b b1 :
  execute_gate now b = Some b1 ->
  state b1 <> OPEN /\ failureCount b1 = failureCount b
  /\ threshold b1 = threshold b.
Proof.
  unfold execute_gate. destruct (state b) eqn:Es; simpl.
  - intros H. injection H as <-. rewrite Es. repeat split. discriminate.
  - destruct (now - lastFailureTime b <? resetTimeMs b); [discriminate |].
    intros H. injection H as <-. simpl. repeat split. discriminate.
  - intros H. injection H as <-. rewrite Es. repeat split. discriminate.
Qed.

Lemma onFailure_opened_by_failures now b :
  state b <> OPEN -> opened_by_failures (onFailure now b).
Proof.
  intros Hs. unfold opened_by_failures, onFailure. simpl.
  destruct (Z.geb_spec (failureCount b + 1) (threshold b)); simpl;
    [intros; lia | intros; contradiction].
Qed.

Lemma onSuccess_not_open b : state b <> OPEN -> state (onSuccess b) <> OPEN.
Proof.
  intros Hs. unfold onSuccess. simpl.
  destruct (state b) eqn:Es; simpl; try congruence.
  destruct (successCount b + 1 >=? 3); simpl; congruence.
Qed.

(** [execute] keeps that invariant. *)
Lemma execute_opened_by_failures b op w :
  opened_by_failures b ->
  opened_by_failures (snd (fst (execute b op w))).
Proof.
  intros Hb. unfold execute.
  destruct (execute_gate (clock w) b) as [b1|] eqn:Eg; [| exact Hb].
  destruct (execute_gate_passes _ _ _ Eg) as (Hs & _ & _).
  destruct (invoke op w) as [[v|e] w1]; simpl.
  - intros Ho. exfalso. exact (onSuccess_not_open b1 Hs Ho).
  - apply onFailure_opened_by_failures. exact Hs.
Qed.

(** The first call let through after the reset time re-opens the breaker
    when it fails: the failure count is still where it was. *)
Lemma first_probe_failure_reopens b op w e :
  opened_by_failures b -> state b = OPEN ->
  resetTimeMs b <= clock w - lastFailureTime b ->
  op_result (op (invoked w) (clock w)) = Rejected e ->
  state (snd (fst (execute b op w))) = OPEN.
Proof.
  intros Hb Hs Hlate Hop.
  rewrite (execute_through _ _ op w (execute_gate_open_late _ _ Hs Hlate)).
  rewrite invoke_result, Hop. simpl.
  apply onFailure_reopens_first_probe; [reflexivity |]. simpl.
  specialize (Hb Hs). lia.
Qed.

End BreakerFacts.

(** C1 (the code departs from the specification).  The breaker of the
    scenario is half-open with one success counted; a failed call made then
    leaves it half-open with a failure count of 1, where the specification
    asks for the open state.  In general a failure re-opens a half-open
    breaker only when the failure count, which every success resets to 0,
    reaches the threshold again. *)
Theorem C1_failure_after_half_open_success_does_not_reopen :
  (RetryHandler.state (fst half_open_after_one_success)
   = RetryHandler.HALF_OPEN
   /\ RetryHandler.successCount (fst half_open_after_one_success) = 1
   /\ RetryHandler.state
        (fst (call_after 0 failing_op half_open_after_one_success))
      = RetryHandler.HALF_OPEN
   /\ RetryHandler.failureCount
        (fst (call_after 0 failing_op half_open_after_one_success)) = 1
   /\ RetryHandler.invoked
        (snd (call_after 0 failing_op half_open_after_one_success)) = 5%nat)
  /\ (forall b now,
        RetryHandler.state b = RetryHandler.HALF_OPEN ->
        RetryHandler.failureCount b + 1 < RetryHandler.threshold b ->
        RetryHandler.state (RetryHandler.onFailure now b)
        = RetryHandler.HALF_OPEN).
Proof.
  split; [vm_compute; repeat split; reflexivity |].
  intros b now Hs Hlt. rewrite onFailure_half_open by assumption.
  destruct (Z.geb_spec (RetryHandler.failureCount b + 1)
              (RetryHandler.threshold b)); [lia | reflexivity].
Qed.

(** C3.  While the breaker is open and less than [resetTimeMs] has passed
    since [lastFailureTime], a call is rejected with the breaker-open error,
    the operation is not invoked and nothing changes, so that the next call
    meets the same breaker; once [resetTimeMs] has passed, the call turns
    the breaker half-open, invokes the operation once, and the result of the
    operation decides what becomes of the half-open breaker (it is still
    half-open after a success). *)
Theorem C3_open_breaker_gates_calls {T : Type}
    (b : RetryHandler.CircuitBreaker) (op : RetryHandler.Operation T)
    (w : RetryHandler.World) :
  RetryHandler.state b = RetryHandler.OPEN ->
  (RetryHandler.clock w - RetryHandler.lastFailureTime b
     < RetryHandler.resetTimeMs b ->
   RetryHandler.execute b op w
   = (RetryHandler.Rejected RetryHandler.breaker_open_error, b, w))
  /\ (RetryHandler.resetTimeMs b
        <= RetryHandler.clock w - RetryHandler.lastFailureTime b ->
      exists b1,
        RetryHandler.execute_gate (RetryHandler.clock w) b = Some b1
        /\ RetryHandler.state b1 = RetryHandler.HALF_OPEN
        /\ RetryHandler.successCount b1 = 0
        /\ let '(r, b2, w2) := RetryHandler.execute b op w in
           RetryHandler.invoked w2 = S (RetryHandler.invoked w)
           /\ RetryHandler.trace w2
              = RetryHandler.trace w
                  ++ [RetryHandler.EvInvoke (RetryHandler.invoked w)]
           /\ r = RetryHandler.op_result
                    (op (RetryHandler.invoked w) (RetryHandler.clock w))
           /\ b2 = match r with
                   | RetryHandler.Resolved _ => RetryHandler.onSuccess b1
                   | RetryHandler.Rejected _ =>
                       RetryHandler.onFailure (RetryHandler.clock w2) b1
                   end
           /\ (forall v, r = RetryHandler.Resolved v ->
               RetryHandler.state b2 = RetryHandler.HALF_OPEN)).
Proof.
  intros Hopen. split.
  - intros Hearly. unfold RetryHandler.execute.
    rewrite (execute_gate_open_early _ _ Hopen Hearly). reflexivity.
  - intros Hlate.
    exists (RetryHandler.set_successCount 0
              (RetryHandler.set_state RetryHandler.HALF_OPEN b)).
    pose proof (execute_gate_open_late _ _ Hopen Hlate) as Hg.
    split; [exact Hg |]. split; [reflexivity |]. split; [reflexivity |].
    rewrite (execute_through _ _ op w Hg).
    repeat split.
    intros v Hv. rewrite Hv. reflexivity.
Qed.

Lemma C3_open_breaker_gates_calls_witness :
  let b := RetryHandler.mkBreaker RetryHandler.OPEN 3 5000 0 3 1000 in
  RetryHandler.execute b succeeding_op (RetryHandler.mkWorld 5999 0 0 [])
  = (RetryHandler.Rejected RetryHandler.breaker_open_error, b,
     RetryHandler.mkWorld 5999 0 0 []).
Proof.
  intros b.
  apply (proj1 (C3_open_breaker_gates_calls b succeeding_op
                  (RetryHandler.mkWorld 5999 0 0 []) eq_refl)).
  vm_compute. reflexivity.
Defined.

(** ** Retry loop *)

Lemma app_split_notin {A} (x : A) (l1 rest pre post : list A) :
  ~ In x l1 -> l1 ++ rest = pre ++ x :: post ->
  exists mid, pre = l1 ++ mid /\ rest = mid ++ x :: post.
Proof.
  revert pre. induction l1 as [|y l1 IH]; intros pre Hn Heq; simpl in *.
  - exists pre. split; [reflexivity | assumption].
  - destruct pre as [|z pre]; simpl in *.
    + injection Heq as Hy _. exfalso. apply Hn. left. assumption.
    + injection Heq as Hy Heq. subst z.
      destruct (IH pre) as (mid & Hp & Hr); [tauto | assumption |].
      exists mid. subst pre. split; [reflexivity | assumption].
Qed.

Section RetryLoopFacts.
Import RetryHandler.
Variable random : nat -> Q.
Context {T : Type}.
Variable op : Operation T.
Variable cfg : RetryConfig.

Lemma calculateDelay_value a w :
  fst (calculateDelay random a cfg w) = delay_value random cfg a (drawn w).
Proof.
  unfold delay_value, calculateDelay. simpl.
  destruct (jitter_on cfg); reflexivity.
Qed.

Lemma calculateDelay_world a w :
  let w1 := snd (calculateDelay random a cfg w) in
  clock w1 = clock w /\ invoked w1 = invoked w /\ trace w1 = trace w.
Proof.
  unfold calculateDelay. destruct (jitter_on cfg); simpl; auto.
Qed.

Lemma attempt_once_events cb w0 res cb1 w1 :
  attempt_once op cb w0 = (res, cb1, w1) ->
  exists inv,
    invocation_part inv /\ trace w1 = trace w0 ++ inv
    /\ invoked w1 = (invoked w0 + List.length inv)%nat.
Proof.
  unfold attempt_once. destruct cb as [b|].
  - unfold execute. destruct (execute_gate (clock w0) b) as [b1|].
    + destruct (invoke op w0) as [r w2] eqn:E.
      assert (Hw : w2 = snd (invoke op w0)) by (rewrite E; reflexivity).
      destruct r; intros H; injection H as _ _ <-;
        (exists [EvInvoke (invoked w0)]; subst w2; simpl;
         split; [right; eauto | split; [reflexivity | lia]]).
    + intros H. injection H as _ _ <-. exists []. simpl.
      split; [left; reflexivity | split; [symmetry; apply app_nil_r | lia]].
  - destruct (invoke op w0) as [r w2] eqn:E.
    assert (Hw : w2 = snd (invoke op w0)) by (rewrite E; reflexivity).
    intros H. injection H as _ _ <-.
    exists [EvInvoke (invoked w0)]. subst w2. simpl.
    split; [right; eauto | split; [reflexivity | lia]].
Qed.

(** The events a run of the loop appends to the trace, when the loop is
    entered with its condition true. *)
Lemma retry_loop_shape remaining : forall a cb le w,
  Z.of_nat remaining = maxRetries cfg + 2 - a -> remaining <> O ->
  exists evs,
    trace (x_world (retry_loop random op cfg remaining a cb le w))
    = trace w ++ evs
    /\ Shape random cfg a evs.
Proof.
  induction remaining as [|r IH]; intros a cb le w Hrem Hnz; simpl.
  - congruence.
  - destruct (attempt_once op cb (log (EvStart a) w)) as [[res cb1] w1] eqn:E.
    destruct (attempt_once_events _ _ _ _ _ E) as (inv & Hinv & Htr & _).
    simpl in Htr.
    destruct res as [v|e].
    + exists (EvStart a :: inv ++ [EvEnd a Succeeded]). simpl. rewrite Htr.
      split.
      * rewrite <- !app_assoc. reflexivity.
      * apply Shape_final; [assumption | left; reflexivity].
    + destruct (isRetryableError e cfg) eqn:R; simpl.
      * destruct (Z.gtb_spec a (maxRetries cfg)) as [G|G].
        -- exists (EvStart a :: inv ++ [EvEnd a (Failed e)]). simpl.
           rewrite Htr. split.
           ++ rewrite <- !app_assoc. reflexivity.
           ++ apply Shape_final; [assumption | right; eauto].
        -- destruct (calculateDelay random a cfg (log (EvEnd a (Failed e)) w1))
             as [d w3] eqn:D.
           pose proof (calculateDelay_value a (log (EvEnd a (Failed e)) w1))
             as Hd.
           pose proof (calculateDelay_world a (log (EvEnd a (Failed e)) w1))
             as (_ & _ & Hw3).
           rewrite D in Hd, Hw3. simpl in Hd, Hw3.
           destruct (IH (a + 1) cb1 (Some e) (sleep d w3)) as (evs & Ht & Hs);
             [lia | lia |].
           exists (EvStart a :: inv
                     ++ [EvEnd a (Failed e);
                         EvSleep (delay_value random cfg a (drawn w1))]
                     ++ evs).
           split.
           ++ rewrite Ht. simpl. rewrite Hw3, Htr, Hd.
              rewrite <- !app_assoc. reflexivity.
           ++ apply Shape_retry; assumption.
      * exists (EvStart a :: inv ++ [EvEnd a (Failed e)]). simpl. rewrite Htr.
        split.
        -- rewrite <- !app_assoc. reflexivity.
        -- apply Shape_final; [assumption | right; eauto].
Qed.

Lemma invocation_part_no_start inv n :
  invocation_part inv -> ~ In (EvStart n) inv.
Proof. intros [-> | [k ->]]; simpl; intuition discriminate. Qed.

Lemma invocation_part_no_end inv n r :
  invocation_part inv -> ~ In (EvEnd n r) inv.
Proof. intros [-> | [k ->]]; simpl; intuition discriminate. Qed.

Lemma invocation_part_no_sleep inv d :
  invocation_part inv -> ~ In (EvSleep d) inv.
Proof. intros [-> | [k ->]]; simpl; intuition discriminate. Qed.

(** Where an attempt starts: at the head of the events, or right after the
    sleep computed from the attempt before it. *)
Lemma shape_start a evs :
  Shape random cfg a evs ->
  forall pre n post, evs = pre ++ EvStart n :: post ->
  (n = a /\ pre = [])
  \/ (a < n /\ exists pre1 k,
        pre = pre1 ++ [EvSleep (delay_value random cfg (n - 1) k)]).
Proof.
  induction 1 as [a inv r Hinv Hr | a inv e k rest Hinv He Ha Hs IH];
    intros pre n post Heq.
  - destruct pre as [|x pre]; simpl in Heq.
    + injection Heq as <- _. left. split; reflexivity.
    + injection Heq as _ Heq. exfalso.
      destruct (app_split_notin _ _ _ _ _
                  (invocation_part_no_start inv n Hinv) Heq)
        as (mid & _ & Hm).
      destruct mid as [|? [|? ?]]; discriminate.
  - destruct pre as [|x pre]; simpl in Heq.
    + injection Heq as <- _. left. split; reflexivity.
    + injection Heq as <- Heq. right.
      destruct (app_split_notin _ _ _ _ _
                  (invocation_part_no_start inv n Hinv) Heq)
        as (mid & Hp & Hm).
      destruct mid as [|y [|z mid]]; try discriminate.
      simpl in Hm. injection Hm as <- <- Hm.
      destruct (IH _ _ _ Hm) as [[-> ->] | (Hlt & pre1 & k1 & ->)].
      * split; [lia |].
        exists (EvStart a :: inv ++ [EvEnd a (Failed e)]), k.
        subst pre. simpl. rewrite <- app_assoc. simpl.
        replace (a + 1 - 1) with a by lia. reflexivity.
      * split; [lia |].
        exists (EvStart a :: inv
                  ++ [EvEnd a (Failed e); EvSleep (delay_value random cfg a k)]
                  ++ pre1), k1.
        subst pre. simpl. rewrite <- !app_assoc. reflexivity.
Qed.

(** A failed attempt is followed by anything only when its error was
    retryable and a retry was left. *)
Lemma shape_retry_only_retryable a evs :
  Shape random cfg a evs ->
  forall pre n e post, evs = pre ++ EvEnd n (Failed e) :: post ->
  post <> [] ->
  isRetryableError e cfg = true /\ n <= maxRetries cfg.
Proof.
  induction 1 as [a inv r Hinv Hr | a inv e0 k rest Hinv He Ha Hs IH];
    intros pre n e post Heq Hpost.
  - destruct pre as [|x pre]; simpl in Heq; [discriminate |].
    injection Heq as _ Heq. exfalso.
    destruct (app_split_notin _ _ _ _ _
                (invocation_part_no_end inv n (Failed e) Hinv) Heq)
      as (mid & _ & Hm).
    destruct mid as [|? [|? ?]]; try discriminate.
    injection Hm as _ Hm. apply Hpost. symmetry. assumption.
  - destruct pre as [|x pre]; simpl in Heq; [discriminate |].
    injection Heq as _ Heq.
    destruct (app_split_notin _ _ _ _ _
                (invocation_part_no_end inv n (Failed e) Hinv) Heq)
      as (mid & _ & Hm).
    destruct mid as [|y [|z mid]]; simpl in Hm.
    + injection Hm as <- <- _. split; assumption.
    + discriminate.
    + injection Hm as _ _ Hm. eapply IH; eassumption.
Qed.

Lemma shape_head a evs :
  Shape random cfg a evs -> exists post, evs = EvStart a :: post.
Proof. destruct 1; eauto. Qed.

(** A sleep is always followed by the start of the next attempt. *)
Lemma shape_sleep_then_start a evs :
  Shape random cfg a evs ->
  forall pre d post, evs = pre ++ EvSleep d :: post ->
  exists n post1, post = EvStart n :: post1.
Proof.
  induction 1 as [a inv r Hinv Hr | a inv e0 k rest Hinv He Ha Hs IH];
    intros pre d post Heq.
  - destruct pre as [|x pre]; simpl in Heq; [discriminate |].
    injection Heq as _ Heq. exfalso.
    destruct (app_split_notin _ _ _ _ _
                (invocation_part_no_sleep inv d Hinv) Heq)
      as (mid & _ & Hm).
    destruct mid as [|? [|? ?]]; discriminate.
  - destruct pre as [|x pre]; simpl in Heq; [discriminate |].
    injection Heq as _ Heq.
    destruct (app_split_notin _ _ _ _ _
                (invocation_part_no_sleep inv d Hinv) Heq)
      as (mid & _ & Hm).
    destruct mid as [|y [|z mid]]; simpl in Hm.
    + discriminate.
    + injection Hm as _ _ Hm. subst post.
      destruct (shape_head _ _ Hs) as (post1 & ->). eauto.
    + injection Hm as _ _ Hm. eapply IH; eassumption.
Qed.








End RetryLoopFacts.

Section ExecuteWithRetryFacts.
Import RetryHandler.
Variable random : nat -> Q.
Context {T : Type}.
Variable op : Operation T.

(** [executeWithRetry] in terms of the run of its loop. *)
Lemma executeWithRetry_unfold h config key w :
  let cfg := mergeConfig (defaultConfig h) config in
  let x := retry_loop random op cfg (Z.to_nat (maxRetries cfg + 1)) 1
             (breaker_for h cfg key) None w in
  let res := executeWithRetry random op h config key w in
  attempts (fst (fst res)) = x_attempts x
  /\ data (fst (fst res)) = x_data x
  /\ success (fst (fst res))
     = match x_data x with Some _ => true | None => false end
  /\ (x_data x = None -> error (fst (fst res)) = x_lastError x)
  /\ snd res = x_world x.
Proof.
  unfold executeWithRetry. cbv zeta.
  destruct (x_data (retry_loop random op _ _ 1 _ None w)) eqn:E; simpl;
    rewrite ?E; repeat split; try reflexivity; congruence.
Qed.

End ExecuteWithRetryFacts.




(** The delay computed after attempt [n - 1]: the backoff plus a jitter
    within the bound, capped at [maxDelayMs]. *)
Lemma delay_value_spec (random : nat -> Q) (cfg : RetryHandler.RetryConfig)
    (n : Z) (k : nat) :
  (forall i, 0 <= random i /\ random i < 1)%Q ->
  (forall j, RetryHandler.jitterMs cfg = Some j -> 0 <= j)%Q ->
  exists jitter : Q,
    (0 <= jitter /\ jitter <= jitter_bound cfg)%Q
    /\ (delay_value random cfg (n - 1) k
        == Qmin (backoff cfg n + jitter) (RetryHandler.maxDelayMs cfg))%Q
    /\ (delay_value random cfg (n - 1) k <= RetryHandler.maxDelayMs cfg)%Q.
Proof.
  intros Hrand Hjit.
  unfold delay_value, RetryHandler.calculateDelay, backoff, jitter_bound,
    RetryHandler.jitter_on.
  replace (n - 1 - 1) with (n - 2) by lia. simpl.
  destruct (RetryHandler.jitterMs cfg) as [j|] eqn:Ej.
  - specialize (Hjit j eq_refl).
    destruct (Qeq_bool j 0) eqn:Ez; simpl.
    + exists 0%Q. split; [split; [apply Qle_refl | exact Hjit] |].
      split; [| apply Q.le_min_r].
      apply Q.min_compat; [| reflexivity]. symmetry. apply Qplus_0_r.
    + exists (random k * j)%Q. destruct (Hrand k) as [H0 H1].
      split; [split; nra |]. split; [reflexivity | apply Q.le_min_r].
  - exists 0%Q. simpl. split; [split; apply Qle_refl |].
    split; [| apply Q.le_min_r].
    apply Q.min_compat; [| reflexivity]. symmetry. apply Qplus_0_r.
Qed.

(** C7.  In a run of [executeWithRetry], the first attempt starts at once;
    every later attempt [n >= 2] starts right after a sleep of
    [min (backoff + jitter, maxDelayMs)] milliseconds, where the backoff is
    [min (baseDelayMs * 2^(n-2), maxDelayMs)] with exponential backoff and
    [baseDelayMs] without, and the jitter is [Math.random () * jitterMs], a
    value between 0 and [jitterMs] (0 when no jitter is configured); no
    other sleep occurs.  [Math.random ()] is any value in [0, 1): its
    distribution is not part of the statement. *)
Theorem C7_backoff_delay_before_each_retry (random : nat -> Q) {T : Type}
    (op : RetryHandler.Operation T) (h : RetryHandler.Handler)
    (config : option RetryHandler.PartialRetryConfig) (key : option string)
    (w : RetryHandler.World) :
  let cfg := RetryHandler.mergeConfig (RetryHandler.defaultConfig h) config in
  let w1 := snd (RetryHandler.executeWithRetry random op h config key w) in
  (forall i, 0 <= random i /\ random i < 1)%Q ->
  (forall j, RetryHandler.jitterMs cfg = Some j -> 0 <= j)%Q ->
  exists evs,
    RetryHandler.trace w1 = RetryHandler.trace w ++ evs
    /\ (forall pre n post,
          evs = pre ++ RetryHandler.EvStart n :: post ->
          (n = 1 /\ pre = [])
          \/ (2 <= n
              /\ exists pre1 d jitter,
                   pre = pre1 ++ [RetryHandler.EvSleep d]
                   /\ (0 <= jitter /\ jitter <= jitter_bound cfg)%Q
                   /\ (d == Qmin (backoff cfg n + jitter)
                             (RetryHandler.maxDelayMs cfg))%Q
                   /\ (d <= RetryHandler.maxDelayMs cfg)%Q))
    /\ (forall pre d post,
          evs = pre ++ RetryHandler.EvSleep d :: post ->
          exists n post1, post = RetryHandler.EvStart n :: post1).
Proof.
  intros cfg w1 Hrand Hjit.
  destruct (executeWithRetry_unfold random op h config key w)
    as (_ & _ & _ & _ & Hworld).
  fold cfg in Hworld. fold w1 in Hworld. rewrite Hworld.
  destruct (Z.to_nat (RetryHandler.maxRetries cfg + 1)) as [|r] eqn:Er.
  - exists []. simpl. split; [symmetry; apply app_nil_r |].
    split; intros pre ? post Heq; destruct pre; discriminate.
  - destruct (retry_loop_shape random op cfg (S r) 1
                (RetryHandler.breaker_for h cfg key) None w)
      as (evs & Htr & Hshape); [lia | discriminate |].
    exists evs. split; [exact Htr |]. split.
    + intros pre n post Heq.
      destruct (shape_start _ _ _ _ Hshape _ _ _ Heq)
        as [[-> ->] | (Hlt & pre1 & k & ->)]; [left; split; reflexivity |].
      right. split; [lia |].
      destruct (delay_value_spec random cfg n k Hrand Hjit)
        as (jitter & Hj & Hd & Hcap).
      exists pre1, (delay_value random cfg (n - 1) k), jitter.
      repeat split; try assumption; apply Hj.
    + intros pre d post. apply (shape_sleep_then_start _ _ _ _ Hshape).
Qed.

Lemma C7_backoff_delay_before_each_retry_witness :
  exists evs,
    RetryHandler.trace
      (snd (RetryHandler.executeWithRetry half fails_twice_then_succeeds
              api_handler None None fresh_world))
    = RetryHandler.trace fresh_world ++ evs
    /\ In (RetryHandler.EvSleep (5000 # 2)) evs.
Proof.
  assert (Hrand : forall i : nat, (0 <= half i /\ half i < 1)%Q)
    by (intros i; split; vm_compute; congruence).
  assert (Hjit : forall j,
             RetryHandler.jitterMs
               (RetryHandler.mergeConfig
                  (RetryHandler.defaultConfig api_handler) None) = Some j ->
             (0 <= j)%Q)
    by (intros j Hj; injection Hj as <-; vm_compute; congruence).
  destruct (C7_backoff_delay_before_each_retry half fails_twice_then_succeeds
              api_handler None None fresh_world Hrand Hjit)
    as (evs & Htr & _).
  exists evs. split; [exact Htr |].
  vm_compute in Htr. subst evs. simpl. tauto.
Defined.

(** The events of a whole run of [executeWithRetry]. *)
Lemma executeWithRetry_events (random : nat -> Q) {T : Type}
    (op : RetryHandler.Operation T) (h : RetryHandler.Handler)
    (config : option RetryHandler.PartialRetryConfig) (key : option string)
    (w : RetryHandler.World) :
  let cfg := RetryHandler.mergeConfig (RetryHandler.defaultConfig h) config in
  exists evs,
    RetryHandler.trace
      (snd (RetryHandler.executeWithRetry random op h config key w))
    = RetryHandler.trace w ++ evs
    /\ (evs = [] \/ Shape random cfg 1 evs).
Proof.
  intros cfg.
  destruct (executeWithRetry_unfold random op h config key w)
    as (_ & _ & _ & _ & Hworld).
  fold cfg in Hworld. rewrite Hworld.
  destruct (Z.to_nat (RetryHandler.maxRetries cfg + 1)) as [|r] eqn:Er.
  - exists []. simpl. split; [symmetry; apply app_nil_r | left; reflexivity].
  - destruct (retry_loop_shape random op cfg (S r) 1
                (RetryHandler.breaker_for h cfg key) None w)
      as (evs & Htr & Hshape); [lia | discriminate |].
    exists evs. split; [exact Htr | right; exact Hshape].
Qed.

(** C4 (counterexample).  Three errors with status 401, all classified
    [authentication], are retried until the budget is used up: one whose
    message contains "connection", one matched by the custom substring
    "unauthorized", and one [RetryableError] left at its default
    [isRetryable = true]. *)
Lemma C4_counterexample_401_retried :
  let api := RetryHandler.DEFAULT_RETRY_CONFIGS_api in
  let run e config :=
    fst (fst (RetryHandler.executeWithRetry half (always_failing_with e)
                api_handler config None fresh_world)) in
  (RetryHandler.status_of unauthorized_connection = Some 401
   /\ RetryHandler.categorizeError unauthorized_connection
      = RetryHandler.AUTHENTICATION
   /\ RetryHandler.isRetryableError unauthorized_connection api = true
   /\ RetryHandler.attempts (run unauthorized_connection None) = 3)
  /\ (RetryHandler.status_of unauthorized_plain = Some 401
      /\ RetryHandler.categorizeError unauthorized_plain
         = RetryHandler.AUTHENTICATION
      /\ RetryHandler.attempts
           (run unauthorized_plain (Some custom_unauthorized)) = 3)
  /\ (RetryHandler.status_of unauthorized_marked = Some 401
      /\ RetryHandler.categorizeError unauthorized_marked
         = RetryHandler.AUTHENTICATION
      /\ RetryHandler.attempts (run unauthorized_marked None) = 3).
Proof. vm_compute. repeat split; reflexivity. Qed.

(** C4 (amended).  An error whose status is 401 or 403 is classified
    [authentication], and one with another 4xx status except 429 is
    classified [client].  [executeWithRetry] does not retry an error with a
    4xx status other than 408 and 429 provided the error is not a
    [RetryableError] instance and its message matches neither the built-in
    network words nor the custom retryable substrings: the failed attempt
    is then the last event of the run.  For a [RetryableError] instance the
    [isRetryable] flag alone decides. *)
Theorem C4_auth_and_client_errors (e : RetryHandler.JsError) (s : Z) :
  RetryHandler.status_of e = Some s ->
  400 <= s < 500 ->
  ((s = 401 \/ s = 403) ->
   RetryHandler.categorizeError e = RetryHandler.AUTHENTICATION)
  /\ (s <> 401 -> s <> 403 -> s <> 429 ->
      RetryHandler.categorizeError e = RetryHandler.CLIENT)
  /\ (forall m ty flag sc cfg,
        e = RetryHandler.RetryableError m ty flag sc ->
        RetryHandler.isRetryableError e cfg = flag)
  /\ (forall cfg m rs sc,
        e = RetryHandler.PlainError m rs sc ->
        s <> 408 -> s <> 429 -> message_unmatched e cfg ->
        RetryHandler.isRetryableError e cfg = false)
  /\ (forall (random : nat -> Q) (T : Type) (op : RetryHandler.Operation T)
        h config key w evs pre n post,
        RetryHandler.isRetryableError e
          (RetryHandler.mergeConfig (RetryHandler.defaultConfig h) config)
        = false ->
        RetryHandler.trace
          (snd (RetryHandler.executeWithRetry random op h config key w))
        = RetryHandler.trace w ++ evs ->
        evs = pre ++ RetryHandler.EvEnd n (RetryHandler.Failed e) :: post ->
        post = []).
Proof.
  intros Hs Hr.
  split; [| split; [| split; [| split]]].
  - intros H401. unfold RetryHandler.categorizeError. rewrite Hs. simpl.
    destruct H401 as [-> | ->]; reflexivity.
  - intros H1 H3 H9. unfold RetryHandler.categorizeError. rewrite Hs. simpl.
    destruct (Z.eqb_spec s 401); [lia |].
    destruct (Z.eqb_spec s 403); [lia |].
    destruct (Z.eqb_spec s 429); [lia |]. simpl.
    destruct (Z.geb_spec s 400); [| lia].
    destruct (Z.ltb_spec s 500); [| lia]. reflexivity.
  - intros m ty flag sc cfg ->. reflexivity.
  - intros cfg m rs sc He H8 H9 [Hw Hc]. subst e.
    unfold RetryHandler.isRetryableError. rewrite Hw, Hs.
    replace (existsb (Z.eqb s) RetryHandler.retryableStatusCodes) with false.
    + destruct (RetryHandler.retryableErrors cfg) as [l|]; [| reflexivity].
      apply Hc. reflexivity.
    + simpl. repeat match goal with
                    | |- context [Z.eqb s ?c] =>
                        destruct (Z.eqb_spec s c); [lia |]
                    end. reflexivity.
  - intros random T op h config key w evs pre n post Hnr Htr Heq.
    destruct (executeWithRetry_events random op h config key w)
      as (evs1 & Htr1 & Hsh).
    rewrite Htr in Htr1. apply app_inv_head in Htr1. subst evs1.
    destruct Hsh as [-> | Hsh]; [destruct pre; discriminate |].
    destruct post as [|x post]; [reflexivity | exfalso].
    destruct (shape_retry_only_retryable _ _ _ _ Hsh _ _ _ _ Heq) as [Ht _];
      [discriminate | congruence].
Qed.

Lemma C4_auth_and_client_errors_witness :
  RetryHandler.categorizeError unauthorized_plain = RetryHandler.AUTHENTICATION
  /\ RetryHandler.isRetryableError unauthorized_plain
       RetryHandler.DEFAULT_RETRY_CONFIGS_api = false.
Proof.
  assert (Hs : RetryHandler.status_of unauthorized_plain = Some 401)
    by reflexivity.
  assert (Hr : 400 <= 401 < 500) by lia.
  destruct (C4_auth_and_client_errors unauthorized_plain 401 Hs Hr)
    as (Ha & _ & _ & Hn & _).
  split; [apply Ha; left; reflexivity |].
  eapply Hn; [reflexivity | lia | lia |].
  split; [vm_compute; reflexivity | intros l Hl; discriminate].
Defined.

(** ** The stable sort *)

Lemma StronglySorted_filter {A} (R : A -> A -> Prop) (p : A -> bool) l :
  StronglySorted R l -> StronglySorted R (filter p l).
Proof.
  induction 1 as [|x r Hs IH Hall]; simpl; [constructor |].
  destruct (p x); [| assumption]. constructor; [assumption |].
  rewrite Forall_forall in Hall |- *. intros z Hz.
  apply filter_In in Hz as [Hz _]. auto.
Qed.

Lemma StronglySorted_weaken {A} (R1 R2 : A -> A -> Prop) l :
  (forall a b, R1 a b -> R2 a b) ->
  StronglySorted R1 l -> StronglySorted R2 l.
Proof.
  intros Himp. induction 1 as [|x r Hs IH Hall]; constructor; [assumption |].
  eapply Forall_impl; [| exact Hall]. auto.
Qed.

Section SortFacts.
Context {A : Type} (cmp : A -> A -> Z).

Lemma insert_sorted_perm x l :
  Permutation (Js.insert_sorted cmp x l) (x :: l).
Proof.
  induction l as [|y r IH]; simpl; [reflexivity |].
  destruct (cmp x y <=? 0); [reflexivity |].
  rewrite IH. apply perm_swap.
Qed.

Lemma sort_perm l : Permutation (Js.sort cmp l) l.
Proof.
  induction l as [|x r IH]; simpl; [reflexivity |].
  rewrite insert_sorted_perm. apply perm_skip. exact IH.
Qed.

Lemma sort_In l x : In x (Js.sort cmp l) <-> In x l.
Proof.
  split; apply Permutation_in; [| symmetry]; apply sort_perm.
Qed.

(** With a comparator that is total and transitive the result is sorted. *)
Lemma insert_sorted_sorted x l :
  (forall a b, cmp a b <= 0 \/ cmp b a <= 0) ->
  (forall a b c, cmp a b <= 0 -> cmp b c <= 0 -> cmp a c <= 0) ->
  StronglySorted (fun a b => cmp a b <= 0) l ->
  StronglySorted (fun a b => cmp a b <= 0) (Js.insert_sorted cmp x l).
Proof.
  intros Htot Htrans. induction 1 as [|y r Hs IH Hall]; simpl.
  - constructor; constructor.
  - destruct (Z.leb_spec (cmp x y) 0) as [Hle | Hgt].
    + constructor; [constructor; assumption |].
      constructor; [assumption |].
      eapply Forall_impl; [| exact Hall]. intros z Hz. eauto.
    + constructor; [exact IH |].
      rewrite Forall_forall. intros z Hz.
      apply (Permutation_in _ (insert_sorted_perm x r)) in Hz.
      destruct Hz as [<- | Hz].
      * destruct (Htot y x); [assumption | lia].
      * rewrite Forall_forall in Hall. apply Hall. assumption.
Qed.

Lemma sort_sorted l :
  (forall a b, cmp a b <= 0 \/ cmp b a <= 0) ->
  (forall a b c, cmp a b <= 0 -> cmp b c <= 0 -> cmp a c <= 0) ->
  StronglySorted (fun a b => cmp a b <= 0) (Js.sort cmp l).
Proof.
  intros Htot Htrans. induction l as [|x r IH]; simpl.
  - constructor.
  - apply insert_sorted_sorted; assumption.
Qed.

(** Stability: elements that tie with one another keep their order. *)
Lemma insert_sorted_filter_tied (p : A -> bool) x l :
  (forall a b, p a = true -> p b = true -> cmp a b <= 0) ->
  filter p (Js.insert_sorted cmp x l) = filter p (x :: l).
Proof.
  intros Htie. induction l as [|y r IH]; [reflexivity |].
  simpl Js.insert_sorted.
  destruct (Z.leb_spec (cmp x y) 0) as [Hle | Hgt]; [reflexivity |].
  cbn [filter]. rewrite IH. cbn [filter].
  destruct (p x) eqn:Px; destruct (p y) eqn:Py; try reflexivity.
  specialize (Htie x y Px Py). lia.
Qed.

Lemma sort_stable (p : A -> bool) l :
  (forall a b, p a = true -> p b = true -> cmp a b <= 0) ->
  filter p (Js.sort cmp l) = filter p l.
Proof.
  intros Htie. induction l as [|x r IH]; [reflexivity |].
  simpl Js.sort. rewrite insert_sorted_filter_tied by assumption.
  simpl. rewrite IH. reflexivity.
Qed.

Lemma sorted_stable_unique l1 : forall l2,
  (forall a b, cmp a b <= 0 \/ cmp b a <= 0) ->
  Permutation l1 l2 ->
  StronglySorted (fun a b => cmp a b <= 0) l1 ->
  StronglySorted (fun a b => cmp a b <= 0) l2 ->
  (forall a, filter (tied cmp a) l1 = filter (tied cmp a) l2) ->
  l1 = l2.
Proof.
  induction l1 as [|x r1 IH]; intros l2 Htot Hperm Hs1 Hs2 Hf.
  - apply Permutation_nil in Hperm. congruence.
  - destruct l2 as [|y r2];
      [apply Permutation_sym, Permutation_nil in Hperm; discriminate |].
    apply StronglySorted_inv in Hs1 as [Hs1 Hx].
    apply StronglySorted_inv in Hs2 as [Hs2 Hy].
    rewrite Forall_forall in Hx, Hy.
    assert (Hxx : cmp x x <= 0) by (destruct (Htot x x); assumption).
    assert (Hyy : cmp y y <= 0) by (destruct (Htot y y); assumption).
    assert (Hxy : cmp x y <= 0).
    { assert (Hin : In y (x :: r1))
        by (eapply Permutation_in; [symmetry; exact Hperm | left; reflexivity]).
      destruct Hin as [<- | Hin]; [assumption | auto]. }
    assert (Hyx : cmp y x <= 0).
    { assert (Hin : In x (y :: r2))
        by (eapply Permutation_in; [exact Hperm | left; reflexivity]).
      destruct Hin as [<- | Hin]; [assumption | auto]. }
    assert (Heq : x = y).
    { assert (Txx : tied cmp x x = true)
        by (unfold tied; apply andb_true_iff; split; apply Z.leb_le;
            assumption).
      assert (Txy : tied cmp x y = true)
        by (unfold tied; apply andb_true_iff; split; apply Z.leb_le;
            assumption).
      specialize (Hf x). simpl in Hf. rewrite Txx, Txy in Hf. congruence. }
    subst y. f_equal. apply IH; try assumption.
    + eapply Permutation_cons_inv. exact Hperm.
    + intros a. specialize (Hf a). simpl in Hf.
      destruct (tied cmp a x); [congruence | assumption].
Qed.

(** The model of [Array.prototype.sort] does not depend on the algorithm:
    whatever list a stable sort returns for a comparator that is total and
    transitive, it is this one. *)
Lemma sort_unique l out :
  (forall a b, cmp a b <= 0 \/ cmp b a <= 0) ->
  (forall a b c, cmp a b <= 0 -> cmp b c <= 0 -> cmp a c <= 0) ->
  Permutation out l ->
  StronglySorted (fun a b => cmp a b <= 0) out ->
  (forall a, filter (tied cmp a) out = filter (tied cmp a) l) ->
  out = Js.sort cmp l.
Proof.
  intros Htot Htrans Hperm Hsorted Hstable.
  apply sorted_stable_unique; try assumption.
  - rewrite Hperm. symmetry. apply sort_perm.
  - apply sort_sorted; assumption.
  - intros a. rewrite Hstable. symmetry. apply sort_stable.
    intros u v Hu Hv. unfold tied in Hu, Hv.
    apply andb_true_iff in Hu as [_ Hu]. apply andb_true_iff in Hv as [Hv _].
    apply Z.leb_le in Hu, Hv. eauto.
Qed.

End SortFacts.

(** ** Scheduler: ready content *)

Lemma Priority_eqb_eq a b : Publishing.Priority_eqb a b = true <-> a = b.
Proof. destruct a, b; simpl; split; congruence. Qed.

Lemma Status_eqb_eq a b : Publishing.Status_eqb a b = true <-> a = b.
Proof. destruct a, b; simpl; split; congruence. Qed.

Lemma priorityOrder_inj a b :
  Publishing.priorityOrder a = Publishing.priorityOrder b -> a = b.
Proof. destruct a, b; simpl; intros; congruence || lia. Qed.

Lemma by_priority_then_time_le a b :
  ContentScheduler.by_priority_then_time a b <= 0 <-> ready_order a b.
Proof.
  unfold ContentScheduler.by_priority_then_time, ready_order.
  destruct (Z.eqb_spec
              (Publishing.priorityOrder (ContentScheduler.priority b)
               - Publishing.priorityOrder (ContentScheduler.priority a)) 0)
    as [He | Hne]; simpl.
  - assert (ContentScheduler.priority a = ContentScheduler.priority b)
      by (apply priorityOrder_inj; lia).
    split; [intros; right; split; [assumption | lia] |].
    intros [Hlt | [_ Hle]]; lia.
  - split; [intros; left; lia |].
    intros [Hlt | [Hp _]]; [lia |]. rewrite Hp in Hne. lia.
Qed.

Lemma by_priority_then_time_total a b :
  ContentScheduler.by_priority_then_time a b <= 0
  \/ ContentScheduler.by_priority_then_time b a <= 0.
Proof.
  rewrite !by_priority_then_time_le. unfold ready_order.
  destruct (Z.lt_trichotomy
              (Publishing.priorityOrder (ContentScheduler.priority a))
              (Publishing.priorityOrder (ContentScheduler.priority b)))
    as [H | [H | H]]; [right; left; lia | | left; left; lia].
  apply priorityOrder_inj in H.
  destruct (Z.le_ge_cases (ContentScheduler.scheduledFor a)
              (ContentScheduler.scheduledFor b));
    [left | right]; right; split; (congruence || lia).
Qed.

Lemma by_priority_then_time_trans a b c :
  ContentScheduler.by_priority_then_time a b <= 0 ->
  ContentScheduler.by_priority_then_time b c <= 0 ->
  ContentScheduler.by_priority_then_time a c <= 0.
Proof.
  rewrite !by_priority_then_time_le. unfold ready_order.
  intros [H1 | [H1 H1']] [H2 | [H2 H2']].
  - left; lia.
  - left. rewrite <- H2. lia.
  - left. rewrite H1. lia.
  - right. split; [congruence | lia].
Qed.

(** C6 (counterexample).  Two ready items of one priority, due, the first
    of the queue created later than the second.  Scheduled for the same
    time they come out in the order of the queue, the later created first;
    and with the later created one scheduled earlier it comes out first,
    although the queue holds it second: the creation time is not
    consulted. *)
Lemma C6_counterexample_createdAt_not_consulted :
  (ContentScheduler.getReadyContent later_created_first_tied
     (Publishing.mkWorld 100 0 0 [])
   = [queued_created "a" 10 20; queued_created "b" 10 10]
   /\ ContentScheduler.createdAt (queued_created "b" 10 10)
      < ContentScheduler.createdAt (queued_created "a" 10 20))
  /\ (ContentScheduler.getAllQueuedContent later_created_first_earlier
      = [queued_created "b" 20 10; queued_created "a" 10 20]
      /\ ContentScheduler.getReadyContent later_created_first_earlier
           (Publishing.mkWorld 100 0 0 [])
         = [queued_created "a" 10 20; queued_created "b" 20 10]).
Proof.
  split; [split; [vm_compute; reflexivity | simpl; lia] |].
  split; vm_compute; reflexivity.
Qed.

(** C6 (amended).  [getReadyContent] returns exactly the queued items whose
    status is [ready] and whose scheduled time is not after now, each as
    often as the queue holds it; the result is ordered by descending
    priority and, within a priority, by ascending scheduled time; items of
    one priority scheduled for the same time keep the order in which the
    queue holds them; and three ready items of priorities low, urgent,
    medium come out as urgent, medium, low. *)
Theorem C6_ready_content_filtered_and_ordered
    (s : ContentScheduler.Scheduler) (w : Publishing.World) :
  let queue := JsMap.values (ContentScheduler.contentQueue s) in
  let out := ContentScheduler.getReadyContent s w in
  Permutation out
    (filter (ContentScheduler.is_ready_at (Publishing.now w)) queue)
  /\ (forall c, In c out <->
                In c queue
                /\ ContentScheduler.status c = Publishing.ready
                /\ ContentScheduler.scheduledFor c <= Publishing.now w)
  /\ StronglySorted ready_order out
  /\ (forall p t,
        filter (same_tier p t) out
        = filter (same_tier p t)
            (filter (ContentScheduler.is_ready_at (Publishing.now w)) queue))
  /\ (forall a b c,
        filter (ContentScheduler.is_ready_at (Publishing.now w)) queue
        = [a; b; c] ->
        ContentScheduler.priority a = Publishing.low ->
        ContentScheduler.priority b = Publishing.urgent ->
        ContentScheduler.priority c = Publishing.medium ->
        out = [b; c; a]).
Proof.
  intros queue out. unfold out, ContentScheduler.getReadyContent. fold queue.
  split; [apply sort_perm |]. split; [| split; [| split]].
  - intros c. rewrite sort_In, filter_In.
    unfold ContentScheduler.is_ready_at.
    rewrite andb_true_iff, Status_eqb_eq, Z.leb_le. tauto.
  - eapply StronglySorted_weaken;
      [| apply (sort_sorted ContentScheduler.by_priority_then_time)].
    + intros a b. apply by_priority_then_time_le.
    + apply by_priority_then_time_total.
    + apply by_priority_then_time_trans.
  - intros p t. apply sort_stable. intros a b Ha Hb.
    unfold same_tier in Ha, Hb.
    apply andb_true_iff in Ha as [Ha1 Ha2].
    apply andb_true_iff in Hb as [Hb1 Hb2].
    apply Priority_eqb_eq in Ha1, Hb1. apply Z.eqb_eq in Ha2, Hb2.
    apply by_priority_then_time_le. right. split; [congruence | lia].
  - intros a b c -> Ha Hb Hc.
    cbn [Js.sort Js.insert_sorted].
    assert (Hbc : (ContentScheduler.by_priority_then_time b c <=? 0) = true)
      by (apply Z.leb_le, by_priority_then_time_le; left;
          rewrite Hb, Hc; simpl; lia).
    assert (Hab : (ContentScheduler.by_priority_then_time a b <=? 0) = false)
      by (apply Z.leb_gt; unfold ContentScheduler.by_priority_then_time;
          rewrite Ha, Hb; simpl; lia).
    assert (Hac : (ContentScheduler.by_priority_then_time a c <=? 0) = false)
      by (apply Z.leb_gt; unfold ContentScheduler.by_priority_then_time;
          rewrite Ha, Hc; simpl; lia).
    rewrite Hbc. cbn [Js.insert_sorted]. rewrite Hab, Hac. reflexivity.
Qed.

Example getReadyContent_low_urgent_medium :
  map ContentScheduler.id
    (ContentScheduler.getReadyContent three_ready
       (Publishing.mkWorld 100 0 0 []))
  = ["second"; "third"; "first"]%string.
Proof. reflexivity. Qed.

(** ** Scheduler: retries *)

Lemma JsMap_get_set {V} (k k1 : string) (v : V) (m : list (string * V)) :
  JsMap.get k (JsMap.set k1 v m)
  = if String.eqb k1 k then Some v else JsMap.get k m.
Proof.
  induction m as [|[k2 v2] r IH]; simpl.
  - reflexivity.
  - destruct (String.eqb_spec k2 k1) as [-> | Hne]; simpl.
    + destruct (String.eqb k1 k); reflexivity.
    + rewrite IH. destruct (String.eqb_spec k2 k) as [-> | Hne2];
        [| reflexivity].
      destruct (String.eqb_spec k1 k); [congruence | reflexivity].
Qed.

(** An update that carries no retry count leaves every retry count as it
    was. *)
Lemma update_keeps_retryCount contentId u s w k c1 :
  ContentScheduler.u_retryCount u = None ->
  JsMap.get k (ContentScheduler.contentQueue
                 (ContentScheduler.update contentId u s w)) = Some c1 ->
  exists c, JsMap.get k (ContentScheduler.contentQueue s) = Some c
            /\ ContentScheduler.retryCount c1 = ContentScheduler.retryCount c.
Proof.
  intros Hu.
  unfold ContentScheduler.update, ContentScheduler.updateQueuedContent.
  destruct (JsMap.get contentId (ContentScheduler.contentQueue s))
    as [c0|] eqn:E; simpl; [| eauto].
  rewrite JsMap_get_set.
  destruct (String.eqb_spec contentId k) as [-> | Hne]; [| eauto].
  intros H. injection H as <-. exists c0. split; [assumption |].
  simpl. rewrite Hu. reflexivity.
Qed.

(** [retryFailedContent] re-queues without counting: no retry count in the
    queue changes. *)
Lemma retryFailedContent_keeps_retryCount s w k c1 :
  JsMap.get k (ContentScheduler.contentQueue
                 (ContentScheduler.retryFailedContent s w)) = Some c1 ->
  exists c, JsMap.get k (ContentScheduler.contentQueue s) = Some c
            /\ ContentScheduler.retryCount c1 = ContentScheduler.retryCount c.
Proof.
  unfold ContentScheduler.retryFailedContent.
  generalize (filter (ContentScheduler.may_retry s)
                (JsMap.values (ContentScheduler.contentQueue s))).
  intros l. revert c1.
  induction l as [|x r IH] using rev_ind; intros c1; simpl; [eauto |].
  rewrite fold_left_app. simpl. intros H.
  apply update_keeps_retryCount in H as (c & Hc & Hr); [| reflexivity].
  destruct (IH _ Hc) as (c0 & Hc0 & Hr0). exists c0.
  split; [assumption | congruence].
Qed.

Lemma JsMap_get_In {V} (k : string) (v : V) (m : list (string * V)) :
  JsMap.get k m = Some v -> In (k, v) m.
Proof.
  induction m as [|[k1 v1] r IH]; simpl; [discriminate |].
  destruct (String.eqb_spec k1 k) as [-> | Hne].
  - intros H. injection H as <-. left. reflexivity.
  - intros H. right. auto.
Qed.

Lemma NoDup_keys_unique {V} (k : string) (v1 v2 : V)
    (m : list (string * V)) :
  NoDup (map fst m) -> In (k, v1) m -> In (k, v2) m -> v1 = v2.
Proof.
  induction m as [|[k0 v0] r IH]; simpl; [contradiction |].
  intros Hnd H1 H2. apply NoDup_cons_iff in Hnd as [Hnotin Hnd].
  destruct H1 as [H1 | H1], H2 as [H2 | H2].
  - congruence.
  - injection H1 as -> ->. exfalso. apply Hnotin.
    change k with (fst (k, v2)). apply in_map. assumption.
  - injection H2 as -> ->. exfalso. apply Hnotin.
    change k with (fst (k, v1)). apply in_map. assumption.
  - auto.
Qed.

Lemma update_other contentId u s w k :
  contentId <> k ->
  JsMap.get k (ContentScheduler.contentQueue
                 (ContentScheduler.update contentId u s w))
  = JsMap.get k (ContentScheduler.contentQueue s).
Proof.
  intros Hne.
  unfold ContentScheduler.update, ContentScheduler.updateQueuedContent.
  destruct (JsMap.get contentId (ContentScheduler.contentQueue s));
    simpl; [| reflexivity].
  rewrite JsMap_get_set.
  destruct (String.eqb_spec contentId k); [contradiction | reflexivity].
Qed.

Lemma JsMap_set_keys {V} (k : string) (v : V) (m : list (string * V)) :
  map fst (JsMap.set k v m)
  = if JsMap.has k m then map fst m else map fst m ++ [k].
Proof.
  unfold JsMap.has. induction m as [|[k1 v1] r IH]; simpl; [reflexivity |].
  destruct (String.eqb_spec k1 k) as [-> | Hne]; simpl; [reflexivity |].
  rewrite IH. destruct (JsMap.get k r); reflexivity.
Qed.

Lemma JsMap_has_In {V} (k : string) (m : list (string * V)) :
  JsMap.has k m = false -> ~ In k (map fst m).
Proof.
  unfold JsMap.has. induction m as [|[k1 v1] r IH]; simpl; [tauto |].
  destruct (String.eqb_spec k1 k) as [-> | Hne]; [discriminate |].
  intros H [H1 | H1]; [contradiction | exact (IH H H1)].
Qed.

Lemma JsMap_set_In {V} (k : string) (v : V) (m : list (string * V)) e :
  In e (JsMap.set k v m) -> e = (k, v) \/ In e m.
Proof.
  induction m as [|[k1 v1] r IH]; simpl; [intros [<- | []]; auto |].
  destruct (String.eqb_spec k1 k) as [-> | Hne]; simpl.
  - intros [<- | H]; auto.
  - intros [H | H]; [auto |]. destruct (IH H); auto.
Qed.

Lemma NoDup_snoc {A} (x : A) (l : list A) :
  ~ In x l -> NoDup l -> NoDup (l ++ [x]).
Proof.
  induction l as [|y r IH]; simpl; intros Hx Hnd.
  - constructor; [simpl; tauto | constructor].
  - apply NoDup_cons_iff in Hnd as [Hy Hnd].
    constructor; [| apply IH; tauto].
    rewrite in_app_iff. simpl. intros [H | [H | []]]; [tauto |].
    apply Hx. left. congruence.
Qed.

(** [set (item.id, item)] keeps the queue well keyed. *)
Lemma set_well_keyed k c q :
  ContentScheduler.id c = k -> well_keyed q -> well_keyed (JsMap.set k c q).
Proof.
  intros Hid [Hnd Hkeys]. split.
  - rewrite JsMap_set_keys. destruct (JsMap.has k q) eqn:Eh; [assumption |].
    apply NoDup_snoc; [exact (JsMap_has_In _ _ Eh) | assumption].
  - rewrite Forall_forall in Hkeys |- *. intros e He.
    destruct (JsMap_set_In _ _ _ _ He) as [-> | Hin]; [exact Hid | auto].
Qed.

Lemma new_ContentScheduler_well_keyed config :
  well_keyed
    (ContentScheduler.contentQueue (ContentScheduler.new_ContentScheduler config)).
Proof.
  unfold ContentScheduler.new_ContentScheduler. simpl.
  assert (Hnil : well_keyed []) by (split; constructor).
  destruct (ContentScheduler.cfg_contentQueue config) as [l|]; [| exact Hnil].
  revert Hnil. generalize (@nil (string * ContentScheduler.QueuedContent)).
  induction l as [|x r IH]; intros q Hq; simpl; [exact Hq |].
  apply IH. apply set_well_keyed; [reflexivity | exact Hq].
Qed.

(** What does hold: [retryFailedContent] leaves alone an item that is not
    failed or whose retry count has reached the maximum. *)
Lemma retryFailedContent_skips_exhausted s w k c :
  well_keyed (ContentScheduler.contentQueue s) ->
  JsMap.get k (ContentScheduler.contentQueue s) = Some c ->
  ContentScheduler.may_retry s c = false ->
  JsMap.get k (ContentScheduler.contentQueue
                 (ContentScheduler.retryFailedContent s w)) = Some c.
Proof.
  intros [Hnd Hkeys] Hget Hno.
  unfold ContentScheduler.retryFailedContent.
  assert (Hids : Forall (fun x => ContentScheduler.id x <> k)
                   (filter (ContentScheduler.may_retry s)
                      (JsMap.values (ContentScheduler.contentQueue s)))).
  { rewrite Forall_forall. intros x Hx.
    apply filter_In in Hx as [Hx Hyes].
    unfold JsMap.values in Hx. apply in_map_iff in Hx as ([kx x0] & Hsnd & Hin).
    simpl in Hsnd. subst x0. intros Hid.
    rewrite Forall_forall in Hkeys. specialize (Hkeys _ Hin). simpl in Hkeys.
    rewrite <- Hkeys, Hid in Hin.
    assert (x = c)
      by (exact (NoDup_keys_unique k x c _ Hnd Hin (JsMap_get_In _ _ _ Hget))).
    congruence. }
  revert Hids.
  generalize (filter (ContentScheduler.may_retry s)
                (JsMap.values (ContentScheduler.contentQueue s))).
  intros l. rewrite <- Hget. clear Hget.
  generalize s as s0.
  induction l as [|x r IH]; intros s0 Hids; simpl; [reflexivity |].
  apply Forall_cons_iff in Hids as [Hx Hr].
  rewrite IH by assumption. apply update_other. assumption.
Qed.

(** C5 (the code departs from the specification).  [retryFailedContent]
    puts a failed item back to [pending] without touching its retry count,
    and a publish that fails through its results is not counted either: the
    item of the scenario, with a maximum of 3 retries, has been published
    five times after six rounds, its retry count is still unset and it is
    ready for a sixth publish.  The bulk publisher, in [retryFailedItems],
    does count each re-queue. *)
Theorem C5_requeue_does_not_count_retries :
  (let s := ContentScheduler.retryFailedContent one_failed
              (Publishing.mkWorld 1000 0 0 []) in
   option_map (fun c => (ContentScheduler.status c,
                         ContentScheduler.retryCount c,
                         ContentScheduler.scheduledFor c))
     (ContentScheduler.getQueuedContent "post" s)
   = Some (Publishing.pending, None, 301000))
  /\ (Publishing.calls (snd after_six_rounds) = 5%nat
      /\ option_map (fun c => (ContentScheduler.status c,
                               ContentScheduler.retryCount c))
           (ContentScheduler.getQueuedContent "post" (fst after_six_rounds))
         = Some (Publishing.ready, None))
  /\ (forall s w k c1,
        JsMap.get k (ContentScheduler.contentQueue
                       (ContentScheduler.retryFailedContent s w)) = Some c1 ->
        exists c, JsMap.get k (ContentScheduler.contentQueue s) = Some c
                  /\ ContentScheduler.retryCount c1
                     = ContentScheduler.retryCount c).
Proof.
  split; [vm_compute; reflexivity |].
  split; [vm_compute; split; reflexivity |].
  apply retryFailedContent_keeps_retryCount.
Qed.

(** ** Scheduler: optimal time *)

(** C8 (counterexample).  On a Thursday at noon (UTC), with a slot
    "Thursday 9h, engagement 90" and a slot "Friday 9h, engagement 50", the
    code answers Friday 9h, the slot of lower engagement, where the
    specification asks for the next Thursday 9h; with two slots of
    engagement 80, Saturday 9h listed before Friday 9h, the code answers
    Saturday, where the specification asks for the nearer Friday. *)
Lemma C8_counterexample_passed_or_tied_slot :
  (ContentScheduler.calculateOptimalTime 0 slots_best_passed ["ghost"%string]
     thursday_noon = 33 * ContentScheduler.HOUR
   /\ claimed_optimal_time 0 slots_best_passed ["ghost"%string] thursday_noon
      = 7 * ContentScheduler.DAY + 9 * ContentScheduler.HOUR)
  /\ (ContentScheduler.calculateOptimalTime 0 slots_tied ["ghost"%string]
        thursday_noon = 2 * ContentScheduler.DAY + 9 * ContentScheduler.HOUR
      /\ claimed_optimal_time 0 slots_tied ["ghost"%string] thursday_noon
         = ContentScheduler.DAY + 9 * ContentScheduler.HOUR).
Proof. vm_compute. repeat split; reflexivity. Qed.

Section OptimalTimeFacts.
Variable tz : Z.
Variable t0 : Z.

(** The loop keeps the first slot that beats the best score so far. *)
Lemma consider_fold slots : forall bt bs,
  let r := fold_left (ContentScheduler.consider tz t0) slots (bt, bs) in
  (r = (bt, bs)
   /\ Forall (fun x => t0 < slot_time tz t0 x ->
                       ContentScheduler.engagement x <= bs) slots)
  \/ (exists pre s post,
        slots = pre ++ s :: post
        /\ t0 < slot_time tz t0 s /\ bs < ContentScheduler.engagement s
        /\ r = (slot_time tz t0 s, ContentScheduler.engagement s)
        /\ Forall (fun x => t0 < slot_time tz t0 x ->
                            ContentScheduler.engagement x
                            < ContentScheduler.engagement s) pre
        /\ Forall (fun x => t0 < slot_time tz t0 x ->
                            ContentScheduler.engagement x
                            <= ContentScheduler.engagement s) post).
Proof.
  induction slots as [|x r IH]; intros bt bs; simpl.
  - left. split; [reflexivity | constructor].
  - unfold ContentScheduler.consider at 2.
    change (ContentScheduler.createTimeForDay tz t0
              (ContentScheduler.dayOfWeek x) (ContentScheduler.hour x))
      with (slot_time tz t0 x).
    destruct (Z.gtb_spec (slot_time tz t0 x) t0) as [Hf | Hf]; simpl.
    + destruct (Z.gtb_spec (ContentScheduler.engagement x) bs) as [He | He].
      * right.
        destruct (IH (slot_time tz t0 x) (ContentScheduler.engagement x))
          as [[Hr Hall] | (pre & s & post & -> & Hs & Hes & Hr & Hpre & Hpost)].
        -- exists [], x, r. simpl. repeat split; try assumption; try lia.
           constructor.
        -- exists (x :: pre), s, post. simpl.
           repeat split; try assumption; try lia.
           constructor; [intros; lia | assumption].
      * destruct (IH bt bs)
          as [[Hr Hall] | (pre & s & post & -> & Hs & Hes & Hr & Hpre & Hpost)].
        -- left. split; [assumption |]. constructor; [intros; lia | assumption].
        -- right. exists (x :: pre), s, post. simpl.
           repeat split; try assumption.
           constructor; [intros; lia | assumption].
    + destruct (IH bt bs)
        as [[Hr Hall] | (pre & s & post & -> & Hs & Hes & Hr & Hpre & Hpost)].
      * left. split; [assumption |]. constructor; [intros; lia | assumption].
      * right. exists (x :: pre), s, post. simpl.
        repeat split; try assumption.
        constructor; [intros; lia | assumption].
Qed.

End OptimalTimeFacts.

(** The time [createTimeForDay] makes falls on the weekday asked for, today
    or within the six days that follow, at the hour asked for. *)
Lemma createTimeForDay_weekday (tz base dayOfWeek hour : Z) :
  0 <= dayOfWeek <= 6 -> 0 <= hour <= 23 ->
  let t := ContentScheduler.createTimeForDay tz base dayOfWeek hour in
  ContentScheduler.getDay tz t = dayOfWeek
  /\ 0 <= ContentScheduler.local_day tz t - ContentScheduler.local_day tz base
     <= 6
  /\ t + tz = ContentScheduler.local_day tz t * ContentScheduler.DAY
              + hour * ContentScheduler.HOUR.
Proof.
  intros Hd Hh. unfold ContentScheduler.createTimeForDay.
  set (ld := ContentScheduler.local_day tz base).
  set (cur := ContentScheduler.getDay tz base).
  assert (Hcur : 0 <= cur < 7) by (apply Z.mod_pos_bound; lia).
  assert (Hcur_eq : cur = (ld + 4) mod 7) by reflexivity.
  rewrite Z.rem_mod_nonneg by lia.
  set (k := (dayOfWeek - cur + 7) mod 7).
  assert (Hk : 0 <= k < 7) by (apply Z.mod_pos_bound; lia).
  assert (Hday : 0 < ContentScheduler.DAY) by (vm_compute; reflexivity).
  assert (Hld : ContentScheduler.local_day tz
                  ((ld + k) * ContentScheduler.DAY
                   + hour * ContentScheduler.HOUR - tz) = ld + k).
  { unfold ContentScheduler.local_day at 1.
    replace ((ld + k) * ContentScheduler.DAY + hour * ContentScheduler.HOUR
             - tz + tz)
      with (hour * ContentScheduler.HOUR + (ld + k) * ContentScheduler.DAY)
      by lia.
    rewrite Z.div_add by lia.
    rewrite Z.div_small; [lia |].
    unfold ContentScheduler.DAY, ContentScheduler.HOUR. lia. }
  cbv zeta. split; [| split].
  - unfold ContentScheduler.getDay. rewrite Hld.
    replace (ld + k + 4) with ((ld + 4) + k) by lia.
    unfold k. rewrite Z.add_mod_idemp_r by lia.
    pose proof (Z.div_mod (ld + 4) 7 ltac:(lia)) as Hq.
    rewrite <- Hcur_eq in Hq.
    replace (ld + 4 + (dayOfWeek - cur + 7))
      with (dayOfWeek + ((ld + 4) / 7 + 1) * 7) by lia.
    rewrite Z.mod_add by lia. apply Z.mod_small. lia.
  - rewrite Hld. lia.
  - rewrite Hld. lia.
Qed.

(** C8 (amended).  [calculateOptimalTime] goes through the slots of the
    requested platforms in order and takes for each the time
    [createTimeForDay] makes of it (its weekday today or within the next six
    days, at its hour).  A slot is eligible when that time is after now and
    its engagement is positive.  The answer is the time of the first
    eligible slot of highest engagement among the eligible ones, and
    [now + 1 hour] when no slot is eligible, in particular when there is no
    slot data; it is always after now. *)
Theorem C8_first_best_eligible_slot (tz : Z)
    (config : ContentScheduler.ScheduleConfig)
    (platforms : list ContentTester.PlatformType) (t0 : Z) :
  let result := ContentScheduler.calculateOptimalTime tz config platforms t0 in
  (ContentScheduler.optimalTimes config = None ->
   result = t0 + 60 * 60 * 1000)
  /\ (forall ot,
        ContentScheduler.optimalTimes config = Some ot ->
        (Forall (fun s => ~ eligible tz t0 s)
           (ContentScheduler.slots_of ot platforms)
         /\ result = t0 + 60 * 60 * 1000)
        \/ (exists pre s post,
              ContentScheduler.slots_of ot platforms = pre ++ s :: post
              /\ eligible tz t0 s /\ result = slot_time tz t0 s
              /\ Forall (fun x => eligible tz t0 x ->
                                  ContentScheduler.engagement x
                                  < ContentScheduler.engagement s) pre
              /\ Forall (fun x => eligible tz t0 x ->
                                  ContentScheduler.engagement x
                                  <= ContentScheduler.engagement s) post))
  /\ t0 < result.
Proof.
  intros result.
  unfold result, ContentScheduler.calculateOptimalTime.
  destruct (ContentScheduler.optimalTimes config) as [ot|].
  - assert (Hmain :
      (Forall (fun s => ~ eligible tz t0 s)
         (ContentScheduler.slots_of ot platforms)
       /\ fst (fold_left (ContentScheduler.consider tz t0)
                 (ContentScheduler.slots_of ot platforms)
                 (t0 + 60 * 60 * 1000, 0)) = t0 + 60 * 60 * 1000)
      \/ (exists pre s post,
            ContentScheduler.slots_of ot platforms = pre ++ s :: post
            /\ eligible tz t0 s
            /\ fst (fold_left (ContentScheduler.consider tz t0)
                      (ContentScheduler.slots_of ot platforms)
                      (t0 + 60 * 60 * 1000, 0)) = slot_time tz t0 s
            /\ Forall (fun x => eligible tz t0 x ->
                                ContentScheduler.engagement x
                                < ContentScheduler.engagement s) pre
            /\ Forall (fun x => eligible tz t0 x ->
                                ContentScheduler.engagement x
                                <= ContentScheduler.engagement s) post)).
    { destruct (consider_fold tz t0 (ContentScheduler.slots_of ot platforms)
                  (t0 + 60 * 60 * 1000) 0)
        as [[Hr Hall] | (pre & s & post & Hsl & Hs & Hes & Hr & Hpre & Hpost)].
      - left. rewrite Hr. split; [| reflexivity].
        eapply Forall_impl; [| exact Hall]. unfold eligible.
        intros x Hx [H1 H2]. specialize (Hx H1). lia.
      - right. exists pre, s, post. rewrite Hr.
        split; [assumption |]. split; [split; assumption |].
        split; [reflexivity |].
        split; (eapply Forall_impl; [| eassumption]); unfold eligible;
          intros x Hx [H1 _]; auto. }
    split; [discriminate |]. split.
    + intros ot1 H. injection H as <-. exact Hmain.
    + destruct Hmain as [[_ ->] | (_ & s & _ & _ & [Hs _] & -> & _)];
        [lia | exact Hs].
  - split; [reflexivity |]. split; [discriminate | lia].
Qed.

(** ** Content tester: best platforms *)

Lemma insert_sorted_map {A B} (f : A -> B) (cmp : B -> B -> Z) x l :
  Js.insert_sorted cmp (f x) (map f l)
  = map f (Js.insert_sorted (fun a b => cmp (f a) (f b)) x l).
Proof.
  induction l as [|y r IH]; simpl; [reflexivity |].
  destruct (cmp (f x) (f y) <=? 0); simpl; [reflexivity |].
  rewrite IH. reflexivity.
Qed.

Lemma sort_map {A B} (f : A -> B) (cmp : B -> B -> Z) l :
  Js.sort cmp (map f l) = map f (Js.sort (fun a b => cmp (f a) (f b)) l).
Proof.
  induction l as [|x r IH]; simpl; [reflexivity |].
  rewrite IH. apply insert_sorted_map.
Qed.

Lemma filter_map_commute {A B} (f : A -> B) (q : B -> bool) l :
  filter q (map f l) = map f (filter (fun a => q (f a)) l).
Proof.
  induction l as [|x r IH]; simpl; [reflexivity |].
  destruct (q (f x)); simpl; rewrite IH; reflexivity.
Qed.

(** The map of results holds, for a platform, the result of testing it. *)
Lemma tested_results_sound content platforms : forall acc,
  (forall k r, JsMap.get k acc = Some r ->
               r = ContentTester.testContentForPlatform content k) ->
  forall k r,
    JsMap.get k
      (fold_left
         (fun results platform =>
            JsMap.set platform
              (ContentTester.testContentForPlatform content platform) results)
         platforms acc) = Some r ->
    r = ContentTester.testContentForPlatform content k.
Proof.
  induction platforms as [|p ps IH]; intros acc Hacc k r; simpl.
  - apply Hacc.
  - apply IH. intros k1 r1. rewrite JsMap_get_set.
    destruct (String.eqb_spec p k1) as [-> | Hne]; [| apply Hacc].
    intros H. injection H as <-. reflexivity.
Qed.

Lemma result_of_tested content platforms p :
  ContentTester.result_of content
    (ContentTester.testContentForMultiplePlatforms content platforms) p
  = ContentTester.testContentForPlatform content p.
Proof.
  unfold ContentTester.result_of.
  destruct (JsMap.get p _) as [r|] eqn:E; [| reflexivity].
  eapply tested_results_sound; [| exact E]. intros k r0 H. discriminate.
Qed.

(** The best platforms are the compatible ones, stably sorted by score. *)
Lemma getBestPlatformsForContent_eq content availablePlatforms :
  ContentTester.getBestPlatformsForContent content availablePlatforms
  = Js.sort (by_tested_score content)
      (filter (compatible_with content) availablePlatforms).
Proof.
  unfold ContentTester.getBestPlatformsForContent.
  rewrite (map_ext _
             (fun p => (p, ContentTester.testContentForPlatform content p)))
    by (intros p; rewrite result_of_tested; reflexivity).
  rewrite filter_map_commute, sort_map, map_map. simpl.
  rewrite map_id. reflexivity.
Qed.

(** C9 (counterexample).  For a plain blog post WordPress and Ghost both
    score 100 and are compatible; asked in the order WordPress, Ghost, the
    code answers in that order, although "ghost" comes first lexically. *)
Lemma C9_counterexample_tie_keeps_input_order :
  ContentTester.getBestPlatformsForContent sample_content
    ["wordpress"; "ghost"]%string
  = ["wordpress"; "ghost"]%string
  /\ ContentTester.score
       (ContentTester.testContentForPlatform sample_content "wordpress") = 100
  /\ ContentTester.score
       (ContentTester.testContentForPlatform sample_content "ghost") = 100
  /\ String.ltb "ghost" "wordpress" = true.
Proof. vm_compute. repeat split; reflexivity. Qed.

(** C9 (amended).  [getBestPlatformsForContent] returns exactly the
    available platforms whose test result is compatible, ordered by
    descending compatibility score; platforms of equal score keep the order
    in which they were passed. *)
Theorem C9_best_platforms_stable_by_score
    (content : ContentTester.AIContent)
    (availablePlatforms : list ContentTester.PlatformType) :
  let out :=
    ContentTester.getBestPlatformsForContent content availablePlatforms in
  Permutation out (filter (compatible_with content) availablePlatforms)
  /\ (forall p, In p out <->
                In p availablePlatforms
                /\ ContentTester.isCompatible
                     (ContentTester.testContentForPlatform content p) = true)
  /\ StronglySorted
       (fun a b =>
          ContentTester.score (ContentTester.testContentForPlatform content b)
          <= ContentTester.score
               (ContentTester.testContentForPlatform content a))
       out
  /\ (forall sc,
        filter (scores content sc) out
        = filter (scores content sc)
            (filter (compatible_with content) availablePlatforms)).
Proof.
  intros out. unfold out. rewrite getBestPlatformsForContent_eq.
  split; [apply sort_perm |]. split; [| split].
  - intros p. rewrite sort_In, filter_In. reflexivity.
  - eapply StronglySorted_weaken;
      [| apply (sort_sorted (by_tested_score content))];
      unfold by_tested_score; intros; lia.
  - intros sc. apply sort_stable. unfold scores, by_tested_score.
    intros a b Ha Hb. apply Z.eqb_eq in Ha, Hb. lia.
Qed.

(** ** Bulk publisher: waves *)

Section WaveFacts.
Import Publishing BulkPublisher.
Variable publisher : Publisher.



Lemma start_batch_spec batch : forall st,
  map fst (fst (start_batch publisher batch st)) = batch
  /\ trace (snd (snd (start_batch publisher batch st)))
     = trace (snd st) ++ map (fun i => EvPublish (id i)) batch.
Proof.
  induction batch as [|item r IH]; intros [s w].
  - simpl. split; [reflexivity | symmetry; apply app_nil_r].
  - cbn [start_batch]. unfold publishItem_start.
    destruct (start_publish publisher (id item) (content item)
                (platforms item) w) as [step w1] eqn:E.
    assert (Hw1 : trace w1 = trace w ++ [EvPublish (id item)])
      by (unfold start_publish in E; injection E as _ <-; reflexivity).
    destruct (start_batch publisher r
                (updateItemStatus (id item) publishing s w, w1))
      as [started st1] eqn:E1.
    specialize (IH (updateItemStatus (id item) publishing s w, w1)).
    rewrite E1 in IH. simpl in IH. destruct IH as [IH1 IH2]. simpl.
    split; [rewrite IH1; reflexivity |].
    rewrite IH2, Hw1, <- app_assoc. reflexivity.
Qed.




End WaveFacts.

Section BatchFacts.
Context {A : Type}.
Implicit Types (all : list A) (c i fuel : nat).


Lemma slice_length all c i :
  List.length (Js.slice i (i + c) all)
  = Nat.min c (List.length all - i).
Proof.
  unfold Js.slice. rewrite length_firstn, length_skipn.
  replace (i + c - i)%nat with c by lia. reflexivity.
Qed.





End BatchFacts.

Section BatchLoopFacts.
Import Publishing BulkPublisher.
Variable publisher : Publisher.




Lemma updateItem_config itemId u s w :
  config (updateItem itemId u s w) = config s.
Proof.
  unfold updateItem. destruct (JsMap.get itemId (items s)); reflexivity.
Qed.


End BatchLoopFacts.






Example publishAll_five_items_two_at_a_time :
  Publishing.trace
    (snd (BulkPublisher.publishAll succeeding_publisher five_items
            (Publishing.mkWorld 100 0 0 [])))
  = [Publishing.EvBatch 1 3;
     Publishing.EvPublish "b"; Publishing.EvPublish "e";
     Publishing.EvSettle "b"; Publishing.EvSettle "e";
     Publishing.EvDelay 2000;
     Publishing.EvBatch 2 3;
     Publishing.EvPublish "c"; Publishing.EvPublish "d";
     Publishing.EvSettle "c"; Publishing.EvSettle "d";
     Publishing.EvDelay 2000;
     Publishing.EvBatch 3 3;
     Publishing.EvPublish "a"; Publishing.EvSettle "a"]%string.
Proof. vm_compute. reflexivity. Qed.

(** * Further properties *)

(** ** Circuit breaker: runs of calls *)

Section BreakerRuns.
Import RetryHandler.
Context {T : Type}.
Implicit Types (b : CircuitBreaker) (w : World) (op : Operation T).

Lemma call_after_rejected wait op b w :
  state b <> OPEN -> always_rejects op ->
  let st := call_after wait op (b, w) in
  failureCount (fst st) = failureCount b + 1
  /\ state (fst st)
     = (if failureCount b + 1 >=? threshold b then OPEN else state b)
  /\ threshold (fst st) = threshold b
  /\ successCount (fst st) = successCount b
  /\ lastFailureTime (fst st) = clock (snd st)
  /\ invoked (snd st) = S (invoked w).
Proof.
  intros Hs Hop. unfold call_after.
  set (w0 := mkWorld (clock w + wait) (invoked w) (drawn w) (trace w)).
  rewrite (execute_through b b op w0)
    by (apply execute_gate_not_open; assumption).
  rewrite invoke_result. destruct (Hop (invoked w0) (clock w0)) as [e ->].
  simpl. unfold onFailure. simpl.
  destruct (failureCount b + 1 >=? threshold b); simpl; repeat split.
Qed.

Lemma call_after_resolved wait op b w :
  state b <> OPEN -> always_resolves op ->
  let st := call_after wait op (b, w) in
  failureCount (fst st) = 0
  /\ threshold (fst st) = threshold b
  /\ (state b = CLOSED ->
      state (fst st) = CLOSED /\ successCount (fst st) = successCount b)
  /\ (state b = HALF_OPEN ->
      successCount (fst st) = successCount b + 1
      /\ state (fst st)
         = if successCount b + 1 >=? 3 then CLOSED else HALF_OPEN)
  /\ invoked (snd st) = S (invoked w).
Proof.
  intros Hs Hop. unfold call_after.
  set (w0 := mkWorld (clock w + wait) (invoked w) (drawn w) (trace w)).
  rewrite (execute_through b b op w0)
    by (apply execute_gate_not_open; assumption).
  rewrite invoke_result. destruct (Hop (invoked w0) (clock w0)) as [v ->].
  simpl. unfold onSuccess. simpl.
  destruct (state b) eqn:Es; simpl; try congruence.
  - repeat split; congruence.
  - destruct (successCount b + 1 >=? 3); simpl; repeat split; congruence.
Qed.

Lemma call_all_snoc (calls : list (Z * Operation T)) c st :
  call_all (calls ++ [c]) st = call_after (fst c) (snd c) (call_all calls st).
Proof. unfold call_all. rewrite fold_left_app. reflexivity. Qed.

(** Failures short of the threshold are counted and leave the breaker
    closed. *)
Lemma call_all_failures_below (calls : list (Z * Operation T)) : forall b w,
  state b = CLOSED ->
  Forall (fun c => always_rejects (snd c)) calls ->
  failureCount b + Z.of_nat (List.length calls) < threshold b ->
  let st := call_all calls (b, w) in
  state (fst st) = CLOSED
  /\ failureCount (fst st) = failureCount b + Z.of_nat (List.length calls)
  /\ threshold (fst st) = threshold b
  /\ invoked (snd st) = (invoked w + List.length calls)%nat.
Proof.
  induction calls as [|c calls IH] using rev_ind; intros b w Hs Hall Hlt.
  - simpl. repeat split; try assumption; lia.
  - rewrite length_app in *. simpl List.length in *.
    apply Forall_app in Hall as [Hall Hc]. apply Forall_inv in Hc.
    rewrite call_all_snoc.
    destruct (IH b w Hs Hall) as (Hs1 & Hf1 & Ht1 & Hi1); [lia |].
    destruct (call_all calls (b, w)) as [b1 w1]. simpl in Hs1, Hf1, Ht1, Hi1.
    destruct (call_after_rejected (fst c) (snd c) b1 w1)
      as (Hf2 & Hs2 & Ht2 & _ & _ & Hi2); [congruence | assumption |].
    cbv zeta. rewrite Hs2, Hf2, Ht2, Hi2, Hf1, Ht1, Hi1, Hs1.
    destruct (Z.geb_spec (failureCount b + Z.of_nat (List.length calls) + 1)
                (threshold b)); [lia |].
    repeat split; lia.
Qed.

End BreakerRuns.

(** X1.  A closed breaker counts consecutive failed calls and stays closed
    while the count is below the threshold; the failed call that brings the
    count to the threshold opens it and stamps [lastFailureTime].  Every one
    of these calls does invoke the operation. *)
Theorem X1_breaker_opens_at_threshold {T : Type}
    (calls : list (Z * RetryHandler.Operation T))
    (b : RetryHandler.CircuitBreaker) (w : RetryHandler.World) :
  RetryHandler.state b = RetryHandler.CLOSED ->
  Forall (fun c => always_rejects (snd c)) calls ->
  RetryHandler.failureCount b < RetryHandler.threshold b ->
  let n := Z.of_nat (List.length calls) in
  let st := call_all calls (b, w) in
  (RetryHandler.failureCount b + n < RetryHandler.threshold b ->
   RetryHandler.state (fst st) = RetryHandler.CLOSED
   /\ RetryHandler.failureCount (fst st) = RetryHandler.failureCount b + n
   /\ RetryHandler.invoked (snd st)
      = (RetryHandler.invoked w + List.length calls)%nat)
  /\ (RetryHandler.failureCount b + n = RetryHandler.threshold b ->
      RetryHandler.state (fst st) = RetryHandler.OPEN
      /\ RetryHandler.failureCount (fst st) = RetryHandler.threshold b
      /\ RetryHandler.lastFailureTime (fst st)
         = RetryHandler.clock (snd st)
      /\ RetryHandler.invoked (snd st)
         = (RetryHandler.invoked w + List.length calls)%nat).
Proof.
  intros Hs Hall Hlt n st. split.
  - intros Hbelow.
    destruct (call_all_failures_below calls b w Hs Hall Hbelow)
      as (H1 & H2 & _ & H4).
    repeat split; assumption.
  - intros Hat. unfold st, n in *. clear st n.
    destruct calls as [|c calls] using rev_ind; [simpl in Hat; lia |].
    clear IHcalls. rewrite length_app in *. simpl List.length in *.
    apply Forall_app in Hall as [Hall Hc]. apply Forall_inv in Hc.
    rewrite call_all_snoc.
    destruct (call_all_failures_below calls b w Hs Hall)
      as (Hs1 & Hf1 & Ht1 & Hi1); [lia |].
    destruct (call_all calls (b, w)) as [b1 w1]. simpl in Hs1, Hf1, Ht1, Hi1.
    destruct (call_after_rejected (fst c) (snd c) b1 w1)
      as (Hf2 & Hs2 & Ht2 & _ & Hl2 & Hi2); [congruence | assumption |].
    rewrite Hs2, Hf2, Hl2, Hi2, Hf1, Ht1, Hi1.
    destruct (Z.geb_spec
                (RetryHandler.failureCount b + Z.of_nat (List.length calls)
                 + 1) (RetryHandler.threshold b)); [| lia].
    repeat split; lia.
Qed.

Lemma X1_breaker_opens_at_threshold_witness :
  let st :=
    call_all [(0, failing_op); (5, failing_op); (0, failing_op)]
      (RetryHandler.newCircuitBreaker (Some 3) (Some 1000),
       RetryHandler.mkWorld 0 0 0 []) in
  RetryHandler.state (fst st) = RetryHandler.OPEN
  /\ RetryHandler.failureCount (fst st) = 3
  /\ RetryHandler.lastFailureTime (fst st) = RetryHandler.clock (snd st)
  /\ RetryHandler.invoked (snd st) = 3%nat.
Proof.
  apply (X1_breaker_opens_at_threshold
           [(0, failing_op); (5, failing_op); (0, failing_op)]
           (RetryHandler.newCircuitBreaker (Some 3) (Some 1000))
           (RetryHandler.mkWorld 0 0 0 [])).
  - reflexivity.
  - repeat constructor; intros k t; eexists; reflexivity.
  - simpl. lia.
  - reflexivity.
Defined.

Section BreakerSuccessRuns.
Import RetryHandler.
Context {T : Type}.

(** Successes short of three are counted and leave the breaker half-open. *)
Lemma call_all_successes_below (calls : list (Z * Operation T)) : forall b w,
  state b = HALF_OPEN ->
  Forall (fun c => always_resolves (snd c)) calls ->
  successCount b + Z.of_nat (List.length calls) < 3 ->
  let st := call_all calls (b, w) in
  state (fst st) = HALF_OPEN
  /\ successCount (fst st) = successCount b + Z.of_nat (List.length calls)
  /\ (calls <> [] -> failureCount (fst st) = 0).
Proof.
  induction calls as [|c calls IH] using rev_ind; intros b w Hs Hall Hlt.
  - simpl. repeat split; try assumption; try lia. congruence.
  - rewrite length_app in *. simpl List.length in *.
    apply Forall_app in Hall as [Hall Hc]. apply Forall_inv in Hc.
    rewrite call_all_snoc.
    destruct (IH b w Hs Hall) as (Hs1 & Hc1 & _); [lia |].
    destruct (call_all calls (b, w)) as [b1 w1]. simpl in Hs1, Hc1.
    destruct (call_after_resolved (fst c) (snd c) b1 w1)
      as (Hf2 & _ & _ & Hh2 & _); [congruence | assumption |].
    destruct (Hh2 Hs1) as [Hc2 Hs2].
    cbv zeta. rewrite Hs2, Hc2, Hf2, Hc1.
    destruct (Z.geb_spec (successCount b + Z.of_nat (List.length calls) + 1) 3);
      [lia |].
    repeat split; lia.
Qed.

End BreakerSuccessRuns.

(** X2.  A half-open breaker counts the calls that succeed and stays
    half-open while fewer than three have; the success that brings the
    count to three closes it, with the failure count at 0. *)
Theorem X2_half_open_closes_after_three_successes {T : Type}
    (calls : list (Z * RetryHandler.Operation T))
    (b : RetryHandler.CircuitBreaker) (w : RetryHandler.World) :
  RetryHandler.state b = RetryHandler.HALF_OPEN ->
  Forall (fun c => always_resolves (snd c)) calls ->
  RetryHandler.successCount b < 3 ->
  let n := Z.of_nat (List.length calls) in
  let st := call_all calls (b, w) in
  (RetryHandler.successCount b + n < 3 ->
   RetryHandler.state (fst st) = RetryHandler.HALF_OPEN
   /\ RetryHandler.successCount (fst st) = RetryHandler.successCount b + n)
  /\ (RetryHandler.successCount b + n = 3 ->
      RetryHandler.state (fst st) = RetryHandler.CLOSED
      /\ RetryHandler.failureCount (fst st) = 0).
Proof.
  intros Hs Hall Hlt n st. split.
  - intros Hbelow.
    destruct (call_all_successes_below calls b w Hs Hall Hbelow)
      as (H1 & H2 & _).
    split; assumption.
  - intros Hat. unfold st, n in *. clear st n.
    destruct calls as [|c calls] using rev_ind; [simpl in Hat; lia |].
    clear IHcalls. rewrite length_app in *. simpl List.length in *.
    apply Forall_app in Hall as [Hall Hc]. apply Forall_inv in Hc.
    rewrite call_all_snoc.
    destruct (call_all_successes_below calls b w Hs Hall)
      as (Hs1 & Hc1 & _); [lia |].
    destruct (call_all calls (b, w)) as [b1 w1]. simpl in Hs1, Hc1.
    destruct (call_after_resolved (fst c) (snd c) b1 w1)
      as (Hf2 & _ & _ & Hh2 & _);
      [congruence | assumption |].
    destruct (Hh2 Hs1) as [Hc2 Hs2]. rewrite Hs2, Hf2, Hc1.
    destruct (Z.geb_spec
                (RetryHandler.successCount b + Z.of_nat (List.length calls)
                 + 1) 3); [| lia].
    split; reflexivity.
Qed.

Lemma X2_half_open_closes_after_three_successes_witness :
  let b := RetryHandler.mkBreaker RetryHandler.HALF_OPEN 3 7 0 3 1000 in
  RetryHandler.state
    (fst (call_all
            [(0, succeeding_op); (0, succeeding_op); (9, succeeding_op)]
            (b, RetryHandler.mkWorld 2000 0 0 [])))
  = RetryHandler.CLOSED.
Proof.
  intros b.
  apply (X2_half_open_closes_after_three_successes
           [(0, succeeding_op); (0, succeeding_op); (9, succeeding_op)]
           b (RetryHandler.mkWorld 2000 0 0 [])).
  - reflexivity.
  - repeat constructor; intros k t; eexists; reflexivity.
  - simpl. lia.
  - reflexivity.
Defined.

(** X3.  Only consecutive failures count: whatever the failure count of a
    closed breaker, a call that succeeds resets it, so that after it fewer
    failures than the threshold leave the breaker closed, with exactly
    these failures counted. *)
Theorem X3_success_restarts_failure_count {T : Type}
    (wait : Z) (op : RetryHandler.Operation T)
    (calls : list (Z * RetryHandler.Operation T))
    (b : RetryHandler.CircuitBreaker) (w : RetryHandler.World) :
  RetryHandler.state b = RetryHandler.CLOSED ->
  always_resolves op ->
  Forall (fun c => always_rejects (snd c)) calls ->
  Z.of_nat (List.length calls) < RetryHandler.threshold b ->
  let st := call_all calls (call_after wait op (b, w)) in
  RetryHandler.state (fst st) = RetryHandler.CLOSED
  /\ RetryHandler.failureCount (fst st) = Z.of_nat (List.length calls)
  /\ RetryHandler.invoked (snd st)
     = S (RetryHandler.invoked w + List.length calls).
Proof.
  intros Hs Hop Hall Hlt.
  destruct (call_after_resolved wait op b w)
    as (Hf & Ht & Hc & _ & Hi); [congruence | assumption |].
  destruct (Hc Hs) as [Hs1 _].
  destruct (call_after wait op (b, w)) as [b1 w1]. simpl in Hf, Ht, Hs1, Hi.
  destruct (call_all_failures_below calls b1 w1 Hs1 Hall)
    as (H1 & H2 & _ & H4); [lia |].
  cbv zeta. rewrite H1, H2, H4, Hf, Hi. repeat split; lia.
Qed.

Lemma X3_success_restarts_failure_count_witness :
  let b := RetryHandler.mkBreaker RetryHandler.CLOSED 2 7 0 3 1000 in
  let st :=
    call_all [(0, failing_op); (0, failing_op)]
      (call_after 0 succeeding_op (b, RetryHandler.mkWorld 10 0 0 [])) in
  RetryHandler.state (fst st) = RetryHandler.CLOSED
  /\ RetryHandler.failureCount (fst st) = 2.
Proof.
  intros b.
  destruct (X3_success_restarts_failure_count 0 succeeding_op
              [(0, failing_op); (0, failing_op)] b
              (RetryHandler.mkWorld 10 0 0 []))
    as (H1 & H2 & _).
  - reflexivity.
  - intros k t; eexists; reflexivity.
  - repeat constructor; intros k t; eexists; reflexivity.
  - simpl. lia.
  - split; assumption.
Defined.

(** ** Retry handler: the breakers it keeps *)

(** X4.  [resetCircuitBreaker] puts the breaker of the key back to closed
    with its counters at 0, so that the next call goes through to the
    operation whatever the clock says; it keeps the threshold and the reset
    time, leaves the breakers of the other keys alone, and does nothing for
    a key that has no breaker. *)
Theorem X4_resetCircuitBreaker (h : RetryHandler.Handler) (key : string) :
  (RetryHandler.circuitBreakers h !! key = None ->
   RetryHandler.resetCircuitBreaker h key = h)
  /\ (forall b,
        RetryHandler.circuitBreakers h !! key = Some b ->
        RetryHandler.circuitBreakers (RetryHandler.resetCircuitBreaker h key)
          !! key
        = Some (RetryHandler.mkBreaker RetryHandler.CLOSED 0 0 0
                  (RetryHandler.threshold b) (RetryHandler.resetTimeMs b))
        /\ RetryHandler.getCircuitBreakerState
             (RetryHandler.resetCircuitBreaker h key) key
           = Some RetryHandler.CLOSED
        /\ forall (T : Type) (op : RetryHandler.Operation T) w,
             RetryHandler.invoked
               (snd (RetryHandler.execute (RetryHandler.reset b) op w))
             = S (RetryHandler.invoked w))
  /\ (forall k, k <> key ->
        RetryHandler.circuitBreakers (RetryHandler.resetCircuitBreaker h key)
          !! k
        = RetryHandler.circuitBreakers h !! k).
Proof.
  split; [| split].
  - intros Hnone. destruct h as [m d].
    unfold RetryHandler.resetCircuitBreaker. simpl in *. f_equal.
    apply map_eq. intros i. rewrite lookup_alter.
    destruct (decide (key = i)) as [<- | Hne]; [| reflexivity].
    rewrite Hnone. reflexivity.
  - intros b Hb. unfold RetryHandler.getCircuitBreakerState,
      RetryHandler.resetCircuitBreaker. simpl.
    rewrite lookup_alter. destruct (decide (key = key)); [| congruence].
    rewrite Hb. simpl. repeat split.
    intros T op w.
    rewrite (execute_through (RetryHandler.reset b) (RetryHandler.reset b)
               op w) by reflexivity.
    reflexivity.
  - intros k Hk. unfold RetryHandler.resetCircuitBreaker. simpl.
    apply lookup_alter_ne. congruence.
Qed.

Section BreakerKeeping.
Import RetryHandler.
Variable random : nat -> Q.
Context {T : Type}.
Variable op : Operation T.

Lemma onSuccess_keeps_settings b :
  threshold (onSuccess b) = threshold b
  /\ resetTimeMs (onSuccess b) = resetTimeMs b.
Proof.
  unfold onSuccess. cbv zeta.
  destruct (is_half_open _); [destruct (_ >=? 3) |]; split; reflexivity.
Qed.

Lemma onFailure_keeps_settings now b :
  threshold (onFailure now b) = threshold b
  /\ resetTimeMs (onFailure now b) = resetTimeMs b.
Proof.
  unfold onFailure. cbv zeta.
  destruct (_ >=? _); split; reflexivity.
Qed.

Lemma execute_gate_keeps_settings now b b1 :
  execute_gate now b = Some b1 ->
  threshold b1 = threshold b /\ resetTimeMs b1 = resetTimeMs b.
Proof.
  unfold execute_gate.
  destruct (is_open _); [destruct (_ <? _) |]; intros H; try discriminate;
    injection H as <-; split; reflexivity.
Qed.

Lemma execute_keeps_settings b w :
  threshold (snd (fst (execute b op w))) = threshold b
  /\ resetTimeMs (snd (fst (execute b op w))) = resetTimeMs b.
Proof.
  unfold execute.
  destruct (execute_gate (clock w) b) as [b1|] eqn:Hg;
    [| split; reflexivity].
  apply execute_gate_keeps_settings in Hg. destruct Hg as [Ht Hr].
  destruct (invoke op w) as [[v|e] w1]; cbn [fst snd].
  - destruct (onSuccess_keeps_settings b1). split; congruence.
  - destruct (onFailure_keeps_settings (clock w1) b1). split; congruence.
Qed.

Lemma same_settings_refl cb : same_settings cb cb.
Proof. destruct cb; cbn; auto. Qed.

Lemma same_settings_trans cb cb1 cb2 :
  same_settings cb cb1 -> same_settings cb1 cb2 -> same_settings cb cb2.
Proof.
  destruct cb, cb1, cb2; cbn; try tauto.
  intros [] []. split; congruence.
Qed.

Lemma attempt_once_keeps_breaker cb w :
  same_settings cb (snd (fst (attempt_once op cb w))).
Proof.
  unfold attempt_once. destruct cb as [b|].
  - pose proof (execute_keeps_settings b w) as H.
    destruct (execute b op w) as [[r b1] w1]. exact H.
  - destruct (invoke op w). exact I.
Qed.

(** The loop hands back the breaker it was given, with its settings. *)
Lemma retry_loop_keeps_breaker cfg remaining : forall a cb le w,
  same_settings cb (x_breaker (retry_loop random op cfg remaining a cb le w)).
Proof.
  induction remaining as [|r IH]; intros a cb le w; cbn [retry_loop].
  - apply same_settings_refl.
  - pose proof (attempt_once_keeps_breaker cb (log (EvStart a) w)) as Hk.
    destruct (attempt_once op cb (log (EvStart a) w)) as [[res cb1] w1].
    cbn [fst snd] in Hk.
    destruct res as [v|e]; [exact Hk |].
    destruct (negb (isRetryableError e cfg)); [exact Hk |].
    destruct (a >? maxRetries cfg); [exact Hk |].
    destruct (calculateDelay random a cfg (log (EvEnd a (Failed e)) w1))
      as [d w3].
    eapply same_settings_trans; [exact Hk | apply IH].
Qed.

Lemma executeWithRetry_handler h config key w :
  snd (fst (executeWithRetry random op h config key w))
  = store_breaker h key
      (x_breaker
         (retry_loop random op (mergeConfig (defaultConfig h) config)
            (Z.to_nat (maxRetries (mergeConfig (defaultConfig h) config) + 1))
            1 (breaker_for h (mergeConfig (defaultConfig h) config) key)
            None w)).
Proof.
  unfold executeWithRetry. cbv zeta.
  destruct (x_data _); reflexivity.
Qed.

End BreakerKeeping.

(** X5.  [executeWithRetry] touches at most the breaker of the key it is
    given: without a key (or with the empty string) the handler is left as
    it was, and with a key the breakers of the other keys are.  After the
    call the key has a breaker.  A breaker that was there keeps its
    threshold and its reset time, whatever the configuration of this call
    says; a breaker made by this call takes them from the configuration,
    5 failures and 60000 ms when it gives none. *)
Theorem X5_executeWithRetry_keeps_breakers_apart (random : nat -> Q)
    {T : Type} (op : RetryHandler.Operation T) (h : RetryHandler.Handler)
    (config : option RetryHandler.PartialRetryConfig) (key : option string)
    (w : RetryHandler.World) :
  let cfg := RetryHandler.mergeConfig (RetryHandler.defaultConfig h) config in
  let h1 := snd (fst (RetryHandler.executeWithRetry random op h config key w)) in
  (RetryHandler.key_on key = None -> h1 = h)
  /\ RetryHandler.defaultConfig h1 = RetryHandler.defaultConfig h
  /\ (forall k,
        RetryHandler.key_on key = Some k ->
        (forall k1, k1 <> k ->
           RetryHandler.circuitBreakers h1 !! k1
           = RetryHandler.circuitBreakers h !! k1)
        /\ exists b1,
             RetryHandler.circuitBreakers h1 !! k = Some b1
             /\ (forall b,
                   RetryHandler.circuitBreakers h !! k = Some b ->
                   RetryHandler.threshold b1 = RetryHandler.threshold b
                   /\ RetryHandler.resetTimeMs b1
                      = RetryHandler.resetTimeMs b)
             /\ (RetryHandler.circuitBreakers h !! k = None ->
                 RetryHandler.threshold b1
                 = match RetryHandler.circuitBreakerThreshold cfg with
                   | Some t => t
                   | None => 5
                   end
                 /\ RetryHandler.resetTimeMs b1
                    = match RetryHandler.circuitBreakerResetTimeMs cfg with
                      | Some t => t
                      | None => 60000
                      end)).
Proof.
  intros cfg h1. unfold h1. rewrite executeWithRetry_handler. fold cfg.
  pose proof (retry_loop_keeps_breaker random op cfg
                (Z.to_nat (RetryHandler.maxRetries cfg + 1)) 1
                (RetryHandler.breaker_for h cfg key) None w) as Hk.
  unfold RetryHandler.store_breaker, RetryHandler.breaker_for in *.
  destruct (RetryHandler.key_on key) as [k|].
  - split; [discriminate |].
    destruct (RetryHandler.x_breaker _) as [b1|];
      [| destruct (RetryHandler.circuitBreakers h !! k); contradiction].
    split; [reflexivity |].
    intros k0 Hk0. injection Hk0 as <-. simpl. split.
    + intros k1 Hne. apply lookup_insert_ne. congruence.
    + exists b1. rewrite lookup_insert_eq. split; [reflexivity |].
      destruct (RetryHandler.circuitBreakers h !! k) as [b|].
      * split; [| discriminate]. intros b0 Hb0. injection Hb0 as <-.
        exact Hk.
      * split; [discriminate |]. intros _. exact Hk.
  - split; [reflexivity |]. split; [reflexivity |]. discriminate.
Qed.

(** ** Retry handler: what the result reports *)

Section ResultFacts.
Import RetryHandler.
Variable random : nat -> Q.
Context {T : Type}.
Variable op : Operation T.
Variable cfg : RetryConfig.

Lemma attempt_once_clock cb w :
  clock w <= clock (snd (attempt_once op cb w)).
Proof.
  unfold attempt_once. destruct cb as [b|].
  - unfold execute. destruct (execute_gate (clock w) b); [| simpl; lia].
    unfold invoke. cbv zeta.
    destruct (op_result _); simpl; lia.
  - unfold invoke. simpl. lia.
Qed.

Lemma calculateDelay_clock a w :
  clock (snd (calculateDelay random a cfg w)) = clock w.
Proof.
  unfold calculateDelay. destruct (jitter_on cfg); reflexivity.
Qed.

(** The loop ends on the end of an attempt, and hands back what that
    attempt gave. *)
Lemma retry_loop_last remaining : forall a cb le w,
  Z.of_nat remaining = maxRetries cfg + 2 - a -> remaining <> O ->
  let x := retry_loop random op cfg remaining a cb le w in
  clock w <= clock (x_world x)
  /\ exists pre res,
       trace (x_world x) = trace w ++ pre ++ [EvEnd (x_attempts x) res]
       /\ match res with
          | Succeeded => exists v, x_data x = Some v
          | Failed e => x_data x = None /\ x_lastError x = Some e
          end.
Proof.
  induction remaining as [|r IH]; intros a cb le w Hrem Hnz;
    [congruence |].
  cbn [retry_loop]. cbv zeta.
  pose proof (attempt_once_clock cb (log (EvStart a) w)) as Hc.
  destruct (attempt_once op cb (log (EvStart a) w)) as [[res cb1] w1] eqn:E.
  destruct (attempt_once_events _ _ _ _ _ _ E) as (inv & _ & Htr & _).
  cbn [snd] in Hc. cbn [log clock trace] in Hc, Htr.
  assert (Hend : forall r0,
            trace (log (EvEnd a r0) w1)
            = trace w ++ (EvStart a :: inv) ++ [EvEnd a r0]).
  { intros r0. cbn [log trace]. rewrite Htr, <- !app_assoc. reflexivity. }
  destruct res as [v|e].
  - cbn. split; [exact Hc |].
    exists (EvStart a :: inv), Succeeded. split; [apply Hend | eauto].
  - destruct (negb (isRetryableError e cfg));
      [cbn; split; [exact Hc |];
       exists (EvStart a :: inv), (Failed e); split; [apply Hend | auto] |].
    destruct (Z.gtb_spec a (maxRetries cfg)) as [G|G];
      [cbn; split; [exact Hc |];
       exists (EvStart a :: inv), (Failed e); split; [apply Hend | auto] |].
    pose proof (calculateDelay_clock a (log (EvEnd a (Failed e)) w1)) as Hd.
    pose proof (calculateDelay_world random cfg a
                  (log (EvEnd a (Failed e)) w1)) as Hw.
    destruct (calculateDelay random a cfg (log (EvEnd a (Failed e)) w1))
      as [d w3].
    cbn [snd] in Hd, Hw. destruct Hw as (_ & _ & Hw3).
    destruct (IH (a + 1) cb1 (Some e) (sleep d w3)) as (Hc2 & pre & r0 & Ht & Hr);
      [lia | lia |].
    split.
    + cbn [sleep clock log] in Hc2. rewrite Hd in Hc2. cbn in Hc2. lia.
    + exists ((EvStart a :: inv) ++ [EvEnd a (Failed e); EvSleep d] ++ pre), r0.
      split; [| exact Hr].
      rewrite Ht. cbn [sleep trace]. rewrite Hw3, Hend.
      rewrite <- !app_assoc. reflexivity.
Qed.

End ResultFacts.

(** X6.  With a retry budget [maxRetries >= 0], the result of
    [executeWithRetry] reports the last attempt: the last event of the run
    is the end of attempt number [attempts]; if that attempt succeeded the
    result has [success = true], the data and no error, and if it failed
    the result has [success = false], no data and the error of that very
    attempt.  [totalTime] is the time the run took, and is not negative. *)
Theorem X6_result_reports_last_attempt (random : nat -> Q) {T : Type}
    (op : RetryHandler.Operation T) (h : RetryHandler.Handler)
    (config : option RetryHandler.PartialRetryConfig) (key : option string)
    (w : RetryHandler.World) :
  0 <= RetryHandler.maxRetries
         (RetryHandler.mergeConfig (RetryHandler.defaultConfig h) config) ->
  let res := RetryHandler.executeWithRetry random op h config key w in
  let r := fst (fst res) in
  let w1 := snd res in
  RetryHandler.totalTime r = RetryHandler.clock w1 - RetryHandler.clock w
  /\ 0 <= RetryHandler.totalTime r
  /\ exists pre last,
       RetryHandler.trace w1
       = RetryHandler.trace w ++ pre
         ++ [RetryHandler.EvEnd (RetryHandler.attempts r) last]
       /\ match last with
          | RetryHandler.Succeeded =>
              RetryHandler.success r = true
              /\ (exists v, RetryHandler.data r = Some v)
              /\ RetryHandler.error r = None
          | RetryHandler.Failed e =>
              RetryHandler.success r = false
              /\ RetryHandler.data r = None
              /\ RetryHandler.error r = Some e
          end.
Proof.
  intros Hmax res r w1. subst r w1 res.
  set (cfg := RetryHandler.mergeConfig (RetryHandler.defaultConfig h) config)
    in *.
  destruct (retry_loop_last random op cfg
              (Z.to_nat (RetryHandler.maxRetries cfg + 1)) 1
              (RetryHandler.breaker_for h cfg key) None w)
    as (Hc & pre & last & Ht & Hl); [lia | lia |].
  unfold RetryHandler.executeWithRetry. cbv zeta. fold cfg.
  destruct (RetryHandler.x_data _) as [v|] eqn:Ed; cbn.
  - split; [reflexivity |]. split; [lia |].
    exists pre, last. split; [exact Ht |].
    destruct last as [|e]; [eauto | destruct Hl; discriminate].
  - split; [reflexivity |]. split; [lia |].
    exists pre, last. split; [exact Ht |].
    destruct last as [|e]; [destruct Hl; discriminate |].
    destruct Hl as [_ ->]. auto.
Qed.

Lemma X6_result_reports_last_attempt_witness :
  RetryHandler.success
    (fst (fst (RetryHandler.executeWithRetry half fails_twice_then_succeeds
                 api_handler (Some test_overrides) None fresh_world)))
  = true.
Proof.
  destruct (X6_result_reports_last_attempt half fails_twice_then_succeeds
              api_handler (Some test_overrides) None fresh_world)
    as (_ & _ & pre & last & Ht & Hl); [vm_compute; discriminate |].
  destruct last as [|e]; [apply Hl |].
  destruct Hl as (Hs & _). vm_compute in Hs. discriminate.
Defined.

(** X7.  [executeWithRetry] on a key whose breaker is open, before its reset
    time has elapsed, under a policy that does not list the breaker's own
    message among its retryable errors: the run is one attempt that never
    calls the operation, takes no time and does not sleep; the result is a
    failure carrying the breaker's error, and the handler is left as it
    was. *)
Theorem X7_open_breaker_fails_fast (random : nat -> Q) {T : Type}
    (op : RetryHandler.Operation T) (h : RetryHandler.Handler)
    (config : option RetryHandler.PartialRetryConfig) (key : option string)
    (k : string) (b : RetryHandler.CircuitBreaker) (w : RetryHandler.World) :
  let cfg := RetryHandler.mergeConfig (RetryHandler.defaultConfig h) config in
  0 <= RetryHandler.maxRetries cfg ->
  RetryHandler.key_on key = Some k ->
  RetryHandler.circuitBreakers h !! k = Some b ->
  RetryHandler.state b = RetryHandler.OPEN ->
  RetryHandler.clock w - RetryHandler.lastFailureTime b
  < RetryHandler.resetTimeMs b ->
  RetryHandler.isRetryableError RetryHandler.breaker_open_error cfg = false ->
  RetryHandler.executeWithRetry random op h config key w
  = (RetryHandler.mkResult false None
       (Some RetryHandler.breaker_open_error) 1 0,
     h,
     RetryHandler.mkWorld (RetryHandler.clock w) (RetryHandler.invoked w)
       (RetryHandler.drawn w)
       (RetryHandler.trace w
        ++ [RetryHandler.EvStart 1;
            RetryHandler.EvEnd 1
              (RetryHandler.Failed RetryHandler.breaker_open_error)])).
Proof.
  intros cfg Hmax Hkey Hb Hopen Hearly Hnot.
  unfold RetryHandler.executeWithRetry. cbv zeta. fold cfg.
  unfold RetryHandler.breaker_for, RetryHandler.store_breaker.
  rewrite Hkey, Hb.
  destruct (Z.to_nat (RetryHandler.maxRetries cfg + 1)) as [|r] eqn:Hr;
    [lia |].
  cbn [RetryHandler.retry_loop RetryHandler.attempt_once].
  unfold RetryHandler.execute.
  rewrite (execute_gate_open_early _ _ Hopen)
    by (cbn [RetryHandler.log RetryHandler.clock]; exact Hearly).
  rewrite Hnot.
  cbn [negb RetryHandler.x_data RetryHandler.x_breaker RetryHandler.x_world
       RetryHandler.x_attempts RetryHandler.x_lastError RetryHandler.log
       RetryHandler.clock RetryHandler.invoked RetryHandler.drawn
       RetryHandler.trace].
  rewrite Z.sub_diag. unfold RetryHandler.log.
  cbn [RetryHandler.clock RetryHandler.invoked RetryHandler.drawn
       RetryHandler.trace].
  rewrite <- app_assoc. cbn [app].
  f_equal. f_equal.
  destruct h as [m d]. cbn in *. f_equal.
  apply insert_id. exact Hb.
Qed.

Lemma X7_open_breaker_fails_fast_witness :
  let b := RetryHandler.mkBreaker RetryHandler.OPEN 3 100 0 3 30000 in
  let h :=
    RetryHandler.mkHandler (<["wordpress"%string := b]> (∅ : gmap string _))
      RetryHandler.DEFAULT_RETRY_CONFIGS_api in
  RetryHandler.attempts
    (fst (fst (RetryHandler.executeWithRetry half succeeding_op h None
                 (Some "wordpress"%string) (RetryHandler.mkWorld 200 0 0 []))))
  = 1.
Proof.
  intros b h.
  rewrite (X7_open_breaker_fails_fast half succeeding_op h None
             (Some "wordpress"%string) "wordpress"%string b
             (RetryHandler.mkWorld 200 0 0 [])).
  - reflexivity.
  - vm_compute. discriminate.
  - reflexivity.
  - apply lookup_insert_eq.
  - reflexivity.
  - vm_compute. reflexivity.
  - reflexivity.
Defined.

(** ** Retry handler: classification against the retry decision *)

(** X8.  An error that is not a [RetryableError] instance and that
    [categorizeError] classifies as network, timeout or rate-limit is
    retryable under every policy; one classified as server is retryable
    exactly when its status is 500, 502, 503 or 504, or its message has one
    of the built-in words or one of the policy's own. *)
Theorem X8_classified_transient_is_retryable (m : option string)
    (rs sc : option Z) (cfg : RetryHandler.RetryConfig) :
  let e := RetryHandler.PlainError m rs sc in
  (RetryHandler.categorizeError e = RetryHandler.NETWORK
   \/ RetryHandler.categorizeError e = RetryHandler.TIMEOUT
   \/ RetryHandler.categorizeError e = RetryHandler.RATE_LIMIT ->
   RetryHandler.isRetryableError e cfg = true)
  /\ (RetryHandler.categorizeError e = RetryHandler.SERVER ->
      exists s,
        RetryHandler.status_of e = Some s /\ 500 <= s
        /\ RetryHandler.isRetryableError e cfg
           = existsb (Js.includes (RetryHandler.lowered_message e))
               RetryHandler.network_words
             || existsb (Z.eqb s) [500; 502; 503; 504]
             || match RetryHandler.retryableErrors cfg with
                | Some l =>
                    existsb
                      (fun r =>
                         Js.includes (RetryHandler.lowered_message e)
                           (Js.toLowerCase r)) l
                | None => false
                end).
Proof.
  intros e. subst e.
  unfold RetryHandler.categorizeError, RetryHandler.isRetryableError.
  cbv zeta.
  set (msg := RetryHandler.lowered_message _).
  unfold RetryHandler.network_words, RetryHandler.retryableStatusCodes.
  cbn [existsb].
  destruct (RetryHandler.status_of _) as [s|]; cbn [RetryHandler.status_is].
  - destruct ((s =? 401) || (s =? 403)) eqn:E1;
      [split; [intros [|[|]] |]; discriminate |].
    destruct (Z.eqb_spec s 429) as [E2|E2].
    { split; [| discriminate]. intros _. subst s. clear E1.
      destruct (Js.includes msg "network" || _); reflexivity. }
    destruct ((s >=? 400) && (s <? 500)) eqn:E3;
      [split; [intros [|[|]] |]; discriminate |].
    destruct (Z.geb_spec s 500) as [E4|E4].
    + split; [intros [|[|]]; discriminate |]. intros _.
      exists s. split; [reflexivity |]. split; [lia |].
      destruct (Z.eqb_spec s 408); [lia |].
      destruct (Z.eqb_spec s 429); [lia |].
      destruct (Js.includes msg "network" || _); [reflexivity |].
      rewrite !orb_false_r. cbn [orb].
      destruct ((s =? 500) || _); reflexivity.
    + destruct (Js.includes msg "timeout") eqn:Ht;
        [rewrite orb_true_r; split; [reflexivity | discriminate] |].
      destruct (Js.includes msg "network") eqn:Hn;
        [split; [reflexivity | discriminate] |].
      destruct (Js.includes msg "connection") eqn:Hc;
        [split; [reflexivity | discriminate] |].
      destruct (Js.includes msg "econnreset") eqn:He;
        [split; [reflexivity | discriminate] |].
      destruct (Js.includes msg "enotfound") eqn:Hf;
        [split; [reflexivity | discriminate] |].
      cbn [orb]. destruct (Js.includes msg "validation" || _);
        split; try discriminate;
        intros [|[|]]; discriminate.
  - destruct (Js.includes msg "timeout") eqn:Ht;
      [rewrite orb_true_r; split; [reflexivity | discriminate] |].
    destruct (Js.includes msg "network") eqn:Hn;
      [split; [reflexivity | discriminate] |].
    destruct (Js.includes msg "connection") eqn:Hc;
      [split; [reflexivity | discriminate] |].
    destruct (Js.includes msg "econnreset") eqn:He;
      [split; [reflexivity | discriminate] |].
    destruct (Js.includes msg "enotfound") eqn:Hf;
      [split; [reflexivity | discriminate] |].
    cbn [orb]. destruct (Js.includes msg "validation" || _);
        split; try discriminate;
      intros [|[|]]; discriminate.
Qed.

(** ** Retry handler: the delay *)

Section DelayFacts.
Import RetryHandler.
Variable random : nat -> Q.
Variable cfg : RetryConfig.
Hypothesis random_unit : forall i, (0 <= random i /\ random i < 1)%Q.
Hypothesis jitter_nonneg : forall j, jitterMs cfg = Some j -> (0 <= j)%Q.
Hypothesis base_nonneg : (0 <= baseDelayMs cfg)%Q.

Lemma jitter_on_nonneg j : jitter_on cfg = Some j -> (0 <= j)%Q.
Proof.
  unfold jitter_on. destruct (jitterMs cfg) as [j0|] eqn:E; [| discriminate].
  destruct (Qeq_bool j0 0); [discriminate |].
  intros H. injection H as <-. auto.
Qed.

Lemma pow2_step a : 1 <= a -> (2 ^ (a - 1) <= 2 ^ (a + 1 - 1))%Q.
Proof.
  intros Ha.
  replace (a + 1 - 1) with ((a - 1) + 1) by lia.
  rewrite Qpower_plus by discriminate.
  assert (H : (0 <= 2 ^ (a - 1))%Q) by (apply Qpower_0_le; discriminate).
  change (2 ^ 1)%Q with 2%Q. lra.
Qed.

Lemma backoff_part_mono a :
  1 <= a ->
  ((if exponentialBackoff cfg
    then Qmin (baseDelayMs cfg * 2 ^ (a - 1)) (maxDelayMs cfg)
    else baseDelayMs cfg)
   <= (if exponentialBackoff cfg
       then Qmin (baseDelayMs cfg * 2 ^ (a + 1 - 1)) (maxDelayMs cfg)
       else baseDelayMs cfg))%Q.
Proof.
  intros Ha. destruct (exponentialBackoff cfg); [| apply Qle_refl].
  apply Q.min_le_compat_r.
  pose proof (pow2_step a Ha).
  assert (H0 : (0 <= 2 ^ (a - 1))%Q) by (apply Qpower_0_le; discriminate).
  nra.
Qed.

Lemma backoff_part_nonneg a :
  (0 <= maxDelayMs cfg)%Q ->
  (0 <= (if exponentialBackoff cfg
         then Qmin (baseDelayMs cfg * 2 ^ (a - 1)) (maxDelayMs cfg)
         else baseDelayMs cfg))%Q.
Proof.
  intros Hm. destruct (exponentialBackoff cfg); [| exact base_nonneg].
  apply Q.min_glb; [| exact Hm].
  assert (H0 : (0 <= 2 ^ (a - 1))%Q) by (apply Qpower_0_le; discriminate).
  nra.
Qed.

End DelayFacts.

(** X9.  With a base delay and a jitter that are not negative and
    [Math.random ()] in [0, 1): the delay [calculateDelay] returns never
    exceeds [maxDelayMs]; it is not negative when [maxDelayMs] is not; and
    for the same random draw it does not decrease from one attempt to the
    next. *)
Theorem X9_delay_bounded_and_monotone (random : nat -> Q)
    (cfg : RetryHandler.RetryConfig) (a : Z) (w : RetryHandler.World) :
  (forall i, 0 <= random i /\ random i < 1)%Q ->
  (forall j, RetryHandler.jitterMs cfg = Some j -> 0 <= j)%Q ->
  (0 <= RetryHandler.baseDelayMs cfg)%Q ->
  1 <= a ->
  (fst (RetryHandler.calculateDelay random a cfg w)
   <= RetryHandler.maxDelayMs cfg)%Q
  /\ ((0 <= RetryHandler.maxDelayMs cfg)%Q ->
      (0 <= fst (RetryHandler.calculateDelay random a cfg w))%Q)
  /\ (fst (RetryHandler.calculateDelay random a cfg w)
      <= fst (RetryHandler.calculateDelay random (a + 1) cfg w))%Q.
Proof.
  intros Hr Hj Hb Ha.
  pose proof (backoff_part_mono cfg Hb a Ha) as Hmono.
  pose proof (backoff_part_nonneg cfg Hb a) as Hnn.
  pose proof (jitter_on_nonneg cfg Hj) as Hjn.
  unfold RetryHandler.calculateDelay. cbv zeta.
  destruct (RetryHandler.jitter_on cfg) as [j|]; cbn [fst].
  - specialize (Hjn j eq_refl). destruct (Hr (RetryHandler.drawn w)) as [H0 _].
    split; [apply Q.le_min_r |]. split.
    + intros Hm. specialize (Hnn Hm).
      apply Q.min_glb; [| exact Hm]. nra.
    + apply Q.min_le_compat_r. lra.
  - split; [apply Q.le_min_r |]. split.
    + intros Hm. apply Q.min_glb; auto.
    + apply Q.min_le_compat_r. exact Hmono.
Qed.

Lemma X9_delay_bounded_and_monotone_witness :
  (fst (RetryHandler.calculateDelay half 2
          RetryHandler.DEFAULT_RETRY_CONFIGS_network fresh_world)
   <= fst (RetryHandler.calculateDelay half (2 + 1)
             RetryHandler.DEFAULT_RETRY_CONFIGS_network fresh_world))%Q.
Proof.
  apply (X9_delay_bounded_and_monotone half
           RetryHandler.DEFAULT_RETRY_CONFIGS_network 2 fresh_world).
  - intros i. split; vm_compute; [discriminate | reflexivity].
  - intros j H. injection H as <-. vm_compute. discriminate.
  - vm_compute. discriminate.
  - lia.
Defined.

(** ** Tester: the results for several platforms *)

Section MultipleResults.
Variable content : ContentTester.AIContent.

Lemma tested_results_complete platforms : forall acc p,
  In p platforms
  \/ JsMap.get p acc = Some (ContentTester.testContentForPlatform content p) ->
  JsMap.get p
    (fold_left
       (fun results platform =>
          JsMap.set platform
            (ContentTester.testContentForPlatform content platform) results)
       platforms acc)
  = Some (ContentTester.testContentForPlatform content p).
Proof.
  induction platforms as [|q ps IH]; intros acc p H; simpl.
  - destruct H as [[] | H]; exact H.
  - apply IH. rewrite JsMap_get_set.
    destruct (String.eqb_spec q p) as [-> | Hne]; [right; reflexivity |].
    destruct H as [[H | H] | H]; [contradiction | left; exact H | right; exact H].
Qed.

Lemma tested_results_keys platforms : forall acc k,
  In k
    (map fst
       (fold_left
          (fun results platform =>
             JsMap.set platform
               (ContentTester.testContentForPlatform content platform) results)
          platforms acc)) ->
  In k platforms \/ In k (map fst acc).
Proof.
  induction platforms as [|q ps IH]; intros acc k H; simpl in *.
  - right. exact H.
  - destruct (IH _ _ H) as [H1 | H1]; [left; right; exact H1 |].
    rewrite JsMap_set_keys in H1.
    destruct (JsMap.has q acc); [right; exact H1 |].
    rewrite in_app_iff in H1. simpl in H1.
    destruct H1 as [H1 | [H1 | []]]; [right; exact H1 | left; left; exact H1].
Qed.

Lemma tested_results_NoDup platforms : forall acc,
  NoDup (map fst acc) ->
  NoDup
    (map fst
       (fold_left
          (fun results platform =>
             JsMap.set platform
               (ContentTester.testContentForPlatform content platform) results)
          platforms acc)).
Proof.
  induction platforms as [|q ps IH]; intros acc Hnd; simpl; [exact Hnd |].
  apply IH. rewrite JsMap_set_keys.
  destruct (JsMap.has q acc) eqn:Eh; [exact Hnd |].
  apply NoDup_snoc; [exact (JsMap_has_In _ _ Eh) | exact Hnd].
Qed.

Lemma JsMap_get_None_keys {V} (k : string) (m : list (string * V)) :
  JsMap.get k m = None -> ~ In k (map fst m).
Proof.
  intros H. apply JsMap_has_In. unfold JsMap.has. rewrite H. reflexivity.
Qed.

Lemma JsMap_In_get {V} (k : string) (v : V) (m : list (string * V)) :
  NoDup (map fst m) -> In (k, v) m -> JsMap.get k m = Some v.
Proof.
  intros Hnd Hin. destruct (JsMap.get k m) as [v1|] eqn:E.
  - f_equal. exact (NoDup_keys_unique k v1 v m Hnd (JsMap_get_In _ _ _ E) Hin).
  - exfalso. apply (JsMap_get_None_keys _ _ E).
    apply in_map_iff. exists (k, v). split; [reflexivity | exact Hin].
Qed.

(** Every platform asked for is compatible exactly when every result held
    by the map is. *)
Lemma all_results_compatible platforms :
  forallb ContentTester.isCompatible
    (JsMap.values
       (ContentTester.testContentForMultiplePlatforms content platforms))
  = forallb (compatible_with content) platforms.
Proof.
  unfold ContentTester.testContentForMultiplePlatforms, JsMap.values.
  apply eq_true_iff_eq. rewrite !forallb_forall. split.
  - intros H p Hp.
    pose proof (tested_results_complete platforms [] p (or_introl Hp)) as Hg.
    apply JsMap_get_In in Hg.
    apply (H (ContentTester.testContentForPlatform content p)).
    apply in_map_iff. eexists. split; [| exact Hg]. reflexivity.
  - intros H r Hr. apply in_map_iff in Hr as [[k r0] [<- Hin]]. simpl.
    assert (Hk : In k platforms).
    { destruct (tested_results_keys platforms [] k) as [Hk | []]; [| exact Hk].
      apply in_map_iff. exists (k, r0). split; [reflexivity | exact Hin]. }
    assert (Hg := JsMap_In_get k r0 _
                    (tested_results_NoDup platforms [] (NoDup_nil _)) Hin).
    rewrite (tested_results_sound content platforms [] (fun _ _ H0 =>
               ltac:(discriminate H0)) k r0 Hg).
    apply H. exact Hk.
Qed.

End MultipleResults.

(** X10.  The map [testContentForMultiplePlatforms] returns holds a result
    for a platform exactly when the platform was asked for; the result is
    the one [testContentForPlatform] gives for that platform, and a platform
    asked for twice has one entry. *)
Theorem X10_results_for_requested_platforms
    (content : ContentTester.AIContent)
    (platforms : list ContentTester.PlatformType)
    (p : ContentTester.PlatformType) :
  let results :=
    ContentTester.testContentForMultiplePlatforms content platforms in
  (In p platforms ->
   JsMap.get p results
   = Some (ContentTester.testContentForPlatform content p))
  /\ (~ In p platforms -> JsMap.get p results = None)
  /\ NoDup (map fst results).
Proof.
  intros results. subst results.
  unfold ContentTester.testContentForMultiplePlatforms. split; [| split].
  - intros Hp. apply tested_results_complete. left. exact Hp.
  - intros Hp.
    destruct (JsMap.get p _) as [r|] eqn:E; [| reflexivity].
    exfalso. apply Hp.
    destruct (tested_results_keys content platforms [] p) as [H | []];
      [| exact H].
    apply JsMap_get_In in E. apply in_map_iff.
    exists (p, r). split; [reflexivity | exact E].
  - apply tested_results_NoDup. constructor.
Qed.

(** ** Scheduler: the queue *)

Lemma JsMap_set_keys_present {V} (k : string) (v v0 : V)
    (m : list (string * V)) :
  JsMap.get k m = Some v0 -> map fst (JsMap.set k v m) = map fst m.
Proof.
  intros H. rewrite JsMap_set_keys. unfold JsMap.has. rewrite H. reflexivity.
Qed.

Lemma update_missing contentId u s w :
  JsMap.get contentId (ContentScheduler.contentQueue s) = None ->
  ContentScheduler.update contentId u s w = s.
Proof.
  intros H. unfold ContentScheduler.update, ContentScheduler.updateQueuedContent.
  rewrite H. reflexivity.
Qed.

Lemma update_same contentId u s w c :
  JsMap.get contentId (ContentScheduler.contentQueue s) = Some c ->
  JsMap.get contentId
    (ContentScheduler.contentQueue (ContentScheduler.update contentId u s w))
  = Some (ContentScheduler.apply_updates c u (Publishing.now w)).
Proof.
  intros H. unfold ContentScheduler.update, ContentScheduler.updateQueuedContent.
  rewrite H. simpl. rewrite JsMap_get_set, String.eqb_refl. reflexivity.
Qed.

Lemma update_keys contentId u s w :
  map fst
    (ContentScheduler.contentQueue (ContentScheduler.update contentId u s w))
  = map fst (ContentScheduler.contentQueue s).
Proof.
  unfold ContentScheduler.update, ContentScheduler.updateQueuedContent.
  destruct (JsMap.get contentId (ContentScheduler.contentQueue s)) eqn:E;
    [| reflexivity].
  simpl. eapply JsMap_set_keys_present. exact E.
Qed.

Lemma update_config contentId u s w :
  ContentScheduler.scheduleConfig (ContentScheduler.update contentId u s w)
  = ContentScheduler.scheduleConfig s.
Proof.
  unfold ContentScheduler.update, ContentScheduler.updateQueuedContent.
  destruct (JsMap.get contentId (ContentScheduler.contentQueue s));
    reflexivity.
Qed.

Lemma update_well_keyed contentId u s w :
  ContentScheduler.u_id u = None ->
  well_keyed (ContentScheduler.contentQueue s) ->
  well_keyed
    (ContentScheduler.contentQueue (ContentScheduler.update contentId u s w)).
Proof.
  intros Hu Hwk.
  unfold ContentScheduler.update, ContentScheduler.updateQueuedContent.
  destruct (JsMap.get contentId (ContentScheduler.contentQueue s)) as [c|]
    eqn:E; [| exact Hwk].
  simpl. apply set_well_keyed; [| exact Hwk].
  simpl. rewrite Hu. destruct Hwk as [_ Hkeys].
  rewrite Forall_forall in Hkeys.
  exact (Hkeys _ (JsMap_get_In _ _ _ E)).
Qed.

(** X11.  [updateQueuedContent] on an identifier that is not queued returns
    [false] and changes nothing.  On a queued identifier it returns [true]
    and puts under that identifier the spread of the item and the updates:
    every property the updates carry, [id] and [createdAt] included,
    overrides the item's, the others are kept, and [updatedAt] is the
    current time whatever the updates carry.  The entry stays under the
    identifier given, also when the updates carry another [id]; the items
    under the other identifiers, the identifiers of the queue and their
    order are untouched; and a queue that holds each item under its own
    identifier still does when the updates carry no [id]. *)
Theorem X11_updateQueuedContent (contentId : string)
    (updates : ContentScheduler.Updates) (s : ContentScheduler.Scheduler)
    (w : Publishing.World) :
  let r := ContentScheduler.updateQueuedContent contentId updates s w in
  (ContentScheduler.getQueuedContent contentId s = None ->
   r = (false, s))
  /\ (forall c,
        ContentScheduler.getQueuedContent contentId s = Some c ->
        fst r = true
        /\ exists c1,
             ContentScheduler.getQueuedContent contentId (snd r) = Some c1
             /\ ContentScheduler.updatedAt c1 = Publishing.now w
             /\ ContentScheduler.createdAt c1
                = spread (ContentScheduler.u_createdAt updates)
                    (ContentScheduler.createdAt c)
             /\ ContentScheduler.id c1
                = spread (ContentScheduler.u_id updates)
                    (ContentScheduler.id c)
             /\ ContentScheduler.content c1
                = spread (ContentScheduler.u_content updates)
                    (ContentScheduler.content c)
             /\ ContentScheduler.platforms c1
                = spread (ContentScheduler.u_platforms updates)
                    (ContentScheduler.platforms c)
             /\ ContentScheduler.scheduledFor c1
                = spread (ContentScheduler.u_scheduledFor updates)
                    (ContentScheduler.scheduledFor c)
             /\ ContentScheduler.priority c1
                = spread (ContentScheduler.u_priority updates)
                    (ContentScheduler.priority c)
             /\ ContentScheduler.status c1
                = spread (ContentScheduler.u_status updates)
                    (ContentScheduler.status c)
             /\ ContentScheduler.testResults c1
                = spread_opt (ContentScheduler.u_testResults updates)
                    (ContentScheduler.testResults c)
             /\ ContentScheduler.publishResults c1
                = spread_opt (ContentScheduler.u_publishResults updates)
                    (ContentScheduler.publishResults c)
             /\ ContentScheduler.retryCount c1
                = spread_opt (ContentScheduler.u_retryCount updates)
                    (ContentScheduler.retryCount c))
  /\ (forall k, k <> contentId ->
        ContentScheduler.getQueuedContent k (snd r)
        = ContentScheduler.getQueuedContent k s)
  /\ map fst (ContentScheduler.contentQueue (snd r))
     = map fst (ContentScheduler.contentQueue s)
  /\ (ContentScheduler.u_id updates = None ->
      well_keyed (ContentScheduler.contentQueue s) ->
      well_keyed (ContentScheduler.contentQueue (snd r))).
Proof.
  intros r. subst r. unfold ContentScheduler.getQueuedContent.
  split; [| split; [| split; [| split]]].
  - intros H. unfold ContentScheduler.updateQueuedContent. rewrite H.
    reflexivity.
  - intros c H. split.
    + unfold ContentScheduler.updateQueuedContent. rewrite H. reflexivity.
    + eexists. split; [exact (update_same contentId updates s w c H) |].
      repeat split.
  - intros k Hk. apply (update_other contentId updates s w k). congruence.
  - exact (update_keys contentId updates s w).
  - apply update_well_keyed.
Qed.

Lemma JsMap_get_delete {V} (k k1 : string) (m : list (string * V)) :
  NoDup (map fst m) ->
  JsMap.get k (JsMap.delete k1 m)
  = if String.eqb k1 k then None else JsMap.get k m.
Proof.
  induction m as [|[k2 v2] r IH]; simpl; intros Hnd.
  - destruct (String.eqb k1 k); reflexivity.
  - apply NoDup_cons_iff in Hnd as [Hnotin Hnd].
    destruct (String.eqb_spec k2 k1) as [-> | Hne].
    + destruct (String.eqb_spec k1 k) as [-> | Hne2]; [| reflexivity].
      destruct (JsMap.get k r) eqn:E; [| reflexivity].
      exfalso. apply Hnotin. apply JsMap_get_In in E.
      apply in_map_iff. eexists. split; [| exact E]. reflexivity.
    + simpl. rewrite (IH Hnd).
      destruct (String.eqb_spec k2 k) as [-> | Hne2]; [| reflexivity].
      destruct (String.eqb_spec k1 k); [congruence | reflexivity].
Qed.

Lemma JsMap_delete_missing {V} (k : string) (m : list (string * V)) :
  JsMap.get k m = None -> JsMap.delete k m = m.
Proof.
  induction m as [|[k2 v2] r IH]; simpl; [reflexivity |].
  destruct (String.eqb k2 k); [discriminate |].
  intros H. rewrite (IH H). reflexivity.
Qed.

Lemma JsMap_delete_length {V} (k : string) (v : V) (m : list (string * V)) :
  JsMap.get k m = Some v ->
  S (List.length (JsMap.delete k m)) = List.length m.
Proof.
  induction m as [|[k2 v2] r IH]; simpl; [discriminate |].
  destruct (String.eqb k2 k); [reflexivity |].
  intros H. simpl. rewrite (IH H). reflexivity.
Qed.

(** X12.  [removeFromQueue] answers whether the identifier was queued.
    Afterwards the identifier is not queued, the queue is one item shorter
    if it was, and the items under the other identifiers are untouched;
    removing an identifier that is not queued changes nothing. *)
Theorem X12_removeFromQueue (contentId : string)
    (s : ContentScheduler.Scheduler) :
  NoDup (map fst (ContentScheduler.contentQueue s)) ->
  let r := ContentScheduler.removeFromQueue contentId s in
  (fst r = true <-> exists c,
      ContentScheduler.getQueuedContent contentId s = Some c)
  /\ ContentScheduler.getQueuedContent contentId (snd r) = None
  /\ (forall k, k <> contentId ->
        ContentScheduler.getQueuedContent k (snd r)
        = ContentScheduler.getQueuedContent k s)
  /\ (fst r = true ->
      S (List.length (ContentScheduler.getAllQueuedContent (snd r)))
      = List.length (ContentScheduler.getAllQueuedContent s))
  /\ (fst r = false -> snd r = s).
Proof.
  intros Hnd r. subst r.
  unfold ContentScheduler.removeFromQueue, ContentScheduler.getQueuedContent,
    ContentScheduler.getAllQueuedContent, JsMap.has, JsMap.values.
  cbn [fst snd ContentScheduler.with_queue ContentScheduler.contentQueue].
  split; [| split; [| split; [| split]]].
  - destruct (JsMap.get contentId _) as [c|]; split; eauto;
      [discriminate | intros [c H]; discriminate].
  - rewrite JsMap_get_delete by exact Hnd. rewrite String.eqb_refl.
    reflexivity.
  - intros k Hk. rewrite JsMap_get_delete by exact Hnd.
    destruct (String.eqb_spec contentId k); [congruence | reflexivity].
  - destruct (JsMap.get contentId _) as [c|] eqn:E; [| discriminate].
    intros _. rewrite !length_map. exact (JsMap_delete_length _ _ _ E).
  - destruct (JsMap.get contentId _) as [c|] eqn:E; [discriminate |].
    intros _. rewrite (JsMap_delete_missing _ _ E).
    destruct s; reflexivity.
Qed.

Lemma X12_removeFromQueue_witness :
  ContentScheduler.getQueuedContent "second"
    (snd (ContentScheduler.removeFromQueue "second" three_ready)) = None.
Proof.
  apply (X12_removeFromQueue "second" three_ready).
  apply new_ContentScheduler_well_keyed.
Defined.

Lemma getQueuedContent_with_queue_set k c s :
  ContentScheduler.getQueuedContent k
    (ContentScheduler.with_queue
       (JsMap.set k c (ContentScheduler.contentQueue s)) s)
  = Some c.
Proof.
  unfold ContentScheduler.getQueuedContent. simpl.
  rewrite JsMap_get_set, String.eqb_refl. reflexivity.
Qed.

Lemma testContent_other qc s w k :
  k <> ContentScheduler.id qc ->
  ContentScheduler.getQueuedContent k (ContentScheduler.testContent qc s w)
  = ContentScheduler.getQueuedContent k s.
Proof.
  intros Hk. unfold ContentScheduler.testContent,
    ContentScheduler.getQueuedContent. cbv zeta.
  rewrite !update_other by congruence. reflexivity.
Qed.

Lemma testContent_same qc s w c :
  ContentScheduler.getQueuedContent (ContentScheduler.id qc) s = Some c ->
  ContentScheduler.getQueuedContent (ContentScheduler.id qc)
    (ContentScheduler.testContent qc s w)
  = Some
      (ContentScheduler.mkQueued (ContentScheduler.id c)
         (ContentScheduler.content c) (ContentScheduler.platforms c)
         (ContentScheduler.scheduledFor c) (ContentScheduler.priority c)
         (if forallb (compatible_with (ContentScheduler.content qc))
               (ContentScheduler.platforms qc)
          then Publishing.ready else Publishing.pending)
         (Some
            (ContentTester.testContentForMultiplePlatforms
               (ContentScheduler.content qc) (ContentScheduler.platforms qc)))
         (ContentScheduler.publishResults c) (ContentScheduler.retryCount c)
         (ContentScheduler.createdAt c) (Publishing.now w)).
Proof.
  intros H. unfold ContentScheduler.testContent,
    ContentScheduler.getQueuedContent in *. cbv zeta.
  erewrite update_same; [| apply update_same; exact H].
  rewrite all_results_compatible. reflexivity.
Qed.

(** X13.  [testContent] on an item whose identifier is queued stores the
    test results of the item's platforms with the queued item and sets its
    status to ready when every platform is compatible, to pending
    otherwise (so an item with no platform becomes ready); the schedule,
    the retry count and the other items are untouched.  On an item whose
    identifier is not queued it changes nothing. *)
Theorem X13_testContent (qc : ContentScheduler.QueuedContent)
    (s : ContentScheduler.Scheduler) (w : Publishing.World) :
  let s1 := ContentScheduler.testContent qc s w in
  (ContentScheduler.getQueuedContent (ContentScheduler.id qc) s = None ->
   s1 = s)
  /\ (forall c,
        ContentScheduler.getQueuedContent (ContentScheduler.id qc) s = Some c ->
        exists c1,
          ContentScheduler.getQueuedContent (ContentScheduler.id qc) s1
          = Some c1
          /\ (ContentScheduler.status c1 = Publishing.ready <->
              forall p, In p (ContentScheduler.platforms qc) ->
                ContentTester.isCompatible
                  (ContentTester.testContentForPlatform
                     (ContentScheduler.content qc) p) = true)
          /\ (ContentScheduler.status c1 = Publishing.ready
              \/ ContentScheduler.status c1 = Publishing.pending)
          /\ ContentScheduler.testResults c1
             = Some
                 (ContentTester.testContentForMultiplePlatforms
                    (ContentScheduler.content qc)
                    (ContentScheduler.platforms qc))
          /\ ContentScheduler.scheduledFor c1 = ContentScheduler.scheduledFor c
          /\ ContentScheduler.retryCount c1 = ContentScheduler.retryCount c
          /\ ContentScheduler.content c1 = ContentScheduler.content c)
  /\ (forall k, k <> ContentScheduler.id qc ->
        ContentScheduler.getQueuedContent k s1
        = ContentScheduler.getQueuedContent k s).
Proof.
  intros s1. subst s1. split; [| split].
  - intros H. unfold ContentScheduler.testContent. cbv zeta.
    unfold ContentScheduler.getQueuedContent in H.
    rewrite (update_missing _ _ s w H). apply update_missing. exact H.
  - intros c H. eexists. split; [apply testContent_same; exact H |].
    cbn [ContentScheduler.status ContentScheduler.testResults
         ContentScheduler.scheduledFor ContentScheduler.retryCount
         ContentScheduler.content].
    split; [| split; [| repeat split]].
    + destruct (forallb _ _) eqn:E.
      * rewrite forallb_forall in E. split; [intros _; exact E | reflexivity].
      * split; [discriminate |]. intros Hall.
        rewrite <- forallb_forall in Hall.
        unfold compatible_with in E. congruence.
    + destruct (forallb _ _); [left | right]; reflexivity.
  - intros k Hk. apply testContent_other. exact Hk.
Qed.

(** X14.  [addToQueue] returns the item as it was made: pending, untested,
    created now, with the priority asked for (medium when none is) and the
    time asked for when one is.  The queue holds under the item's
    identifier that very item when [autoTest] is off, and its tested copy
    when [autoTest] is on: ready if every platform is compatible, while the
    item returned stays pending.  The items under the other identifiers are
    untouched. *)
Theorem X14_addToQueue (tz : Z) (generateContentId : nat -> Z -> string)
    (content : ContentTester.AIContent)
    (platforms : list ContentTester.PlatformType)
    (options : option ContentScheduler.AddOptions)
    (s : ContentScheduler.Scheduler) (w : Publishing.World) :
  let r :=
    ContentScheduler.addToQueue tz generateContentId content platforms
      options s w in
  let item := fst (fst r) in
  let s1 := snd (fst r) in
  ContentScheduler.id item
  = generateContentId (Publishing.generated w) (Publishing.now w)
  /\ ContentScheduler.status item = Publishing.pending
  /\ ContentScheduler.testResults item = None
  /\ ContentScheduler.createdAt item = Publishing.now w
  /\ ContentScheduler.priority item
     = match options with
       | Some o =>
           match ContentScheduler.o_priority o with
           | Some p => p
           | None => Publishing.medium
           end
       | None => Publishing.medium
       end
  /\ (forall o t, options = Some o ->
        ContentScheduler.o_scheduledFor o = Some t ->
        ContentScheduler.scheduledFor item = t)
  /\ (ContentScheduler.opt_true
        (ContentScheduler.autoTest (ContentScheduler.scheduleConfig s))
      = false ->
      ContentScheduler.getQueuedContent (ContentScheduler.id item) s1
      = Some item)
  /\ (ContentScheduler.opt_true
        (ContentScheduler.autoTest (ContentScheduler.scheduleConfig s))
      = true ->
      exists c1,
        ContentScheduler.getQueuedContent (ContentScheduler.id item) s1
        = Some c1
        /\ ContentScheduler.status c1
           = (if forallb (compatible_with content) platforms
              then Publishing.ready else Publishing.pending)
        /\ ContentScheduler.testResults c1
           = Some
               (ContentTester.testContentForMultiplePlatforms content
                  platforms)
        /\ ContentScheduler.scheduledFor c1
           = ContentScheduler.scheduledFor item)
  /\ (forall k, k <> ContentScheduler.id item ->
        ContentScheduler.getQueuedContent k s1
        = ContentScheduler.getQueuedContent k s)
  /\ Publishing.generated (snd r) = S (Publishing.generated w).
Proof.
  intros r item s1. subst item s1 r.
  unfold ContentScheduler.addToQueue. cbv zeta.
  cbn [fst snd Publishing.now Publishing.generated ContentScheduler.id
       ContentScheduler.status ContentScheduler.testResults
       ContentScheduler.createdAt ContentScheduler.priority
       ContentScheduler.scheduledFor ContentScheduler.scheduleConfig
       ContentScheduler.with_queue].
  set (i := generateContentId (Publishing.generated w) (Publishing.now w)).
  repeat match goal with |- _ /\ _ => split end; try reflexivity.
  - destruct options as [[[p|] t]|]; reflexivity.
  - intros o t -> Ht. destruct o as [p t0]. simpl in Ht. subst t0.
    reflexivity.
  - intros Hoff. rewrite Hoff. apply getQueuedContent_with_queue_set.
  - intros Hon. rewrite Hon.
    match goal with
    | |- context [ContentScheduler.testContent ?q ?s0 ?w0] =>
        pose proof (testContent_same q s0 w0 q
                      (getQueuedContent_with_queue_set i q s)) as Hs
    end.
    eexists. split; [exact Hs |]. repeat split.
  - intros k Hk.
    destruct (ContentScheduler.opt_true _).
    + match goal with
      | |- context [ContentScheduler.testContent ?q ?s0 ?w0] =>
          rewrite (testContent_other q s0 w0 k) by exact Hk
      end.
      unfold ContentScheduler.getQueuedContent. simpl.
      rewrite JsMap_get_set.
      destruct (String.eqb_spec i k); [congruence | reflexivity].
    + unfold ContentScheduler.getQueuedContent. simpl.
      rewrite JsMap_get_set.
      destruct (String.eqb_spec i k); [congruence | reflexivity].
Qed.

(** ** Scheduler: publishing what is ready *)

Section PublishReady.
Import ContentScheduler Publishing.
Variable publisher : Publisher.

Lemma publish_one_spec c s errs w :
  JsMap.get (id c) (contentQueue s) = Some c ->
  let st1 := publish_one publisher c (s, errs, w) in
  let step := publisher (calls w) (content c) (platforms c) in
  calls (snd st1) = S (calls w)
  /\ snd (fst st1) = errs ++ error_of_step (c, step)
  /\ map fst (contentQueue (fst (fst st1))) = map fst (contentQueue s)
  /\ (forall k, k <> id c ->
        JsMap.get k (contentQueue (fst (fst st1)))
        = JsMap.get k (contentQueue s))
  /\ exists c1,
       JsMap.get (id c) (contentQueue (fst (fst st1))) = Some c1
       /\ published_as c step c1.
Proof.
  intros Hget st1 step. subst st1.
  unfold publish_one, start_publish, error_of_step, published_as.
  cbv zeta. cbn [fst snd calls settle]. fold step.
  destruct (p_settled step) as [rs|m]; cbn [fst snd calls].
  - split; [reflexivity |]. split; [symmetry; apply app_nil_r |].
    split; [rewrite !update_keys; reflexivity |].
    split; [intros k Hk; rewrite !update_other by congruence; reflexivity |].
    eexists. split.
    + apply update_same. apply update_same. exact Hget.
    + cbn. repeat split.
  - split; [reflexivity |]. split; [reflexivity |].
    split; [rewrite !update_keys; reflexivity |].
    split; [intros k Hk; rewrite !update_other by congruence; reflexivity |].
    eexists. split.
    + apply update_same. apply update_same. exact Hget.
    + cbn. repeat split.
Qed.

Lemma publish_fold l : forall s errs w,
  NoDup (map id l) ->
  (forall c, In c l -> JsMap.get (id c) (contentQueue s) = Some c) ->
  let st1 := fold_left (fun st c => publish_one publisher c st) l
               (s, errs, w) in
  calls (snd st1) = (calls w + List.length l)%nat
  /\ snd (fst st1)
     = errs ++ flat_map error_of_step (steps_from publisher (calls w) l)
  /\ map fst (contentQueue (fst (fst st1))) = map fst (contentQueue s)
  /\ (forall k, ~ In k (map id l) ->
        JsMap.get k (contentQueue (fst (fst st1)))
        = JsMap.get k (contentQueue s))
  /\ (forall c step,
        In (c, step) (steps_from publisher (calls w) l) ->
        exists c1,
          JsMap.get (id c) (contentQueue (fst (fst st1))) = Some c1
          /\ published_as c step c1).
Proof.
  induction l as [|c r IH]; intros s errs w Hnd Hin; cbn [fold_left].
  - cbn. split; [lia |]. split; [symmetry; apply app_nil_r |].
    split; [reflexivity |]. split; [reflexivity |]. intros c step [].
  - cbn [map] in Hnd. apply NoDup_cons_iff in Hnd as [Hc Hnd].
    pose proof (publish_one_spec c s errs w (Hin c (or_introl eq_refl)))
      as (Hcalls & Herrs & Hkeys & Hother & c1 & Hc1 & Hpub).
    destruct (publish_one publisher c (s, errs, w)) as [[s' errs'] w'].
    cbn [fst snd] in Hcalls, Herrs, Hkeys, Hother, Hc1.
    assert (Hin' : forall c0, In c0 r ->
                     JsMap.get (id c0) (contentQueue s') = Some c0).
    { intros c0 H0. rewrite Hother; [apply Hin; right; exact H0 |].
      intros E. apply Hc. rewrite <- E. apply in_map. exact H0. }
    specialize (IH s' errs' w' Hnd Hin').
    cbv zeta in IH.
    destruct IH as (IHcalls & IHerrs & IHkeys & IHother & IHitems).
    rewrite Hcalls in IHcalls, IHerrs, IHitems.
    split; [rewrite IHcalls; cbn [List.length]; lia |].
    split; [rewrite IHerrs, Herrs, <- app_assoc; reflexivity |].
    split; [congruence |].
    split.
    + intros k Hk. cbn [map] in Hk.
      rewrite IHother by (intros H; apply Hk; right; exact H).
      apply Hother. intros E. apply Hk. left.
      congruence.
    + intros c0 step [H0 | H0].
      * injection H0 as <- <-. exists c1. split; [| exact Hpub].
        rewrite IHother by exact Hc. exact Hc1.
      * apply IHitems. exact H0.
Qed.

Lemma steps_from_In k l c step :
  In (c, step) (steps_from publisher k l) -> In c l.
Proof.
  revert k. induction l as [|x r IH]; intros k; cbn; [tauto |].
  intros [H | H]; [left; congruence | right; eauto].
Qed.

Lemma In_steps_from k l c :
  In c l -> exists step, In (c, step) (steps_from publisher k l).
Proof.
  revert k. induction l as [|x r IH]; intros k; cbn; [tauto |].
  intros [<- | H]; [eexists; left; reflexivity |].
  destruct (IH (S k) H) as [step Hs]. eauto.
Qed.

End PublishReady.

Lemma well_keyed_values_get q c :
  well_keyed q -> In c (JsMap.values q) ->
  JsMap.get (ContentScheduler.id c) q = Some c.
Proof.
  intros [Hnd Hkeys] Hin. unfold JsMap.values in Hin.
  apply in_map_iff in Hin as [[k c0] [Hc Hin]]. simpl in Hc. subst c0.
  rewrite Forall_forall in Hkeys. pose proof (Hkeys _ Hin) as Hid.
  simpl in Hid. rewrite Hid.
  apply JsMap_In_get; assumption.
Qed.

Lemma well_keyed_ids q :
  well_keyed q -> map ContentScheduler.id (JsMap.values q) = map fst q.
Proof.
  intros [_ Hkeys]. unfold JsMap.values. rewrite map_map.
  apply map_ext_in. intros e He. rewrite Forall_forall in Hkeys. auto.
Qed.

Lemma NoDup_map_filter {A B} (f : A -> B) (p : A -> bool) l :
  NoDup (map f l) -> NoDup (map f (filter p l)).
Proof.
  induction l as [|x r IH]; simpl; [auto |].
  intros Hnd. apply NoDup_cons_iff in Hnd as [Hx Hnd].
  destruct (p x); [| auto]. simpl. constructor; [| auto].
  intros H. apply Hx. apply in_map_iff in H as [y [Hy Hin]].
  apply filter_In in Hin as [Hin _]. apply in_map_iff. eauto.
Qed.

Lemma getReadyContent_ids s w :
  well_keyed (ContentScheduler.contentQueue s) ->
  NoDup (map ContentScheduler.id (ContentScheduler.getReadyContent s w)).
Proof.
  intros Hwk. unfold ContentScheduler.getReadyContent.
  eapply Permutation_NoDup.
  - apply Permutation_map. symmetry. apply sort_perm.
  - apply NoDup_map_filter. rewrite well_keyed_ids by exact Hwk.
    apply Hwk.
Qed.

Lemma getReadyContent_In s w c :
  In c (ContentScheduler.getReadyContent s w)
  <-> In c (JsMap.values (ContentScheduler.contentQueue s))
      /\ ContentScheduler.is_ready_at (Publishing.now w) c = true.
Proof.
  unfold ContentScheduler.getReadyContent. rewrite sort_In.
  apply filter_In.
Qed.

Lemma publishAllReady_fold publisher s w :
  let st1 :=
    fold_left (fun st c => ContentScheduler.publish_one publisher c st)
      (ContentScheduler.getReadyContent s w) (s, [], w) in
  ContentScheduler.publishAllReady publisher s w
  = (ContentScheduler.mkScheduleResult
       (List.length (snd (fst st1)) =? 0)%nat
       (ContentScheduler.getReadyContent s w) (snd (fst st1)),
     fst (fst st1), snd st1).
Proof.
  unfold ContentScheduler.publishAllReady. cbv zeta.
  destruct (fold_left _ _ _) as [[s1 errs] w1]. reflexivity.
Qed.

Lemma publishAllReady_spec publisher s w :
  well_keyed (ContentScheduler.contentQueue s) ->
  let ready := ContentScheduler.getReadyContent s w in
  let steps := steps_from publisher (Publishing.calls w) ready in
  let r := ContentScheduler.publishAllReady publisher s w in
  Publishing.calls (snd r) = (Publishing.calls w + List.length ready)%nat
  /\ ContentScheduler.sr_errors (fst (fst r)) = flat_map error_of_step steps
  /\ map fst (ContentScheduler.contentQueue (snd (fst r)))
     = map fst (ContentScheduler.contentQueue s)
  /\ (forall k, ~ In k (map ContentScheduler.id ready) ->
        JsMap.get k (ContentScheduler.contentQueue (snd (fst r)))
        = JsMap.get k (ContentScheduler.contentQueue s))
  /\ (forall c step, In (c, step) steps ->
        exists c1,
          JsMap.get (ContentScheduler.id c)
            (ContentScheduler.contentQueue (snd (fst r))) = Some c1
          /\ published_as c step c1).
Proof.
  intros Hwk ready steps r. subst r. rewrite publishAllReady_fold.
  cbn [fst snd ContentScheduler.sr_errors].
  apply (publish_fold publisher ready s [] w).
  - apply getReadyContent_ids. exact Hwk.
  - intros c Hc. apply getReadyContent_In in Hc as [Hc _].
    apply well_keyed_values_get; assumption.
Qed.

Lemma published_as_status c step c1 :
  published_as c step c1 ->
  ContentScheduler.status c1 = Publishing.published
  \/ ContentScheduler.status c1 = Publishing.failed.
Proof.
  intros (_ & _ & _ & _ & H).
  destruct (Publishing.p_settled step) as [rs|m].
  - destruct H as (-> & _). destruct (Publishing.allSuccessful rs); auto.
  - destruct H as (-> & _). auto.
Qed.

Lemma filter_none {A} (p : A -> bool) l :
  (forall x, In x l -> p x = false) -> filter p l = [].
Proof.
  induction l as [|x r IH]; intros H; simpl; [reflexivity |].
  rewrite (H x (or_introl eq_refl)). apply IH. intros y Hy. apply H.
  right. exact Hy.
Qed.

(** X15.  On a queue that holds each item under its own identifier,
    [publishAllReady] calls [publishToMultiple] once for each item that is
    ready and due, leaves every other item as it was, and leaves each ready
    item published or failed, with its content: asked again at the same
    time, [getReadyContent] has nothing left.  The identifiers of the queue
    and their order do not change. *)
Theorem X15_publishAllReady_queue (publisher : Publishing.Publisher)
    (s : ContentScheduler.Scheduler) (w : Publishing.World) :
  well_keyed (ContentScheduler.contentQueue s) ->
  let r := ContentScheduler.publishAllReady publisher s w in
  let s1 := snd (fst r) in
  Publishing.calls (snd r)
  = (Publishing.calls w
     + List.length (ContentScheduler.getReadyContent s w))%nat
  /\ map fst (ContentScheduler.contentQueue s1)
     = map fst (ContentScheduler.contentQueue s)
  /\ (forall k c,
        ContentScheduler.getQueuedContent k s = Some c ->
        ContentScheduler.is_ready_at (Publishing.now w) c = false ->
        ContentScheduler.getQueuedContent k s1 = Some c)
  /\ (forall k c,
        ContentScheduler.getQueuedContent k s = Some c ->
        ContentScheduler.is_ready_at (Publishing.now w) c = true ->
        exists c1,
          ContentScheduler.getQueuedContent k s1 = Some c1
          /\ (ContentScheduler.status c1 = Publishing.published
              \/ ContentScheduler.status c1 = Publishing.failed)
          /\ ContentScheduler.content c1 = ContentScheduler.content c)
  /\ (forall w1, Publishing.now w1 = Publishing.now w ->
        ContentScheduler.getReadyContent s1 w1 = []).
Proof.
  intros Hwk r s1. subst s1 r.
  pose proof (publishAllReady_spec publisher s w Hwk)
    as (Hcalls & _ & Hkeys & Hother & Hitems).
  cbv zeta in Hcalls, Hkeys, Hother, Hitems.
  unfold ContentScheduler.getQueuedContent.
  set (s1 := snd (fst (ContentScheduler.publishAllReady publisher s w))) in *.
  assert (Hid : forall k c,
            JsMap.get k (ContentScheduler.contentQueue s) = Some c ->
            ContentScheduler.id c = k
            /\ In c (JsMap.values (ContentScheduler.contentQueue s))).
  { intros k c Hg. apply JsMap_get_In in Hg. destruct Hwk as [_ Hk].
    rewrite Forall_forall in Hk. split; [exact (Hk _ Hg) |].
    apply in_map_iff. exists (k, c). split; [reflexivity | exact Hg]. }
  assert (Hnot : forall k c,
            JsMap.get k (ContentScheduler.contentQueue s) = Some c ->
            ContentScheduler.is_ready_at (Publishing.now w) c = false ->
            JsMap.get k (ContentScheduler.contentQueue s1) = Some c).
  { intros k c Hg Hr. rewrite Hother; [exact Hg |].
    intros Hin. apply in_map_iff in Hin as [c0 [Hc0 Hin]].
    apply getReadyContent_In in Hin as [Hin Hr0].
    apply well_keyed_values_get in Hin; [| exact Hwk].
    rewrite Hc0 in Hin. congruence. }
  assert (Hdone : forall k c,
            JsMap.get k (ContentScheduler.contentQueue s) = Some c ->
            ContentScheduler.is_ready_at (Publishing.now w) c = true ->
            exists c1,
              JsMap.get k (ContentScheduler.contentQueue s1) = Some c1
              /\ (ContentScheduler.status c1 = Publishing.published
                  \/ ContentScheduler.status c1 = Publishing.failed)
              /\ ContentScheduler.content c1 = ContentScheduler.content c).
  { intros k c Hg Hr. destruct (Hid k c Hg) as [Hk Hv].
    assert (Hin : In c (ContentScheduler.getReadyContent s w))
      by (apply getReadyContent_In; split; assumption).
    destruct (In_steps_from publisher (Publishing.calls w) _ c Hin)
      as [step Hstep].
    destruct (Hitems c step Hstep) as (c1 & Hc1 & Hpub).
    exists c1. rewrite Hk in Hc1. split; [exact Hc1 |].
    split; [exact (published_as_status _ _ _ Hpub) | apply Hpub]. }
  split; [exact Hcalls |]. split; [exact Hkeys |].
  split; [exact Hnot |]. split; [exact Hdone |].
  intros w1 Hw1. unfold ContentScheduler.getReadyContent. rewrite Hw1.
  rewrite filter_none; [reflexivity |].
  intros c1 Hc1.
  unfold JsMap.values in Hc1. apply in_map_iff in Hc1 as [[k c0] [E Hin]].
  simpl in E. subst c0.
  assert (Hg1 : JsMap.get k (ContentScheduler.contentQueue s1) = Some c1).
  { apply JsMap_In_get; [| exact Hin]. rewrite Hkeys. apply Hwk. }
  destruct (JsMap.get k (ContentScheduler.contentQueue s)) as [c|] eqn:Hg.
  - destruct (ContentScheduler.is_ready_at (Publishing.now w) c) eqn:Hr.
    + destruct (Hdone k c Hg Hr) as (c2 & Hc2 & Hst & _).
      assert (c2 = c1) by congruence. subst c2.
      unfold ContentScheduler.is_ready_at.
      destruct Hst as [-> | ->]; reflexivity.
    + rewrite (Hnot k c Hg Hr) in Hg1. injection Hg1 as <-. exact Hr.
  - exfalso. apply (JsMap_get_None_keys _ _ Hg). rewrite <- Hkeys.
    apply in_map_iff. exists (k, c1). split; [reflexivity | exact Hin].
Qed.

Lemma X15_publishAllReady_queue_witness :
  Publishing.calls
    (snd (ContentScheduler.publishAllReady failing_publisher three_ready
            (Publishing.mkWorld 100 0 0 [])))
  = (0 + List.length
           (ContentScheduler.getReadyContent three_ready
              (Publishing.mkWorld 100 0 0 [])))%nat.
Proof.
  apply (X15_publishAllReady_queue failing_publisher three_ready
           (Publishing.mkWorld 100 0 0 [])).
  apply new_ContentScheduler_well_keyed.
Defined.

Lemma errors_empty_fulfilled steps :
  (List.length (flat_map error_of_step steps) =? 0)%nat
  = forallb is_fulfilled steps.
Proof.
  induction steps as [|[c step] r IH]; [reflexivity |].
  cbn [flat_map forallb]. unfold error_of_step at 1, is_fulfilled at 1.
  cbn [fst snd].
  destruct (Publishing.p_settled step); [exact IH | reflexivity].
Qed.

(** X16.  The result of [publishAllReady] lists the items as they were
    before publishing, every one still marked ready, and one error message
    for each call of [publishToMultiple] that threw; [success] says that no
    call threw.  A call that returns results leaves its item published when
    every result succeeded and failed otherwise, without any effect on
    [success] or on the retry count; a call that throws leaves its item
    failed with the retry count one up. *)
Theorem X16_publishAllReady_result (publisher : Publishing.Publisher)
    (s : ContentScheduler.Scheduler) (w : Publishing.World) :
  well_keyed (ContentScheduler.contentQueue s) ->
  let ready := ContentScheduler.getReadyContent s w in
  let steps := steps_from publisher (Publishing.calls w) ready in
  let r := ContentScheduler.publishAllReady publisher s w in
  ContentScheduler.scheduledContent (fst (fst r)) = ready
  /\ Forall (fun c => ContentScheduler.status c = Publishing.ready)
       (ContentScheduler.scheduledContent (fst (fst r)))
  /\ ContentScheduler.sr_errors (fst (fst r)) = flat_map error_of_step steps
  /\ ContentScheduler.sr_success (fst (fst r)) = forallb is_fulfilled steps
  /\ (forall c step, In (c, step) steps ->
        exists c1,
          ContentScheduler.getQueuedContent (ContentScheduler.id c)
            (snd (fst r)) = Some c1
          /\ published_as c step c1).
Proof.
  intros Hwk ready steps r.
  pose proof (publishAllReady_spec publisher s w Hwk)
    as (_ & Herrs & _ & _ & Hitems).
  cbv zeta in Herrs, Hitems. fold ready steps r in Herrs, Hitems.
  assert (Hsc : ContentScheduler.scheduledContent (fst (fst r)) = ready).
  { subst r. rewrite publishAllReady_fold. reflexivity. }
  split; [exact Hsc |]. split; [| split; [exact Herrs | split]].
  - rewrite Hsc. apply Forall_forall. intros c Hc.
    apply getReadyContent_In in Hc as [_ Hr].
    unfold ContentScheduler.is_ready_at in Hr.
    apply andb_true_iff in Hr as [Hr _]. apply Status_eqb_eq. exact Hr.
  - rewrite <- errors_empty_fulfilled. fold steps. rewrite <- Herrs.
    subst r. rewrite publishAllReady_fold. reflexivity.
  - exact Hitems.
Qed.

Lemma X16_publishAllReady_result_witness :
  ContentScheduler.sr_success
    (fst (fst (ContentScheduler.publishAllReady failing_publisher three_ready
                 (Publishing.mkWorld 100 0 0 []))))
  = true.
Proof.
  destruct (X16_publishAllReady_result failing_publisher three_ready
              (Publishing.mkWorld 100 0 0 []))
    as (_ & _ & _ & Hs & _); [apply new_ContentScheduler_well_keyed |].
  rewrite Hs. reflexivity.
Defined.

(** ** Scheduler: status *)

Lemma filter_disjoint_length {A} (p q : A -> bool) l :
  (forall x, p x = true -> q x = false) ->
  (List.length (filter p l) + List.length (filter q l) <= List.length l)%nat.
Proof.
  intros Hpq. induction l as [|x r IH]; simpl; [lia |].
  destruct (p x) eqn:Ep.
  - rewrite (Hpq x Ep). simpl. lia.
  - destruct (q x); simpl; lia.
Qed.

(** X17.  In [getStatus], [nextRun] is the earliest [scheduledFor] among the
    items that are ready, whether due or not, and is absent exactly when no
    item is ready; the ready and the failed items together are never more
    than the queue holds. *)
Theorem X17_scheduler_status (s : ContentScheduler.Scheduler) :
  let st := ContentScheduler.getStatus s in
  let all := ContentScheduler.getAllQueuedContent s in
  ContentScheduler.readyCount st + ContentScheduler.failedCount st
  <= ContentScheduler.queueSize st
  /\ (ContentScheduler.nextRun st = None <->
      ContentScheduler.readyCount st = 0)
  /\ (forall t,
        ContentScheduler.nextRun st = Some t ->
        (exists c, In c all
                   /\ ContentScheduler.status c = Publishing.ready
                   /\ ContentScheduler.scheduledFor c = t)
        /\ forall c, In c all ->
             ContentScheduler.status c = Publishing.ready ->
             t <= ContentScheduler.scheduledFor c).
Proof.
  intros st all. subst st all.
  unfold ContentScheduler.getStatus, ContentScheduler.getAllQueuedContent.
  cbv zeta.
  cbn [ContentScheduler.readyCount ContentScheduler.failedCount
       ContentScheduler.queueSize ContentScheduler.nextRun].
  set (all := JsMap.values (ContentScheduler.contentQueue s)).
  set (isr := fun c => Publishing.Status_eqb (ContentScheduler.status c)
                         Publishing.ready).
  set (isf := fun c => Publishing.Status_eqb (ContentScheduler.status c)
                         Publishing.failed).
  pose proof (sort_perm ContentScheduler.by_scheduled_time (filter isr all))
    as Hperm.
  assert (Hsorted :
            StronglySorted
              (fun a b => ContentScheduler.by_scheduled_time a b <= 0)
              (Js.sort ContentScheduler.by_scheduled_time (filter isr all))).
  { apply sort_sorted; unfold ContentScheduler.by_scheduled_time; intros; lia. }
  split; [| split].
  - unfold ContentTester.len.
    pose proof (filter_disjoint_length isr isf all) as H.
    assert (List.length all = List.length (ContentScheduler.contentQueue s))
      by (unfold all, JsMap.values; apply length_map).
    assert (forall x, isr x = true -> isf x = false).
    { intros x. unfold isr, isf. destruct (ContentScheduler.status x);
        simpl; congruence. }
    specialize (H H1). lia.
  - unfold ContentTester.len.
    destruct (Js.sort _ _) as [|x r] eqn:E.
    + apply Permutation_length in Hperm. simpl in *.
      split; [intros _; lia | reflexivity].
    + apply Permutation_length in Hperm. simpl in *.
      split; [discriminate | lia].
  - intros t Ht.
    destruct (Js.sort _ _) as [|x r] eqn:E; [discriminate |].
    simpl in Ht. injection Ht as <-.
    assert (Hx : In x (filter isr all))
      by (eapply Permutation_in; [exact Hperm | left; reflexivity]).
    apply filter_In in Hx as [Hx Hrx].
    split.
    + exists x. split; [exact Hx |]. split; [| reflexivity].
      apply Status_eqb_eq. exact Hrx.
    + intros c Hc Hrc.
      assert (Hin : In c (x :: r)).
      { eapply Permutation_in; [symmetry; exact Hperm |].
        apply filter_In. split; [exact Hc |]. apply Status_eqb_eq. exact Hrc. }
      destruct Hin as [<- | Hin]; [lia |].
      apply StronglySorted_inv in Hsorted as [_ Hall].
      rewrite Forall_forall in Hall. specialize (Hall c Hin).
      unfold ContentScheduler.by_scheduled_time in Hall. lia.
Qed.

(** ** Bulk publisher: the counters of the result *)

Section TallyFacts.
Import Publishing BulkPublisher.
Variable publisher : Publisher.

Lemma filter_split_len {A} (p : A -> bool) (l : list A) :
  ContentTester.len l
  = ContentTester.len (filter p l)
    + ContentTester.len (filter (fun x => negb (p x)) l).
Proof.
  unfold ContentTester.len. induction l as [|x r IH]; simpl; [reflexivity |].
  destruct (p x); simpl List.length; lia.
Qed.

Lemma record_result_tally p n t s w :
  tally_ok n t ->
  tally_ok (n + 1) (fst (fst (record_result p (t, s, w)))).
Proof.
  intros (H1 & H2 & H3 & H4 & H5 & H6).
  unfold record_result. cbv zeta.
  destruct (p_settled (snd p)) as [rs|m]; cbn [fst snd]; unfold tally_ok;
    cbn [t_successfulItems t_failedItems t_errors t_totalPublishes
         t_successfulPublishes t_failedPublishes].
  - pose proof (filter_split_len pr_success rs).
    assert (0 <= ContentTester.len (filter pr_success rs))
      by (unfold ContentTester.len; lia).
    assert (0 <= ContentTester.len
                   (filter (fun r => negb (pr_success r)) rs))
      by (unfold ContentTester.len; lia).
    destruct (allSuccessful rs); repeat split; lia.
  - unfold ContentTester.len in *. rewrite length_app. simpl List.length.
    repeat split; lia.
Qed.

Lemma tally_ok_eq n m t : n = m -> tally_ok n t -> tally_ok m t.
Proof. intros ->. auto. Qed.

Lemma record_results_tally started : forall n t s w,
  tally_ok n t ->
  tally_ok (n + ContentTester.len started)
    (fst (fst (fold_left (fun st p => record_result p st) started
                 (t, s, w)))).
Proof.
  unfold ContentTester.len.
  induction started as [|p r IH]; intros n t s w Ht; cbn [fold_left].
  - eapply tally_ok_eq; [| exact Ht]. simpl. lia.
  - pose proof (record_result_tally p n t s w Ht) as H1.
    destruct (record_result p (t, s, w)) as [[t1 s1] w1]. cbn [fst] in H1.
    specialize (IH (n + 1) t1 s1 w1 H1).
    eapply tally_ok_eq; [| exact IH]. simpl List.length. lia.
Qed.

Lemma run_batch_tally all c pause i n t s w :
  tally_ok n t ->
  tally_ok (n + ContentTester.len (Js.slice i (i + c) all))
    (fst (fst (run_batch publisher all c pause i (t, s, w)))).
Proof.
  intros Ht. unfold run_batch. cbv zeta.
  pose proof (start_batch_spec publisher (Js.slice i (i + c) all)) as Hsb.
  match goal with
  | |- context [start_batch publisher ?b ?st] =>
      specialize (Hsb st); destruct (start_batch publisher b st)
        as [started sw]
  end.
  destruct Hsb as [Hmap _]. cbn [fst] in Hmap.
  destruct (settle_batch started sw) as [s1 w1].
  pose proof (record_results_tally started n t s1 w1 Ht) as H.
  destruct (fold_left _ started (t, s1, w1)) as [[t2 s2] w2].
  cbn [fst] in H.
  assert (Hlen : ContentTester.len started
                 = ContentTester.len (Js.slice i (i + c) all)).
  { unfold ContentTester.len. f_equal.
    rewrite <- (length_map fst started), Hmap. reflexivity. }
  rewrite <- Hlen.
  destruct (_ <? _)%nat; exact H.
Qed.

Lemma batch_loop_tally all c pause fuel : forall i n t s w,
  (1 <= c)%nat -> (List.length all - i <= fuel)%nat ->
  tally_ok n t ->
  tally_ok (n + Z.of_nat (List.length all - i))
    (fst (fst (batch_loop publisher fuel all c pause i (t, s, w)))).
Proof.
  induction fuel as [|f IH]; intros i n t s w Hc Hfuel Ht; cbn [batch_loop].
  - eapply tally_ok_eq; [| exact Ht]. lia.
  - destruct (Nat.ltb_spec i (List.length all)) as [Hlt | Hge].
    + pose proof (run_batch_tally all c pause i n t s w Ht) as H1.
      destruct (run_batch publisher all c pause i (t, s, w))
        as [[t1 s1] w1].
      cbn [fst] in H1.
      pose proof (IH (i + c)%nat _ t1 s1 w1 Hc ltac:(lia) H1) as H2.
      unfold ContentTester.len in H2. rewrite slice_length in H2.
      eapply tally_ok_eq; [| exact H2]. lia.
    + eapply tally_ok_eq; [| exact Ht]. lia.
Qed.

Lemma effective_concurrency_pos s : (1 <= effective_concurrency s)%nat.
Proof.
  unfold effective_concurrency.
  destruct (concurrency (config s)) as [[|c]|]; simpl; lia.
Qed.

Lemma publishItemsInBatches_consistent all s w :
  consistent_result (fst (fst (publishItemsInBatches publisher all s w)))
  /\ totalItems (fst (fst (publishItemsInBatches publisher all s w)))
     = ContentTester.len all.
Proof.
  unfold publishItemsInBatches. cbv zeta.
  assert (H0 : tally_ok 0 empty_tally)
    by (unfold tally_ok, empty_tally, ContentTester.len; cbn; lia).
  pose proof (batch_loop_tally all (effective_concurrency s)
                (Js.or_default (delayBetweenPublishes (config s)) 2000)
                (List.length all) 0 0 empty_tally s w
                (effective_concurrency_pos s) ltac:(lia) H0) as H.
  destruct (batch_loop publisher _ all _ _ 0 (empty_tally, s, w))
    as [[t s1] w1].
  cbn [fst] in H.
  destruct (if opt_true (retryFailed (config s1)) then _ else _) as [s2 w2].
  cbn [fst]. split; [| reflexivity].
  apply (tally_ok_eq _ (ContentTester.len all)) in H;
    [| unfold ContentTester.len; lia].
  destruct H as (H1 & H2 & H3 & H4 & H5 & H6).
  unfold consistent_result.
  cbn [successfulItems failedItems totalItems errors success summary
       totalPublishes successfulPublishes failedPublishes].
  split; [exact H1 |]. split; [exact H2 |]. split; [exact H3 |].
  split; [| exact H4].
  destruct (Z.eqb_spec (t_failedItems t) 0); split; intros; try lia;
    try reflexivity; discriminate.
Qed.

End TallyFacts.

(** X18.  In the result of [publishItemsInBatches], and so in every result
    [publishAll] returns, each item handed over is counted once, as
    successful or as failed; [success] says that all were successful; there
    are never more error messages than failed items; and the publishes of
    the summary split into the successful and the failed ones. *)
Theorem X18_bulk_result_counters (publisher : Publishing.Publisher)
    (s : BulkPublisher.Bulk) (w : Publishing.World) :
  (forall all,
     let r :=
       fst (fst (BulkPublisher.publishItemsInBatches publisher all s w)) in
     consistent_result r
     /\ BulkPublisher.totalItems r = ContentTester.len all)
  /\ (forall r,
        fst (fst (BulkPublisher.publishAll publisher s w))
        = Publishing.Fulfilled r ->
        consistent_result r).
Proof.
  split.
  - intros all. apply publishItemsInBatches_consistent.
  - intros r. unfold BulkPublisher.publishAll.
    destruct (BulkPublisher.isPublishing s); [discriminate |].
    cbv zeta.
    destruct (BulkPublisher.getItemsByStatus Publishing.ready _)
      as [|x l] eqn:E.
    + cbn [fst]. intros H. injection H as <-.
      unfold consistent_result, BulkPublisher.createEmptyResult,
        ContentTester.len.
      cbn. intuition lia.
    + match goal with
      | |- context [BulkPublisher.publishItemsInBatches publisher ?a ?s0 ?w0] =>
          pose proof (publishItemsInBatches_consistent publisher a s0 w0)
            as [Hc _];
          destruct (BulkPublisher.publishItemsInBatches publisher a s0 w0)
            as [[r1 s1] w1]
      end.
      cbn [fst] in *. intros H. injection H as <-. exact Hc.
Qed.

(** ** Bulk publisher: what publishing leaves alone *)

Section BulkFrame.
Import Publishing BulkPublisher.
Variable publisher : Publisher.

Lemma same_item_core_refl c : same_item_core c c.
Proof. repeat split. Qed.

Lemma bulk_frame_refl s : bulk_frame s s.
Proof.
  split; [reflexivity |]. split; [reflexivity |].
  intros k c1 H. exists c1. split; [exact H | apply same_item_core_refl].
Qed.

Lemma bulk_frame_trans s s1 s2 :
  bulk_frame s s1 -> bulk_frame s1 s2 -> bulk_frame s s2.
Proof.
  intros (Hc1 & Hk1 & Hi1) (Hc2 & Hk2 & Hi2).
  split; [congruence |]. split; [congruence |].
  intros k c2 H2. destruct (Hi2 k c2 H2) as (c1 & H1 & Hs2).
  destruct (Hi1 k c1 H1) as (c & H & Hs1).
  exists c. split; [exact H |].
  destruct Hs1 as (? & ? & ? & ? & ?), Hs2 as (? & ? & ? & ? & ?).
  repeat split; congruence.
Qed.

Lemma updateItem_get k itemId u s w :
  JsMap.get k (items (updateItem itemId u s w))
  = match JsMap.get itemId (items s) with
    | Some item =>
        if String.eqb itemId k then Some (apply_updates item u (now w))
        else JsMap.get k (items s)
    | None => JsMap.get k (items s)
    end.
Proof.
  unfold updateItem.
  destruct (JsMap.get itemId (items s)) as [item|]; [| reflexivity].
  simpl. apply JsMap_get_set.
Qed.

Lemma updateItem_frame itemId u s w :
  bulk_frame s (updateItem itemId u s w).
Proof.
  split; [apply updateItem_config |]. split.
  - unfold updateItem.
    destruct (JsMap.get itemId (items s)) as [item|] eqn:E; [| reflexivity].
    simpl. eapply JsMap_set_keys_present. exact E.
  - intros k c1. rewrite updateItem_get.
    destruct (JsMap.get itemId (items s)) as [item|] eqn:E.
    + destruct (String.eqb_spec itemId k) as [<- | Hne].
      * intros H. injection H as <-. exists item.
        split; [exact E | repeat split].
      * intros H. exists c1. split; [exact H | apply same_item_core_refl].
    + intros H. exists c1. split; [exact H | apply same_item_core_refl].
Qed.

Lemma publishItem_start_frame item s w :
  bulk_frame s (fst (snd (publishItem_start publisher item (s, w)))).
Proof. apply updateItem_frame. Qed.

Lemma publishItem_finish_frame item step s w :
  bulk_frame s (fst (publishItem_finish item step (s, w))).
Proof.
  unfold publishItem_finish.
  destruct (p_settled step); apply updateItem_frame.
Qed.

Lemma publishItem_frame item s w :
  bulk_frame s (fst (snd (publishItem publisher item (s, w)))).
Proof.
  unfold publishItem.
  pose proof (publishItem_start_frame item s w) as H1.
  destruct (publishItem_start publisher item (s, w)) as [step [s1 w1]].
  cbn [fst snd] in *.
  eapply bulk_frame_trans; [exact H1 | apply publishItem_finish_frame].
Qed.

Lemma start_batch_frame batch : forall s w,
  bulk_frame s (fst (snd (start_batch publisher batch (s, w)))).
Proof.
  induction batch as [|item r IH]; intros s w; cbn [start_batch].
  - apply bulk_frame_refl.
  - pose proof (publishItem_start_frame item s w) as H1.
    destruct (publishItem_start publisher item (s, w)) as [step [s1 w1]].
    cbn [fst snd] in H1. specialize (IH s1 w1).
    destruct (start_batch publisher r (s1, w1)) as [started [s2 w2]].
    cbn [fst snd] in *. eapply bulk_frame_trans; eassumption.
Qed.

Lemma settle_batch_frame started : forall s w,
  bulk_frame s (fst (settle_batch started (s, w))).
Proof.
  unfold settle_batch.
  induction started as [|p r IH]; intros s w; cbn [fold_left].
  - apply bulk_frame_refl.
  - pose proof (publishItem_finish_frame (fst p) (snd p) s w) as H1.
    destruct (publishItem_finish (fst p) (snd p) (s, w)) as [s1 w1].
    cbn [fst] in H1. eapply bulk_frame_trans; [exact H1 | apply IH].
Qed.

Lemma record_results_frame started : forall t s w,
  bulk_frame s
    (snd (fst (fold_left (fun st p => record_result p st) started
                 (t, s, w)))).
Proof.
  induction started as [|p r IH]; intros t s w; cbn [fold_left].
  - apply bulk_frame_refl.
  - assert (H1 : bulk_frame s (snd (fst (record_result p (t, s, w))))).
    { unfold record_result. cbv zeta.
      destruct (p_settled (snd p)); apply updateItem_frame. }
    destruct (record_result p (t, s, w)) as [[t1 s1] w1].
    cbn [fst snd] in H1. eapply bulk_frame_trans; [exact H1 | apply IH].
Qed.

Lemma run_batch_frame all c pause i t s w :
  bulk_frame s (snd (fst (run_batch publisher all c pause i (t, s, w)))).
Proof.
  unfold run_batch. cbv zeta.
  match goal with
  | |- context [start_batch publisher ?b (s, ?w0)] =>
      pose proof (start_batch_frame b s w0) as H1;
      destruct (start_batch publisher b (s, w0)) as [started [s1 w1]]
  end.
  cbn [fst snd] in H1.
  pose proof (settle_batch_frame started s1 w1) as H2.
  destruct (settle_batch started (s1, w1)) as [s2 w2]. cbn [fst] in H2.
  pose proof (record_results_frame started t s2 w2) as H3.
  destruct (fold_left _ started (t, s2, w2)) as [[t3 s3] w3].
  cbn [fst snd] in H3.
  assert (bulk_frame s s3)
    by (eapply bulk_frame_trans; [| exact H3];
        eapply bulk_frame_trans; eassumption).
  destruct (_ <? _)%nat; assumption.
Qed.

Lemma batch_loop_frame all c pause fuel : forall i t s w,
  bulk_frame s (snd (fst (batch_loop publisher fuel all c pause i (t, s, w)))).
Proof.
  induction fuel as [|f IH]; intros i t s w; cbn [batch_loop].
  - apply bulk_frame_refl.
  - destruct (_ <? _)%nat; [| apply bulk_frame_refl].
    pose proof (run_batch_frame all c pause i t s w) as H1.
    destruct (run_batch publisher all c pause i (t, s, w)) as [[t1 s1] w1].
    cbn [fst snd] in H1. eapply bulk_frame_trans; [exact H1 | apply IH].
Qed.

Lemma retryFailedItems_frame s w :
  bulk_frame s (fst (retryFailedItems publisher s w)).
Proof.
  unfold retryFailedItems. cbv zeta.
  generalize (Js.or_default (maxRetries (config s)) 3). intros m.
  generalize (getItemsByStatus failed s). intros l.
  revert s w.
  induction l as [|item r IH]; intros s0 w0; cbn [fold_left].
  - apply bulk_frame_refl.
  - destruct (retry_count item <? m); [| apply IH].
    match goal with
    | |- context [publishItem publisher item (?s1, ?w1)] =>
        pose proof (publishItem_frame item s1 w1) as H1;
        pose proof (updateItem_frame (id item)
                      (mkUpdates (Some pending) None None
                         (Some (retry_count item + 1))) s0 w0) as H0;
        destruct (publishItem publisher item (s1, w1)) as [step [s2 w2]]
    end.
    cbn [fst snd] in *.
    eapply bulk_frame_trans; [| apply IH].
    eapply bulk_frame_trans; eassumption.
Qed.

Lemma testItem_frame item s w : bulk_frame s (testItem item s w).
Proof.
  unfold testItem, updateItemStatus. cbv zeta.
  eapply bulk_frame_trans; apply updateItem_frame.
Qed.

Lemma testAllItems_frame s w : bulk_frame s (testAllItems s w).
Proof.
  unfold testAllItems. cbv zeta.
  generalize (getItemsByStatus pending s). intros l.
  revert s.
  induction l as [|item r IH]; intros s0; cbn [fold_left].
  - apply bulk_frame_refl.
  - eapply bulk_frame_trans; [apply testItem_frame | apply IH].
Qed.

Lemma with_isPublishing_frame b s : bulk_frame s (with_isPublishing b s).
Proof.
  split; [reflexivity |]. split; [reflexivity |].
  intros k c1 H. exists c1. split; [exact H | apply same_item_core_refl].
Qed.

Lemma publishItemsInBatches_frame all s w :
  bulk_frame s (snd (fst (publishItemsInBatches publisher all s w))).
Proof.
  unfold publishItemsInBatches. cbv zeta.
  match goal with
  | |- context [batch_loop publisher ?f all ?c ?p 0 (?t, s, w)] =>
      pose proof (batch_loop_frame all c p f 0%nat t s w) as H1;
      destruct (batch_loop publisher f all c p 0 (t, s, w)) as [[t1 s1] w1]
  end.
  cbn [fst snd] in H1.
  destruct (opt_true (retryFailed (config s1))).
  - pose proof (retryFailedItems_frame s1 w1) as H2.
    destruct (retryFailedItems publisher s1 w1) as [s2 w2].
    cbn [fst snd] in *. eapply bulk_frame_trans; eassumption.
  - exact H1.
Qed.

Lemma publishAll_frame s w :
  bulk_frame s (snd (fst (publishAll publisher s w)))
  /\ isPublishing (snd (fst (publishAll publisher s w))) = isPublishing s.
Proof.
  unfold publishAll. destruct (isPublishing s) eqn:Ep.
  - cbn [fst snd]. split; [apply bulk_frame_refl | exact Ep].
  - cbv zeta.
    set (s0 := with_isPublishing true s).
    assert (H0 : bulk_frame s s0) by apply with_isPublishing_frame.
    set (s1 := if opt_true (autoTest (config s0))
               then testAllItems s0 w else s0).
    assert (H1 : bulk_frame s s1).
    { unfold s1. destruct (opt_true _); [| exact H0].
      eapply bulk_frame_trans; [exact H0 | apply testAllItems_frame]. }
    destruct (getItemsByStatus ready s1) as [|x l].
    + cbn [fst snd]. split; [| reflexivity].
      eapply bulk_frame_trans; [exact H1 | apply with_isPublishing_frame].
    + pose proof (publishItemsInBatches_frame
                    (sortItemsByPriority (x :: l)) s1 w) as H2.
      destruct (publishItemsInBatches publisher _ s1 w) as [[r s2] w2].
      cbn [fst snd] in *. split; [| reflexivity].
      eapply bulk_frame_trans; [| apply with_isPublishing_frame].
      eapply bulk_frame_trans; eassumption.
Qed.

End BulkFrame.

(** X19.  [publishAll] neither adds nor removes an item and keeps the order
    of the identifiers; under each identifier the item keeps its identifier,
    content, platforms, priority and creation time; the configuration is
    untouched, and the publisher is left with [isPublishing] as it was
    found: still set when the call was refused, cleared when it ran. *)
Theorem X19_publishAll_frame (publisher : Publishing.Publisher)
    (s : BulkPublisher.Bulk) (w : Publishing.World) :
  let s1 := snd (fst (BulkPublisher.publishAll publisher s w)) in
  BulkPublisher.config s1 = BulkPublisher.config s
  /\ map fst (BulkPublisher.items s1) = map fst (BulkPublisher.items s)
  /\ (forall k c1,
        JsMap.get k (BulkPublisher.items s1) = Some c1 ->
        exists c,
          JsMap.get k (BulkPublisher.items s) = Some c
          /\ BulkPublisher.id c1 = BulkPublisher.id c
          /\ BulkPublisher.content c1 = BulkPublisher.content c
          /\ BulkPublisher.platforms c1 = BulkPublisher.platforms c
          /\ BulkPublisher.priority c1 = BulkPublisher.priority c
          /\ BulkPublisher.createdAt c1 = BulkPublisher.createdAt c)
  /\ BulkPublisher.isPublishing s1 = BulkPublisher.isPublishing s
  /\ (BulkPublisher.isPublishing s = true ->
      BulkPublisher.publishAll publisher s w
      = (Publishing.RejectedWith "Bulk publishing is already in progress",
         s, w)).
Proof.
  intros s1. subst s1.
  destruct (publishAll_frame publisher s w) as ((Hc & Hk & Hi) & Hp).
  split; [exact Hc |]. split; [exact Hk |]. split; [exact Hi |].
  split; [exact Hp |].
  intros H. unfold BulkPublisher.publishAll. rewrite H. reflexivity.
Qed.

(** ** Bulk publisher: retries *)

Section BulkRetry.
Import Publishing BulkPublisher.
Variable publisher : Publisher.

Lemma updateItem_same itemId u s w c :
  JsMap.get itemId (items s) = Some c ->
  JsMap.get itemId (items (updateItem itemId u s w))
  = Some (apply_updates c u (now w)).
Proof.
  intros H. rewrite updateItem_get, H, String.eqb_refl. reflexivity.
Qed.

Lemma updateItem_other itemId u s w k :
  k <> itemId ->
  JsMap.get k (items (updateItem itemId u s w)) = JsMap.get k (items s).
Proof.
  intros Hk. rewrite updateItem_get.
  destruct (JsMap.get itemId (items s)); [| reflexivity].
  destruct (String.eqb_spec itemId k); [congruence | reflexivity].
Qed.

(** A publish of [item], whatever it gives, leaves the item published or
    failed and touches nothing else. *)
Lemma publishItem_spec item s w c :
  JsMap.get (id item) (items s) = Some c ->
  let r := publishItem publisher item (s, w) in
  calls (snd (snd r)) = S (calls w)
  /\ (forall k, k <> id item ->
        JsMap.get k (items (fst (snd r))) = JsMap.get k (items s))
  /\ exists c1,
       JsMap.get (id item) (items (fst (snd r))) = Some c1
       /\ retryCount c1 = retryCount c
       /\ (status c1 = published \/ status c1 = failed).
Proof.
  intros Hget r. subst r.
  unfold publishItem, publishItem_start, publishItem_finish, start_publish,
    updateItemStatus.
  cbv zeta. cbn [fst snd].
  destruct (p_settled (publisher (calls w) (content item) (platforms item)))
    as [rs|m]; cbn [fst snd calls settle].
  - split; [reflexivity |].
    split; [intros k Hk; rewrite !updateItem_other by exact Hk; reflexivity |].
    eexists. split; [apply updateItem_same, updateItem_same; exact Hget |].
    cbn. split; [reflexivity |]. destruct (allSuccessful rs); auto.
  - split; [reflexivity |].
    split; [intros k Hk; rewrite !updateItem_other by exact Hk; reflexivity |].
    eexists. split; [apply updateItem_same, updateItem_same; exact Hget |].
    cbn. auto.
Qed.

Lemma retry_fold m l : forall s w,
  NoDup (map id l) ->
  (forall c, In c l -> JsMap.get (id c) (items s) = Some c) ->
  let st1 :=
    fold_left
      (fun (st : Bulk * World) item =>
         if retry_count item <? m then
           let (s, w) := st in
           let s :=
             updateItem (id item)
               (mkUpdates (Some pending) None None
                  (Some (retry_count item + 1))) s w in
           let w := delay (Js.or_default (retryDelay (config s)) 5000) w in
           snd (publishItem publisher item (s, w))
         else st)
      l (s, w) in
  calls (snd st1)
  = (calls w
     + List.length (filter (fun c => (retry_count c <? m)%Z) l))%nat
  /\ (forall k,
        ~ In k (map id (filter (fun c => retry_count c <? m) l)) ->
        JsMap.get k (items (fst st1)) = JsMap.get k (items s))
  /\ (forall c, In c l -> retry_count c < m ->
        exists c1,
          JsMap.get (id c) (items (fst st1)) = Some c1
          /\ retryCount c1 = Some (retry_count c + 1)
          /\ (status c1 = published \/ status c1 = failed)).
Proof.
  induction l as [|item r IH]; intros s w Hnd Hin; cbn [fold_left filter].
  - cbn. split; [lia |]. split; [reflexivity |]. intros c [].
  - cbn [map] in Hnd. apply NoDup_cons_iff in Hnd as [Hitem Hnd].
    destruct (Z.ltb_spec (retry_count item) m) as [Hlt | Hge].
    + set (s0 := updateItem (id item)
                   (mkUpdates (Some pending) None None
                      (Some (retry_count item + 1))) s w).
      set (w0 := delay (Js.or_default (retryDelay (config s0)) 5000) w).
      assert (Hg0 : JsMap.get (id item) (items s0)
                    = Some (apply_updates item
                              (mkUpdates (Some pending) None None
                                 (Some (retry_count item + 1))) (now w)))
        by (apply updateItem_same, Hin; left; reflexivity).
      pose proof (publishItem_spec item s0 w0 _ Hg0)
        as (Hcalls & Hother & c1 & Hc1 & Hrc & Hst).
      cbv zeta in Hcalls, Hother, Hc1.
      destruct (publishItem publisher item (s0, w0)) as [step [s1 w1]].
      cbn [fst snd] in Hcalls, Hother, Hc1 |- *.
      assert (Hin' : forall c, In c r ->
                       JsMap.get (id c) (items s1) = Some c).
      { intros c Hc.
        assert (id c <> id item)
          by (intros E; apply Hitem; rewrite <- E; apply in_map; exact Hc).
        rewrite Hother by assumption. unfold s0.
        rewrite updateItem_other by assumption. apply Hin. right. exact Hc. }
      specialize (IH s1 w1 Hnd Hin'). cbv zeta in IH.
      destruct IH as (IHcalls & IHother & IHitems).
      split; [rewrite IHcalls, Hcalls; cbn [List.length]; unfold w0;
              cbn [delay calls]; lia |].
      split.
      * intros k Hk. cbn [map] in Hk.
        rewrite IHother by (intros H; apply Hk; right; exact H).
        assert (k <> id item) by (intros E; apply Hk; left; congruence).
        rewrite Hother by assumption. unfold s0.
        apply updateItem_other. assumption.
      * intros c [<- | Hc] Hrc0.
        -- exists c1. split; [| split; [| exact Hst]].
           ++ rewrite IHother; [exact Hc1 |].
              intros H. apply Hitem. apply in_map_iff in H as [x [Hx Hxin]].
              apply filter_In in Hxin as [Hxin _].
              rewrite <- Hx. apply in_map. exact Hxin.
           ++ rewrite Hrc. reflexivity.
        -- apply IHitems; assumption.
    + assert (Hin' : forall c, In c r ->
                       JsMap.get (id c) (items s) = Some c)
        by (intros c Hc; apply Hin; right; exact Hc).
      specialize (IH s w Hnd Hin'). cbv zeta in IH.
      destruct IH as (IHcalls & IHother & IHitems).
      split; [exact IHcalls |]. split; [exact IHother |].
      intros c [<- | Hc] Hrc0; [lia | apply IHitems; assumption].
Qed.

End BulkRetry.

Lemma items_keyed_values_get q c :
  items_keyed q -> In c (JsMap.values q) ->
  JsMap.get (BulkPublisher.id c) q = Some c.
Proof.
  intros [Hnd Hkeys] Hin. unfold JsMap.values in Hin.
  apply in_map_iff in Hin as [[k c0] [Hc Hin]]. simpl in Hc. subst c0.
  rewrite Forall_forall in Hkeys. pose proof (Hkeys _ Hin) as Hid.
  simpl in Hid. rewrite Hid.
  apply JsMap_In_get; assumption.
Qed.

Lemma items_keyed_ids q :
  items_keyed q -> map BulkPublisher.id (JsMap.values q) = map fst q.
Proof.
  intros [_ Hkeys]. unfold JsMap.values. rewrite map_map.
  apply map_ext_in. intros e He. rewrite Forall_forall in Hkeys. auto.
Qed.

Lemma items_keyed_get q k c :
  items_keyed q -> JsMap.get k q = Some c ->
  BulkPublisher.id c = k /\ In c (JsMap.values q).
Proof.
  intros [_ Hkeys] Hg. apply JsMap_get_In in Hg.
  rewrite Forall_forall in Hkeys. split; [exact (Hkeys _ Hg) |].
  apply in_map_iff. exists (k, c). split; [reflexivity | exact Hg].
Qed.

(** X20.  [retryFailedItems], on items held each under its own identifier:
    every failed item with fewer than [maxRetries] retries behind it is
    published once more, ends published or failed, and has its retry count
    raised by one; every other item is left as it was.  So a retry count
    that was within [maxRetries] stays within it. *)
Theorem X20_retryFailedItems (publisher : Publishing.Publisher)
    (s : BulkPublisher.Bulk) (w : Publishing.World) :
  items_keyed (BulkPublisher.items s) ->
  let m :=
    Js.or_default (BulkPublisher.maxRetries (BulkPublisher.config s)) 3 in
  let s1 := fst (BulkPublisher.retryFailedItems publisher s w) in
  let w1 := snd (BulkPublisher.retryFailedItems publisher s w) in
  Publishing.calls w1
  = (Publishing.calls w
     + List.length (filter (retriable m) (BulkPublisher.getAllItems s)))%nat
  /\ (forall k c,
        JsMap.get k (BulkPublisher.items s) = Some c ->
        retriable m c = true ->
        exists c1,
          JsMap.get k (BulkPublisher.items s1) = Some c1
          /\ BulkPublisher.retryCount c1
             = Some (BulkPublisher.retry_count c + 1)
          /\ (BulkPublisher.status c1 = Publishing.published
              \/ BulkPublisher.status c1 = Publishing.failed))
  /\ (forall k c,
        JsMap.get k (BulkPublisher.items s) = Some c ->
        retriable m c = false ->
        JsMap.get k (BulkPublisher.items s1) = Some c)
  /\ ((forall c, In c (BulkPublisher.getAllItems s) ->
         BulkPublisher.retry_count c <= m) ->
      forall c1, In c1 (BulkPublisher.getAllItems s1) ->
        BulkPublisher.retry_count c1 <= m).
Proof.
  intros Hk m s1 w1.
  pose proof (retryFailedItems_frame publisher s w) as (_ & Hkeys & _).
  fold s1 in Hkeys.
  assert (Hfold := retry_fold publisher m
                     (BulkPublisher.getItemsByStatus Publishing.failed s) s w).
  assert (Hnd : NoDup (map BulkPublisher.id
                         (BulkPublisher.getItemsByStatus Publishing.failed s))).
  { unfold BulkPublisher.getItemsByStatus. apply NoDup_map_filter.
    rewrite items_keyed_ids by exact Hk. apply Hk. }
  assert (Hin : forall c,
            In c (BulkPublisher.getItemsByStatus Publishing.failed s) ->
            JsMap.get (BulkPublisher.id c) (BulkPublisher.items s) = Some c).
  { intros c Hc. unfold BulkPublisher.getItemsByStatus in Hc.
    apply filter_In in Hc as [Hc _].
    apply items_keyed_values_get; assumption. }
  specialize (Hfold Hnd Hin). cbv zeta in Hfold.
  change (fold_left _ _ (s, w))
    with (BulkPublisher.retryFailedItems publisher s w) in Hfold.
  fold s1 w1 in Hfold. destruct Hfold as (Hcalls & Hother & Hitems).
  assert (Hfilter :
            filter (fun c => BulkPublisher.retry_count c <? m)
              (BulkPublisher.getItemsByStatus Publishing.failed s)
            = filter (retriable m) (BulkPublisher.getAllItems s)).
  { unfold BulkPublisher.getItemsByStatus, BulkPublisher.getAllItems,
      retriable.
    induction (JsMap.values (BulkPublisher.items s)) as [|x r IH];
      [reflexivity |].
    simpl. destruct (Publishing.Status_eqb _ _); simpl; rewrite IH;
      reflexivity. }
  rewrite Hfilter in Hcalls, Hother.
  assert (Hdone : forall k c,
            JsMap.get k (BulkPublisher.items s) = Some c ->
            retriable m c = true ->
            exists c1,
              JsMap.get k (BulkPublisher.items s1) = Some c1
              /\ BulkPublisher.retryCount c1
                 = Some (BulkPublisher.retry_count c + 1)
              /\ (BulkPublisher.status c1 = Publishing.published
                  \/ BulkPublisher.status c1 = Publishing.failed)).
  { intros k c Hg Hr. destruct (items_keyed_get _ _ _ Hk Hg) as [Hid Hv].
    unfold retriable in Hr. apply andb_true_iff in Hr as [Hf Hlt].
    rewrite <- Hid. apply Hitems; [| lia].
    unfold BulkPublisher.getItemsByStatus. apply filter_In. auto. }
  assert (Hkept : forall k c,
            JsMap.get k (BulkPublisher.items s) = Some c ->
            retriable m c = false ->
            JsMap.get k (BulkPublisher.items s1) = Some c).
  { intros k c Hg Hr. rewrite Hother; [exact Hg |].
    intros H. apply in_map_iff in H as [x [Hx Hxin]].
    apply filter_In in Hxin as [Hxin Hrx].
    apply items_keyed_values_get in Hxin; [| exact Hk].
    rewrite Hx in Hxin. congruence. }
  split; [exact Hcalls |]. split; [exact Hdone |]. split; [exact Hkept |].
  intros Hbound c1 Hc1. unfold BulkPublisher.getAllItems, JsMap.values in Hc1.
  apply in_map_iff in Hc1 as [[k c0] [E Hin1]]. simpl in E. subst c0.
  assert (Hg1 : JsMap.get k (BulkPublisher.items s1) = Some c1).
  { apply JsMap_In_get; [| exact Hin1]. rewrite Hkeys. apply Hk. }
  destruct (JsMap.get k (BulkPublisher.items s)) as [c|] eqn:Hg.
  - destruct (items_keyed_get _ _ _ Hk Hg) as [_ Hv].
    destruct (retriable m c) eqn:Hr.
    + destruct (Hdone k c Hg Hr) as (c2 & Hc2 & Hrc & _).
      assert (c2 = c1) by congruence. subst c2.
      unfold retriable in Hr. apply andb_true_iff in Hr as [_ Hlt].
      unfold BulkPublisher.retry_count at 1. rewrite Hrc.
      unfold Js.or_default.
      destruct (Z.eqb_spec (BulkPublisher.retry_count c + 1) 0); lia.
    + rewrite (Hkept k c Hg Hr) in Hg1. injection Hg1 as <-.
      apply Hbound. exact Hv.
  - exfalso. apply (JsMap_get_None_keys _ _ Hg). rewrite <- Hkeys.
    apply in_map_iff. exists (k, c1). split; [reflexivity | exact Hin1].
Qed.

Lemma X20_retryFailedItems_witness :
  Publishing.calls
    (snd (BulkPublisher.retryFailedItems succeeding_publisher one_failed_item
            (Publishing.mkWorld 0 0 0 [])))
  = 1%nat.
Proof.
  destruct (X20_retryFailedItems succeeding_publisher one_failed_item
              (Publishing.mkWorld 0 0 0 [])) as (Hc & _).
  - split; [| repeat constructor].
    simpl. constructor; [intros [] | constructor].
  - rewrite Hc. reflexivity.
Defined.

(** ** Scheduler: the time made of a weekday and an hour *)

(** X21.  Where local time is UTC plus a constant offset [tz], that is in a
    zone without daylight-saving changes (the model of [Date] has no
    others): for a weekday in 0..6 and an hour in 0..23, the time
    [createTimeForDay] makes of them from a base date falls on that weekday
    at that hour, on the day of the base date or one of the six days that
    follow; when the base date is already on that weekday it is the base
    date's own day, even if the hour has passed.  So the time made is less
    than a day before the base date and less than seven days after it.
    Across a change of offset the code can be an hour off these bounds. *)
Theorem X21_createTimeForDay (tz base dayOfWeek hour : Z) :
  0 <= dayOfWeek <= 6 -> 0 <= hour <= 23 ->
  let t := ContentScheduler.createTimeForDay tz base dayOfWeek hour in
  ContentScheduler.getDay tz t = dayOfWeek
  /\ t + tz
     = ContentScheduler.local_day tz t * ContentScheduler.DAY
       + hour * ContentScheduler.HOUR
  /\ 0 <= ContentScheduler.local_day tz t - ContentScheduler.local_day tz base
     <= 6
  /\ (ContentScheduler.getDay tz base = dayOfWeek ->
      ContentScheduler.local_day tz t = ContentScheduler.local_day tz base)
  /\ base - ContentScheduler.DAY < t < base + 7 * ContentScheduler.DAY.
Proof.
  intros Hd Hh t.
  destruct (createTimeForDay_weekday tz base dayOfWeek hour Hd Hh)
    as (Hday & Hrange & Hhour).
  fold t in Hday, Hrange, Hhour.
  split; [exact Hday |]. split; [exact Hhour |]. split; [exact Hrange |].
  split.
  - intros Hsame. unfold ContentScheduler.getDay in Hday, Hsame.
    rewrite <- Hsame in Hday.
    pose proof (Z.div_mod (ContentScheduler.local_day tz t + 4) 7
                  ltac:(lia)) as H1.
    pose proof (Z.div_mod (ContentScheduler.local_day tz base + 4) 7
                  ltac:(lia)) as H2.
    rewrite Hday in H1. lia.
  - assert (HD : ContentScheduler.DAY = 86400000) by reflexivity.
    assert (HH : ContentScheduler.HOUR = 3600000) by reflexivity.
    pose proof (Z.div_mod (base + tz) ContentScheduler.DAY ltac:(lia)) as H1.
    pose proof (Z.mod_pos_bound (base + tz) ContentScheduler.DAY ltac:(lia))
      as H2.
    fold (ContentScheduler.local_day tz base) in H1.
    rewrite HD, HH in *. lia.
Qed.

Lemma X21_createTimeForDay_witness :
  ContentScheduler.getDay 0 (ContentScheduler.createTimeForDay 0 0 4 12) = 4.
Proof.
  apply (X21_createTimeForDay 0 0 4 12); lia.
Defined.

(** ** Tester: issues against the score *)

Section ScoreFacts.
Import ContentTester.

Lemma scored_init : scored ([], 100).
Proof. unfold scored, len. cbn. split; [lia | reflexivity]. Qed.

Lemma check_scored c i p acc :
  5 <= p -> scored acc -> scored (check c i p acc).
Proof.
  intros Hp [H1 H2]. unfold check. destruct c; [| split; assumption].
  unfold scored, len in *. cbn [fst snd]. rewrite length_app. simpl List.length.
  split; [lia |]. intros H. destruct (fst acc); discriminate.
Qed.

Lemma append_scored l acc :
  scored acc -> scored (fst acc ++ l, snd acc - len l * 5).
Proof.
  intros [H1 H2]. unfold scored, len in *. cbn [fst snd].
  rewrite length_app. split; [lia |].
  intros H. apply app_eq_nil in H as [Ha ->]. simpl. rewrite (H2 Ha). lia.
Qed.

Lemma required_scored content fields : forall acc,
  scored acc ->
  scored
    (fold_left
       (fun acc field =>
          check (negb (hasRequiredField content field))
            (mkIssue error_ field high) 25 acc)
       fields acc).
Proof.
  induction fields as [|f r IH]; intros acc H; simpl; [exact H |].
  apply IH. apply check_scored; [lia | exact H].
Qed.

Lemma scored_le acc : scored acc -> snd acc <= 100.
Proof. intros [H _]. unfold len in H. lia. Qed.

Lemma check_marked c i j p b acc :
  0 <= p -> marked_down i b acc -> marked_down i b (check c j p acc).
Proof.
  intros Hp [H1 H2]. unfold check. destruct c; [| split; assumption].
  split; cbn [fst snd]; [apply in_or_app; left; exact H1 | lia].
Qed.

Lemma check_marks i p b acc :
  snd acc <= b + p -> marked_down i b (check true i p acc).
Proof.
  intros H. split; cbn [check fst snd]; [| lia].
  apply in_or_app. right. left. reflexivity.
Qed.

Lemma append_marked i b l acc :
  marked_down i b acc -> marked_down i b (fst acc ++ l, snd acc - len l * 5).
Proof.
  intros [H1 H2]. split; cbn [fst snd];
    [apply in_or_app; left; exact H1 | unfold len; lia].
Qed.

Lemma required_marked content i b fields : forall acc,
  marked_down i b acc ->
  marked_down i b
    (fold_left
       (fun acc field =>
          check (negb (hasRequiredField content field))
            (mkIssue error_ field high) 25 acc)
       fields acc).
Proof.
  induction fields as [|f r IH]; intros acc H; simpl; [exact H |].
  apply IH. apply check_marked; [lia | exact H].
Qed.

End ScoreFacts.

(** One step back through the accumulator of [testContentForPlatform]. *)
Ltac tester_step :=
  first
    [ apply scored_init
    | apply append_scored
    | apply required_scored
    | apply check_scored; [lia |]
    | apply append_marked
    | apply required_marked
    | apply check_marks
    | apply check_marked; [lia |]
    | match goal with
      | |- scored (match ?x with _ => _ end) => destruct x
      | |- marked_down _ _ (match ?x with _ => _ end) => destruct x
      end ].

(** The result for a platform the tester knows is made of an accumulator
    in which every issue has cost at least 5 points. *)
Lemma known_platform_result content platform requirements :
  ContentTester.platformRequirements !! platform = Some requirements ->
  exists acc,
    scored acc
    /\ ContentTester.testContentForPlatform content platform
       = ContentTester.mkTestResult platform
           (ContentTester.len (filter ContentTester.blocking (fst acc)) =? 0)
           (Z.max 0 (snd acc)) (fst acc).
Proof.
  intros H. unfold ContentTester.testContentForPlatform. rewrite H.
  cbv zeta. eexists. split; cycle 1; [reflexivity |].
  repeat tester_step.
Qed.

Lemma title_too_long_result content platform requirements :
  ContentTester.platformRequirements !! platform = Some requirements ->
  ContentTester.exceeds (ContentTester.maxTitleLength requirements)
    (ContentTester.strlen (ContentTester.c_title content)) = true ->
  exists acc,
    marked_down
      (ContentTester.mkIssue ContentTester.error_ "title" ContentTester.high)
      70 acc
    /\ ContentTester.testContentForPlatform content platform
       = ContentTester.mkTestResult platform
           (ContentTester.len (filter ContentTester.blocking (fst acc)) =? 0)
           (Z.max 0 (snd acc)) (fst acc).
Proof.
  intros H Ht. unfold ContentTester.testContentForPlatform.
  rewrite H. cbv zeta. rewrite Ht. eexists.
  split; cycle 1; [reflexivity |].
  repeat tester_step;
    (apply Z.le_trans with 100; [| lia]); apply scored_le;
    repeat tester_step.
Qed.

Lemma content_too_long_result content platform requirements :
  ContentTester.platformRequirements !! platform = Some requirements ->
  ContentTester.exceeds (ContentTester.maxContentLength requirements)
    (ContentTester.strlen (ContentTester.c_content content)) = true ->
  exists acc,
    marked_down
      (ContentTester.mkIssue ContentTester.error_ "content"
         ContentTester.high)
      70 acc
    /\ ContentTester.testContentForPlatform content platform
       = ContentTester.mkTestResult platform
           (ContentTester.len (filter ContentTester.blocking (fst acc)) =? 0)
           (Z.max 0 (snd acc)) (fst acc).
Proof.
  intros H Hc. unfold ContentTester.testContentForPlatform.
  rewrite H. cbv zeta. rewrite Hc. eexists.
  split; cycle 1; [reflexivity |].
  repeat tester_step;
    (apply Z.le_trans with 100; [| lia]); apply scored_le;
    repeat tester_step.
Qed.

(** A result that carries a blocking issue with the points down to 70. *)
Lemma marked_down_result content platform acc i :
  marked_down i 70 acc ->
  ContentTester.blocking i = true ->
  ContentTester.testContentForPlatform content platform
  = ContentTester.mkTestResult platform
      (ContentTester.len (filter ContentTester.blocking (fst acc)) =? 0)
      (Z.max 0 (snd acc)) (fst acc) ->
  let r := ContentTester.testContentForPlatform content platform in
  ContentTester.isCompatible r = false
  /\ ContentTester.score r <= 70
  /\ In i (ContentTester.issues r).
Proof.
  intros [Hin Hle] Hb Hr r. unfold r. rewrite Hr.
  cbn [ContentTester.isCompatible ContentTester.score ContentTester.issues].
  split; [| split; [lia | exact Hin]].
  destruct (_ =? 0) eqn:E; [| reflexivity].
  apply Z.eqb_eq in E. unfold ContentTester.len in E.
  assert (Hf : In i (filter ContentTester.blocking (fst acc)))
    by (apply filter_In; split; assumption).
  destruct (filter ContentTester.blocking (fst acc)); [destruct Hf |].
  simpl List.length in E. lia.
Qed.

Lemma compatible_no_blocking l :
  (ContentTester.len (filter ContentTester.blocking l) =? 0) = true
  <-> forall i, In i l ->
        ContentTester.i_severity i <> ContentTester.high
        /\ ContentTester.i_severity i <> ContentTester.critical.
Proof.
  unfold ContentTester.len. induction l as [|x r IH]; simpl.
  - split; [intros _ i [] | reflexivity].
  - unfold ContentTester.blocking at 1.
    destruct (ContentTester.i_severity x) eqn:E; simpl.
    + rewrite IH. split.
      * intros H i [<- | Hi]; [rewrite E; split; discriminate | auto].
      * intros H i Hi. apply H. right. exact Hi.
    + rewrite IH. split.
      * intros H i [<- | Hi]; [rewrite E; split; discriminate | auto].
      * intros H i Hi. apply H. right. exact Hi.
    + split; [intros H; exfalso; lia |].
      intros H. destruct (H x (or_introl eq_refl)) as [H1 _]. congruence.
    + split; [intros H; exfalso; lia |].
      intros H. destruct (H x (or_introl eq_refl)) as [_ H1]. congruence.
Qed.

(** X22.  The score [testContentForPlatform] gives is between 0 and 100, and
    every issue costs at least 5 points of the 100; the content is
    compatible exactly when no issue is of high or critical severity.  A
    platform the tester does not know is incompatible with score 0; for one
    it knows, the score is 100 exactly when there is no issue. *)
Theorem X22_score_and_issues (content : ContentTester.AIContent)
    (platform : ContentTester.PlatformType) :
  let r := ContentTester.testContentForPlatform content platform in
  ContentTester.r_platform r = platform
  /\ 0 <= ContentTester.score r <= 100
  /\ ContentTester.score r
     <= Z.max 0 (100 - 5 * ContentTester.len (ContentTester.issues r))
  /\ (ContentTester.isCompatible r = true <->
      forall i, In i (ContentTester.issues r) ->
        ContentTester.i_severity i <> ContentTester.high
        /\ ContentTester.i_severity i <> ContentTester.critical)
  /\ (ContentTester.platformRequirements !! platform = None ->
      ContentTester.isCompatible r = false /\ ContentTester.score r = 0)
  /\ (ContentTester.platformRequirements !! platform <> None ->
      (ContentTester.score r = 100 <-> ContentTester.issues r = [])).
Proof.
  intros r. subst r.
  destruct (ContentTester.platformRequirements !! platform) as [req|] eqn:E.
  - destruct (known_platform_result content platform req E)
      as (acc & [Hs1 Hs2] & ->).
    cbn [ContentTester.r_platform ContentTester.score ContentTester.issues
         ContentTester.isCompatible].
    assert (0 <= ContentTester.len (fst acc))
      by (unfold ContentTester.len; lia).
    split; [reflexivity |]. split; [lia |]. split; [lia |].
    split; [apply compatible_no_blocking |].
    split; [discriminate |]. intros _. split.
    + intros H1. destruct (fst acc) as [|x l] eqn:Ea; [reflexivity |].
      exfalso. unfold ContentTester.len in *. simpl List.length in *. lia.
    + intros Ha. rewrite (Hs2 Ha). reflexivity.
  - unfold ContentTester.testContentForPlatform. rewrite E.
    cbn [ContentTester.r_platform ContentTester.score ContentTester.issues
         ContentTester.isCompatible].
    split; [reflexivity |]. split; [lia |].
    split; [unfold ContentTester.len; simpl; lia |].
    split.
    + split; [discriminate |]. intros H.
      destruct (H _ (or_introl eq_refl)) as [_ H1]. exfalso. apply H1.
      reflexivity.
    + split; [auto | congruence].
Qed.

(** X23.  For a platform the tester knows, a title longer than the
    platform's title limit, or a body longer than its content limit, makes
    the content incompatible: the result carries the issue of high severity
    on the field whose limit is exceeded (on the title for the title limit,
    on the content for the content limit, on both for both), the score is
    70 or less, and [getBestPlatformsForContent] does not return the
    platform. *)
Theorem X23_too_long_is_incompatible (content : ContentTester.AIContent)
    (platform : ContentTester.PlatformType)
    (requirements : ContentTester.PlatformRequirements)
    (availablePlatforms : list ContentTester.PlatformType) :
  ContentTester.platformRequirements !! platform = Some requirements ->
  let title_too_long :=
    ContentTester.exceeds (ContentTester.maxTitleLength requirements)
      (ContentTester.strlen (ContentTester.c_title content)) in
  let content_too_long :=
    ContentTester.exceeds (ContentTester.maxContentLength requirements)
      (ContentTester.strlen (ContentTester.c_content content)) in
  title_too_long = true \/ content_too_long = true ->
  let r := ContentTester.testContentForPlatform content platform in
  ContentTester.isCompatible r = false
  /\ ContentTester.score r <= 70
  /\ (title_too_long = true ->
      In (ContentTester.mkIssue ContentTester.error_ "title"
            ContentTester.high) (ContentTester.issues r))
  /\ (content_too_long = true ->
      In (ContentTester.mkIssue ContentTester.error_ "content"
            ContentTester.high) (ContentTester.issues r))
  /\ ~ In platform
         (ContentTester.getBestPlatformsForContent content availablePlatforms).
Proof.
  intros Hreq title_too_long content_too_long Hlong r.
  assert (Ht : title_too_long = true ->
               ContentTester.isCompatible r = false
               /\ ContentTester.score r <= 70
               /\ In (ContentTester.mkIssue ContentTester.error_ "title"
                        ContentTester.high) (ContentTester.issues r)).
  { intros H.
    destruct (title_too_long_result content platform requirements Hreq H)
      as (acc & Hm & Hr).
    exact (marked_down_result content platform acc _ Hm eq_refl Hr). }
  assert (Hc : content_too_long = true ->
               ContentTester.isCompatible r = false
               /\ ContentTester.score r <= 70
               /\ In (ContentTester.mkIssue ContentTester.error_ "content"
                        ContentTester.high) (ContentTester.issues r)).
  { intros H.
    destruct (content_too_long_result content platform requirements Hreq H)
      as (acc & Hm & Hr).
    exact (marked_down_result content platform acc _ Hm eq_refl Hr). }
  assert (Hinc : ContentTester.isCompatible r = false
                 /\ ContentTester.score r <= 70).
  { destruct Hlong as [H | H]; [destruct (Ht H) as (? & ? & _)
                               | destruct (Hc H) as (? & ? & _)];
      split; assumption. }
  destruct Hinc as [Hinc Hscore].
  split; [exact Hinc |]. split; [exact Hscore |].
  split; [intros H; apply Ht; exact H |].
  split; [intros H; apply Hc; exact H |].
  rewrite getBestPlatformsForContent_eq, sort_In, filter_In.
  intros [_ Hcomp]. unfold compatible_with in Hcomp. fold r in Hcomp.
  congruence.
Qed.

Lemma X23_too_long_is_incompatible_witness :
  let r := ContentTester.testContentForPlatform long_titled "medium" in
  ContentTester.isCompatible r = false
  /\ In (ContentTester.mkIssue ContentTester.error_ "title"
           ContentTester.high) (ContentTester.issues r).
Proof.
  destruct (X23_too_long_is_incompatible long_titled "medium"
              (ContentTester.mkReq (Some 100) (Some 1000000) None
                 (Some 5) None None
                 (Some ["article"; "medium-story"]%string) None [])
              []) as (Hi & _ & Ht & _).
  - vm_compute. reflexivity.
  - left. vm_compute. reflexivity.
  - split; [exact Hi |]. apply Ht. vm_compute. reflexivity.
Defined.

(** ** Circuit breaker: what holds between two calls *)

Section BreakerInvariant.
Import RetryHandler.
Context {T : Type}.

Lemma invoke_clock (op : Operation T) w :
  clock w <= clock (snd (invoke op w)).
Proof. unfold invoke. simpl. lia. Qed.

Lemma execute_inv (op : Operation T) b w :
  breaker_inv (b, w) ->
  breaker_inv (snd (fst (execute b op w)), snd (execute b op w)).
Proof.
  intros (Hth & Hfc & Hopen & Hhalf & Hlast).
  unfold execute, execute_gate.
  pose proof (invoke_clock op w) as Hclock.
  destruct b as [s fc lf sc th rt].
  cbn [state failureCount lastFailureTime successCount threshold
       resetTimeMs] in *.
  assert (Hlt : s <> OPEN -> fc < th).
  { intros Hs. destruct (Z.lt_ge_cases fc th) as [H | H]; [exact H |].
    apply Hopen in H. contradiction. }
  assert (Hge : s = OPEN -> th <= fc) by apply Hopen.
  clear Hopen.
  destruct s; cbn [is_open].
  - specialize (Hlt ltac:(discriminate)).
    destruct (invoke op w) as [[v|e] w1]; cbn [fst snd] in *;
      unfold onSuccess, onFailure, breaker_inv, set_state, set_failureCount,
        set_lastFailureTime, set_successCount;
      cbn [state failureCount lastFailureTime successCount threshold
           resetTimeMs is_half_open];
      repeat match goal with
             | |- context [?a >=? ?c] => destruct (Z.geb_spec a c)
             end;
      cbn [state failureCount lastFailureTime successCount threshold
           resetTimeMs];
      repeat split; intros; try lia; try discriminate; try reflexivity;
      try (exfalso; lia).
  - specialize (Hge eq_refl).
    destruct (clock w - lf <? rt);
      [| destruct (invoke op w) as [[v|e] w1]]; cbn [fst snd] in *;
      unfold onSuccess, onFailure, breaker_inv, set_state, set_failureCount,
        set_lastFailureTime, set_successCount;
      cbn [state failureCount lastFailureTime successCount threshold
           resetTimeMs is_half_open fst snd];
      repeat match goal with
             | |- context [?a >=? ?c] => destruct (Z.geb_spec a c)
             end;
      cbn [state failureCount lastFailureTime successCount threshold
           resetTimeMs];
      repeat split; intros; try lia; try discriminate; try reflexivity;
      try (exfalso; lia).
  - specialize (Hlt ltac:(discriminate)). specialize (Hhalf eq_refl).
    destruct (invoke op w) as [[v|e] w1]; cbn [fst snd] in *;
      unfold onSuccess, onFailure, breaker_inv, set_state, set_failureCount,
        set_lastFailureTime, set_successCount;
      cbn [state failureCount lastFailureTime successCount threshold
           resetTimeMs is_half_open];
      repeat match goal with
             | |- context [?a >=? ?c] => destruct (Z.geb_spec a c)
             end;
      cbn [state failureCount lastFailureTime successCount threshold
           resetTimeMs];
      repeat split; intros; try lia; try discriminate; try reflexivity;
      try (exfalso; lia).
Qed.

Lemma call_after_inv wait (op : Operation T) st :
  0 <= wait -> breaker_inv st -> breaker_inv (call_after wait op st).
Proof.
  intros Hw Hinv. destruct st as [b w]. unfold call_after.
  set (w0 := mkWorld (clock w + wait) (invoked w) (drawn w) (trace w)).
  assert (H0 : breaker_inv (b, w0)).
  { destruct Hinv as (H0 & H1 & H2 & H3 & H4). unfold breaker_inv, w0. cbn.
    repeat split; try tauto; try lia; apply H2 || apply H3. }
  pose proof (execute_inv op b w0 H0) as H.
  destruct (execute b op w0) as [[r b1] w1]. exact H.
Qed.

Lemma call_all_inv (calls : list (Z * Operation T)) : forall st,
  Forall (fun c => 0 <= fst c) calls ->
  breaker_inv st -> breaker_inv (call_all calls st).
Proof.
  unfold call_all.
  induction calls as [|c r IH]; intros st Hw Hinv; cbn [fold_left];
    [exact Hinv |].
  apply Forall_cons_iff in Hw as [Hc Hr].
  apply IH; [exact Hr |]. apply call_after_inv; assumption.
Qed.

End BreakerInvariant.

(** X24.  A breaker made with a threshold of at least 1 and then driven
    through [execute] by any calls, whatever they return and however long
    the caller waits between them, is open exactly when its failure count
    has reached the threshold; while it is half-open it has counted one or
    two successes; its failure count is never negative and its last
    failure never lies in the future. *)
Theorem X24_breaker_invariant {T : Type}
    (calls : list (Z * RetryHandler.Operation T)) (th : Z) (rt : option Z)
    (w : RetryHandler.World) :
  1 <= th -> 0 <= RetryHandler.clock w ->
  Forall (fun c => 0 <= fst c) calls ->
  let st := call_all calls (RetryHandler.newCircuitBreaker (Some th) rt, w) in
  0 <= RetryHandler.failureCount (fst st)
  /\ (RetryHandler.state (fst st) = RetryHandler.OPEN <->
      RetryHandler.threshold (fst st) <= RetryHandler.failureCount (fst st))
  /\ (RetryHandler.state (fst st) = RetryHandler.HALF_OPEN ->
      1 <= RetryHandler.successCount (fst st) <= 2)
  /\ RetryHandler.lastFailureTime (fst st) <= RetryHandler.clock (snd st).
Proof.
  intros Hth Hclock Hwaits st.
  assert (H0 : breaker_inv (RetryHandler.newCircuitBreaker (Some th) rt, w)).
  { unfold breaker_inv, RetryHandler.newCircuitBreaker. cbn.
    repeat split; try lia; try discriminate. }
  pose proof (call_all_inv calls _ Hwaits H0) as H.
  fold st in H. destruct st as [b w1]. apply H.
Qed.

Lemma X24_breaker_invariant_witness :
  let st :=
    call_all [(0, failing_op); (5, failing_op); (0, failing_op)]
      (RetryHandler.newCircuitBreaker (Some 3) (Some 1000),
       RetryHandler.mkWorld 0 0 0 []) in
  RetryHandler.state (fst st) = RetryHandler.OPEN <->
  RetryHandler.threshold (fst st) <= RetryHandler.failureCount (fst st).
Proof.
  apply (X24_breaker_invariant
           [(0, failing_op); (5, failing_op); (0, failing_op)] 3 (Some 1000)
           (RetryHandler.mkWorld 0 0 0 [])).
  - lia.
  - simpl. lia.
  - repeat constructor; simpl; lia.
Defined.

(** ** Retry handler: a breaker that opens between two attempts *)

Section TripFacts.
Import RetryHandler.
Variable random : nat -> Q.
Context {T : Type}.
Variable op : Operation T.
Variable cfg : RetryConfig.
Hypothesis op_fails :
  forall k t, exists e,
    op_result (op k t) = Rejected e /\ isRetryableError e cfg = true.
Hypothesis breaker_error_final :
  isRetryableError breaker_open_error cfg = false.

Lemma calculateDelay_le_max a w :
  (fst (calculateDelay random a cfg w) <= maxDelayMs cfg)%Q.
Proof.
  unfold calculateDelay. cbv zeta.
  destruct (jitter_on cfg); cbn [fst]; apply Q.le_min_r.
Qed.

(** A failure through a closed breaker, with a retry left. *)
Lemma retry_loop_closed_fail r a b le w :
  state b = CLOSED -> a <= maxRetries cfg ->
  exists e d w1,
    retry_loop random op cfg (S r) a (Some b) le w
    = retry_loop random op cfg r (a + 1) (Some (onFailure (clock w1) b))
        (Some e) (sleep d w1)
    /\ invoked w1 = S (invoked w)
    /\ (d <= maxDelayMs cfg)%Q.
Proof.
  intros Hs Ha.
  destruct (op_fails (invoked w) (clock w)) as (e & He & Hr).
  cbn [retry_loop attempt_once].
  rewrite (execute_through b b op (log (EvStart a) w))
    by (apply execute_gate_not_open; congruence).
  rewrite invoke_result. cbn [log invoked clock]. rewrite He, Hr.
  cbn [negb].
  destruct (Z.gtb_spec a (maxRetries cfg)); [lia |].
  match goal with
  | |- context [calculateDelay random a cfg ?w0] =>
      pose proof (calculateDelay_le_max a w0) as Hd;
      pose proof (calculateDelay_world random cfg a w0) as (Hc & Hi & _);
      destruct (calculateDelay random a cfg w0) as [d w3]
  end.
  cbn [fst snd] in Hd, Hc, Hi.
  exists e, d, w3. split; [| split; [| exact Hd]].
  - rewrite Hc. reflexivity.
  - rewrite Hi. reflexivity.
Qed.

(** The attempt that meets the breaker open ends the loop. *)
Lemma retry_loop_open_stop r a b le w :
  state b = OPEN -> clock w - lastFailureTime b < resetTimeMs b ->
  retry_loop random op cfg (S r) a (Some b) le w
  = mkExit None a (Some breaker_open_error) (Some b)
      (log (EvEnd a (Failed breaker_open_error)) (log (EvStart a) w)).
Proof.
  intros Hs Ht. cbn [retry_loop attempt_once]. unfold execute.
  rewrite (execute_gate_open_early _ _ Hs) by exact Ht.
  rewrite breaker_error_final. reflexivity.
Qed.

Lemma retry_loop_trips m : forall r a b le w,
  state b = CLOSED ->
  failureCount b + Z.of_nat (S m) = threshold b ->
  Z.of_nat r = maxRetries cfg + 2 - a ->
  a + Z.of_nat (S m) <= maxRetries cfg + 1 ->
  0 < resetTimeMs b -> Qfloor (maxDelayMs cfg) < resetTimeMs b ->
  let x := retry_loop random op cfg r a (Some b) le w in
  x_data x = None
  /\ x_attempts x = a + Z.of_nat (S m)
  /\ x_lastError x = Some breaker_open_error
  /\ invoked (x_world x) = (invoked w + S m)%nat
  /\ exists b1,
       x_breaker x = Some b1 /\ state b1 = OPEN
       /\ failureCount b1 = threshold b1.
Proof.
  induction m as [|m IH]; intros r a b le w Hs Hf Hr Ha Hrt Hmax.
  - destruct r as [|[|r]]; [lia | lia |].
    destruct (retry_loop_closed_fail (S r) a b le w Hs ltac:(lia))
      as (e & d & w1 & -> & Hinv & Hd).
    assert (Ho : state (onFailure (clock w1) b) = OPEN
                 /\ lastFailureTime (onFailure (clock w1) b) = clock w1
                 /\ resetTimeMs (onFailure (clock w1) b) = resetTimeMs b
                 /\ failureCount (onFailure (clock w1) b)
                    = threshold (onFailure (clock w1) b)).
    { unfold onFailure. cbn.
      destruct (Z.geb_spec (failureCount b + 1) (threshold b)); [| lia].
      cbn. repeat split. lia. }
    destruct Ho as (Ho & Hl & Hrt1 & Hfc).
    rewrite retry_loop_open_stop; [| exact Ho |].
    + cbn [x_data x_attempts x_lastError x_world x_breaker log sleep invoked].
      split; [reflexivity |]. split; [lia |]. split; [reflexivity |].
      split; [lia |]. eexists. split; [reflexivity |]. split; assumption.
    + rewrite Hl, Hrt1. cbn [sleep clock].
      pose proof (Qfloor_resp_le _ _ Hd). lia.
  - destruct r as [|r]; [lia |].
    destruct (retry_loop_closed_fail r a b le w Hs ltac:(lia))
      as (e & d & w1 & -> & Hinv & Hd).
    assert (Hc : state (onFailure (clock w1) b) = CLOSED
                 /\ failureCount (onFailure (clock w1) b) = failureCount b + 1
                 /\ threshold (onFailure (clock w1) b) = threshold b
                 /\ resetTimeMs (onFailure (clock w1) b) = resetTimeMs b).
    { unfold onFailure. cbn.
      destruct (Z.geb_spec (failureCount b + 1) (threshold b)); [lia |].
      cbn. repeat split. exact Hs. }
    destruct Hc as (Hc & Hfc & Hth & Hrt1).
    specialize (IH r (a + 1) (onFailure (clock w1) b) (Some e) (sleep d w1)).
    cbv zeta in IH.
    destruct IH as (H1 & H2 & H3 & H4 & H5); try lia; [exact Hc |].
    split; [exact H1 |]. split; [lia |]. split; [exact H3 |].
    split; [| exact H5]. rewrite H4. cbn [sleep invoked]. lia.
Qed.

End TripFacts.

(** X25.  [executeWithRetry] on a key whose breaker is closed and short of
    its threshold by no more failures than the policy has retries, with an
    operation that keeps failing retryably, under a policy that does not
    list the breaker's own message as retryable and whose longest delay is
    shorter than the breaker's reset time: the operation is called until
    the breaker opens, the next attempt is refused by the breaker and ends
    the run.  The result counts that attempt too and carries the breaker's
    error instead of the operation's; the breaker is left open. *)
Theorem X25_breaker_opens_between_attempts (random : nat -> Q) {T : Type}
    (op : RetryHandler.Operation T) (h : RetryHandler.Handler)
    (config : option RetryHandler.PartialRetryConfig) (key : option string)
    (k : string) (b : RetryHandler.CircuitBreaker) (w : RetryHandler.World) :
  let cfg := RetryHandler.mergeConfig (RetryHandler.defaultConfig h) config in
  RetryHandler.key_on key = Some k ->
  RetryHandler.circuitBreakers h !! k = Some b ->
  RetryHandler.state b = RetryHandler.CLOSED ->
  RetryHandler.failureCount b < RetryHandler.threshold b ->
  RetryHandler.threshold b - RetryHandler.failureCount b
  <= RetryHandler.maxRetries cfg ->
  0 < RetryHandler.resetTimeMs b ->
  Qfloor (RetryHandler.maxDelayMs cfg) < RetryHandler.resetTimeMs b ->
  (forall i t, exists e,
      RetryHandler.op_result (op i t) = RetryHandler.Rejected e
      /\ RetryHandler.isRetryableError e cfg = true) ->
  RetryHandler.isRetryableError RetryHandler.breaker_open_error cfg = false ->
  let res := RetryHandler.executeWithRetry random op h config key w in
  let r := fst (fst res) in
  RetryHandler.success r = false
  /\ RetryHandler.attempts r
     = RetryHandler.threshold b - RetryHandler.failureCount b + 1
  /\ RetryHandler.error r = Some RetryHandler.breaker_open_error
  /\ Z.of_nat (RetryHandler.invoked (snd res))
     = Z.of_nat (RetryHandler.invoked w)
       + (RetryHandler.threshold b - RetryHandler.failureCount b)
  /\ RetryHandler.getCircuitBreakerState (snd (fst res)) k
     = Some RetryHandler.OPEN.
Proof.
  intros cfg Hkey Hb Hs Hlt Hbudget Hrt Hmax Hop Hfinal res r.
  subst r res.
  pose proof (retry_loop_trips random op cfg Hop Hfinal
                (Z.to_nat (RetryHandler.threshold b
                           - RetryHandler.failureCount b) - 1)
                (Z.to_nat (RetryHandler.maxRetries cfg + 1)) 1 b None w Hs
                ltac:(lia) ltac:(lia) ltac:(lia) Hrt Hmax)
    as (Hd & Ha & He & Hi & b1 & Hb1 & Hopen & _).
  cbv zeta in Hd, Ha, He, Hi, Hb1.
  unfold RetryHandler.executeWithRetry, RetryHandler.getCircuitBreakerState.
  cbv zeta. fold cfg.
  unfold RetryHandler.breaker_for, RetryHandler.store_breaker.
  rewrite Hkey, Hb, Hd, Hb1.
  cbn [fst snd RetryHandler.success RetryHandler.attempts RetryHandler.error
       RetryHandler.circuitBreakers].
  split; [reflexivity |]. split; [lia |]. split; [exact He |].
  split; [lia |].
  rewrite lookup_insert_eq. cbn. rewrite Hopen. reflexivity.
Qed.

Lemma X25_breaker_opens_between_attempts_witness :
  let r :=
    fst (fst (RetryHandler.executeWithRetry half
                (always_failing_with network_timeout) api_nearly_open None
                (Some "api"%string) fresh_world)) in
  RetryHandler.attempts r = 2
  /\ RetryHandler.error r = Some RetryHandler.breaker_open_error.
Proof.
  destruct (X25_breaker_opens_between_attempts half
              (always_failing_with network_timeout) api_nearly_open None
              (Some "api"%string) "api"%string
              (RetryHandler.mkBreaker RetryHandler.CLOSED 2 0 0 3 30000)
              fresh_world) as (_ & Ha & He & _).
  - reflexivity.
  - apply lookup_insert_eq.
  - reflexivity.
  - simpl. lia.
  - vm_compute. discriminate.
  - simpl. lia.
  - vm_compute. reflexivity.
  - intros i t. exists network_timeout. split; vm_compute; reflexivity.
  - vm_compute. reflexivity.
  - split; [exact Ha | exact He].
Defined.

(** ** Bulk publisher: testing and adding items *)

Section BulkTesting.
Import ContentTester Publishing BulkPublisher.

Lemma testItem_other item s w k :
  k <> id item ->
  JsMap.get k (items (testItem item s w)) = JsMap.get k (items s).
Proof.
  intros Hk. unfold testItem, updateItemStatus. cbv zeta.
  rewrite !updateItem_other by exact Hk. reflexivity.
Qed.

Lemma testItem_same item s w c :
  JsMap.get (id item) (items s) = Some c ->
  JsMap.get (id item) (items (testItem item s w))
  = Some
      (mkItem (id c) (content c) (platforms c) (priority c)
         (if forallb (compatible_with (content item)) (platforms item)
          then ready else pending)
         (Some (testContentForMultiplePlatforms (content item)
                  (platforms item)))
         (publishResults c) (retryCount c) (createdAt c) (now w)).
Proof.
  intros H. unfold testItem, updateItemStatus. cbv zeta.
  erewrite updateItem_same; [| apply updateItem_same; exact H].
  rewrite all_results_compatible. reflexivity.
Qed.

Lemma test_fold l : forall s w,
  NoDup (map id l) ->
  (forall c, In c l -> JsMap.get (id c) (items s) = Some c) ->
  let s1 := fold_left (fun s item => testItem item s w) l s in
  (forall k, ~ In k (map id l) ->
     JsMap.get k (items s1) = JsMap.get k (items s))
  /\ (forall c, In c l ->
        JsMap.get (id c) (items s1)
        = Some
            (mkItem (id c) (content c) (platforms c) (priority c)
               (if forallb (compatible_with (content c)) (platforms c)
                then ready else pending)
               (Some (testContentForMultiplePlatforms (content c)
                        (platforms c)))
               (publishResults c) (retryCount c) (createdAt c) (now w))).
Proof.
  induction l as [|item r IH]; intros s w Hnd Hin; cbn [fold_left].
  - split; [reflexivity | intros c []].
  - cbn [map] in Hnd. apply NoDup_cons_iff in Hnd as [Hitem Hnd].
    assert (Hin' : forall c, In c r ->
                     JsMap.get (id c) (items (testItem item s w)) = Some c).
    { intros c Hc. rewrite testItem_other; [apply Hin; right; exact Hc |].
      intros E. apply Hitem. rewrite <- E. apply in_map. exact Hc. }
    destruct (IH (testItem item s w) w Hnd Hin') as [IH1 IH2].
    split.
    + intros k Hk. cbn [map] in Hk.
      rewrite IH1 by (intros H; apply Hk; right; exact H).
      apply testItem_other. intros E. apply Hk. left. congruence.
    + intros c [<- | Hc]; [| apply IH2; exact Hc].
      rewrite IH1 by exact Hitem.
      apply testItem_same. apply Hin. left. reflexivity.
Qed.

End BulkTesting.

(** X26.  [testAllItems], on items held each under its own identifier,
    tests every pending item: the item gets the results for its platforms
    and becomes ready when all of them are compatible, and stays pending
    otherwise; an item that is not pending is left as it was. *)
Theorem X26_testAllItems (s : BulkPublisher.Bulk) (w : Publishing.World) :
  items_keyed (BulkPublisher.items s) ->
  let s1 := BulkPublisher.testAllItems s w in
  (forall k c,
     JsMap.get k (BulkPublisher.items s) = Some c ->
     BulkPublisher.status c = Publishing.pending ->
     exists c1,
       JsMap.get k (BulkPublisher.items s1) = Some c1
       /\ (BulkPublisher.status c1 = Publishing.ready <->
           forall p, In p (BulkPublisher.platforms c) ->
             ContentTester.isCompatible
               (ContentTester.testContentForPlatform
                  (BulkPublisher.content c) p) = true)
       /\ (BulkPublisher.status c1 = Publishing.ready
           \/ BulkPublisher.status c1 = Publishing.pending)
       /\ BulkPublisher.testResults c1
          = Some
              (ContentTester.testContentForMultiplePlatforms
                 (BulkPublisher.content c) (BulkPublisher.platforms c))
       /\ BulkPublisher.content c1 = BulkPublisher.content c
       /\ BulkPublisher.retryCount c1 = BulkPublisher.retryCount c)
  /\ (forall k c,
        JsMap.get k (BulkPublisher.items s) = Some c ->
        BulkPublisher.status c <> Publishing.pending ->
        JsMap.get k (BulkPublisher.items s1) = Some c).
Proof.
  intros Hk s1. subst s1. unfold BulkPublisher.testAllItems. cbv zeta.
  assert (Hnd : NoDup (map BulkPublisher.id
                         (BulkPublisher.getItemsByStatus Publishing.pending
                            s))).
  { unfold BulkPublisher.getItemsByStatus. apply NoDup_map_filter.
    rewrite items_keyed_ids by exact Hk. apply Hk. }
  assert (Hin : forall c,
            In c (BulkPublisher.getItemsByStatus Publishing.pending s) ->
            JsMap.get (BulkPublisher.id c) (BulkPublisher.items s) = Some c).
  { intros c Hc. unfold BulkPublisher.getItemsByStatus in Hc.
    apply filter_In in Hc as [Hc _].
    apply items_keyed_values_get; assumption. }
  destruct (test_fold _ s w Hnd Hin) as [Hother Hitems].
  split.
  - intros k c Hg Hp. destruct (items_keyed_get _ _ _ Hk Hg) as [Hid Hv].
    assert (Hc : In c (BulkPublisher.getItemsByStatus Publishing.pending s)).
    { unfold BulkPublisher.getItemsByStatus. apply filter_In.
      split; [exact Hv |]. apply Status_eqb_eq. exact Hp. }
    eexists. split; [rewrite <- Hid; apply Hitems; exact Hc |].
    cbn [BulkPublisher.status BulkPublisher.testResults
         BulkPublisher.content BulkPublisher.retryCount].
    split; [| split; [| repeat split]].
    + destruct (forallb _ _) eqn:E.
      * rewrite forallb_forall in E. split; [intros _; exact E | reflexivity].
      * split; [discriminate |]. intros Hall.
        rewrite <- forallb_forall in Hall.
        unfold compatible_with in E. congruence.
    + destruct (forallb _ _); [left | right]; reflexivity.
  - intros k c Hg Hp. rewrite Hother; [exact Hg |].
    intros H. apply in_map_iff in H as [x [Hx Hxin]].
    unfold BulkPublisher.getItemsByStatus in Hxin.
    apply filter_In in Hxin as [Hxin Hpx].
    apply items_keyed_values_get in Hxin; [| exact Hk].
    rewrite Hx in Hxin. apply Hp. apply Status_eqb_eq.
    congruence.
Qed.

Lemma X26_testAllItems_witness :
  exists c1,
    JsMap.get "a" (BulkPublisher.items
                     (BulkPublisher.testAllItems five_items
                        (Publishing.mkWorld 0 0 0 []))) = Some c1
    /\ BulkPublisher.status c1 = Publishing.ready.
Proof.
  destruct (X26_testAllItems five_items (Publishing.mkWorld 0 0 0 []))
    as [H _].
  - split; [| repeat constructor].
    simpl. repeat constructor; simpl; intuition discriminate.
  - destruct (H "a"%string (bulk_item "a" Publishing.low 1) eq_refl eq_refl)
      as (c1 & Hg & Hr & _).
    exists c1. split; [exact Hg |]. apply Hr.
    intros p [<- | []]. vm_compute. reflexivity.
Defined.

Lemma JsMap_set_fresh {V} (k : string) (v : V) (m : list (string * V)) :
  ~ In k (map fst m) -> JsMap.set k v m = m ++ [(k, v)].
Proof.
  induction m as [|[k1 v1] r IH]; simpl; intros H; [reflexivity |].
  destruct (String.eqb_spec k1 k) as [-> | Hne]; [tauto |].
  rewrite IH by tauto. reflexivity.
Qed.

Section BulkAdding.
Import ContentTester Publishing BulkPublisher.
Variable generateItemId : nat -> Z -> string.

(** The item [addItems] makes of the [i]-th entry. *)
Lemma addItems_acc l : forall added s w,
  (forall i j, generateItemId i (now w) = generateItemId j (now w) -> i = j) ->
  (forall i, (generated w <= i)%nat ->
     ~ In (generateItemId i (now w)) (map fst (items s))) ->
  items_keyed (items s) ->
  let r := fold_left
             (fun (acc : list BulkPublishItem * Bulk * World) item =>
                let '(added, s, w) := acc in
                let '(bulkItem, s, w) :=
                  addItem generateItemId (n_content item) (n_platforms item)
                    (n_priority item) s w in
                (added ++ [bulkItem], s, w))
             l (added, s, w) in
  exists new,
    fst (fst r) = added ++ new
    /\ getAllItems (snd (fst r)) = getAllItems s ++ new
    /\ items_keyed (items (snd (fst r)))
    /\ map content new = map n_content l
    /\ map platforms new = map n_platforms l
    /\ map priority new
       = map (fun x => match n_priority x with
                       | Some p => p
                       | None => Publishing.medium
                       end) l
    /\ Forall (fun c => status c = pending /\ testResults c = None
                        /\ retryCount c = None /\ createdAt c = now w) new
    /\ generated (snd r) = (generated w + List.length l)%nat
    /\ config (snd (fst r)) = config s.
Proof.
  induction l as [|x r IH]; intros added s w Hinj Hfresh Hk.
  - exists []. cbn. rewrite !app_nil_r.
    repeat split; try reflexivity; try assumption; try apply Hk;
      try constructor; lia.
  - set (i := generateItemId (generated w) (now w)).
    set (item := mkItem i (n_content x) (n_platforms x)
                   (match n_priority x with Some p => p | None => Publishing.medium end)
                   pending None None None (now w) (now w)).
    set (w1 := mkWorld (now w) (calls w) (S (generated w)) (trace w)).
    assert (Hi : ~ In i (map fst (items s))) by (apply Hfresh; lia).
    assert (Hset : JsMap.set i item (items s) = items s ++ [(i, item)])
      by (apply JsMap_set_fresh; exact Hi).
    match goal with
    | |- context [fold_left ?f (x :: r) ?a] =>
        change (fold_left f (x :: r) a)
          with (fold_left f r
                  (added ++ [item],
                   with_items (JsMap.set i item (items s)) s, w1))
    end.
    destruct (IH (added ++ [item])
                (with_items (JsMap.set i item (items s)) s) w1)
      as (new & H1 & H2 & H3 & H4 & H5 & H6 & H7 & H8 & H9).
    + exact Hinj.
    + intros j Hj. cbn [with_items items]. rewrite Hset, map_app, in_app_iff.
      cbn [map fst In]. intros [H | [H | []]].
      * revert H. apply Hfresh. unfold w1 in Hj. cbn in Hj. lia.
      * apply Hinj in H. unfold w1 in Hj. cbn in Hj. lia.
    + cbn [with_items items]. rewrite Hset. destruct Hk as [Hnd Hkeys].
      split.
      * rewrite map_app. apply NoDup_snoc; assumption.
      * apply Forall_app. split; [exact Hkeys | repeat constructor].
    + exists (item :: new).
      split; [rewrite H1, <- app_assoc; reflexivity |].
      split; [rewrite H2; unfold getAllItems, JsMap.values;
              cbn [with_items items]; rewrite Hset, map_app, <- app_assoc;
              reflexivity |].
      split; [exact H3 |].
      split; [cbn [map]; rewrite H4; reflexivity |].
      split; [cbn [map]; rewrite H5; reflexivity |].
      split; [cbn [map]; rewrite H6; reflexivity |].
      split; [constructor; [repeat split | exact H7] |].
      split; [rewrite H8; unfold w1; cbn; lia | exact H9].
Qed.

End BulkAdding.

(** X27.  [addItems], when the identifiers it generates are distinct from
    each other and from those already held: the items are appended to the
    ones held, in the order given, and returned in that order; each is
    pending and untested, with the content and platforms given and the
    priority given, medium when none is; the items already held stay as
    they were. *)
Theorem X27_addItems (generateItemId : nat -> Z -> string)
    (contentItems : list BulkPublisher.NewItem) (s : BulkPublisher.Bulk)
    (w : Publishing.World) :
  (forall i j,
     generateItemId i (Publishing.now w) = generateItemId j (Publishing.now w)
     -> i = j) ->
  (forall i, (Publishing.generated w <= i)%nat ->
     ~ In (generateItemId i (Publishing.now w))
         (map fst (BulkPublisher.items s))) ->
  items_keyed (BulkPublisher.items s) ->
  let r := BulkPublisher.addItems generateItemId contentItems s w in
  let added := fst (fst r) in
  BulkPublisher.getAllItems (snd (fst r))
  = BulkPublisher.getAllItems s ++ added
  /\ items_keyed (BulkPublisher.items (snd (fst r)))
  /\ map BulkPublisher.content added
     = map BulkPublisher.n_content contentItems
  /\ map BulkPublisher.platforms added
     = map BulkPublisher.n_platforms contentItems
  /\ map BulkPublisher.priority added
     = map (fun x => match BulkPublisher.n_priority x with
                     | Some p => p
                     | None => Publishing.medium
                     end) contentItems
  /\ Forall (fun c => BulkPublisher.status c = Publishing.pending
                      /\ BulkPublisher.testResults c = None
                      /\ BulkPublisher.retryCount c = None
                      /\ BulkPublisher.createdAt c = Publishing.now w) added
  /\ Publishing.generated (snd r)
     = (Publishing.generated w + List.length contentItems)%nat.
Proof.
  intros Hinj Hfresh Hk r added. subst added r.
  unfold BulkPublisher.addItems.
  destruct (addItems_acc generateItemId contentItems [] s w Hinj Hfresh Hk)
    as (new & H1 & H2 & H3 & H4 & H5 & H6 & H7 & H8 & _).
  cbn [app] in H1. rewrite H1.
  split; [exact H2 |]. split; [exact H3 |]. split; [exact H4 |].
  split; [exact H5 |]. split; [exact H6 |]. split; [exact H7 | exact H8].
Qed.

Lemma numbered_inj i : forall j, numbered i = numbered j -> i = j.
Proof.
  induction i as [|i IH]; intros [|j]; simpl; intros H;
    try discriminate; [reflexivity |].
  injection H as H. f_equal. apply IH. exact H.
Qed.

Lemma X27_addItems_witness :
  let r :=
    BulkPublisher.addItems (fun i _ => numbered i)
      [BulkPublisher.mkNewItem sample_content ["ghost"%string] None]
      five_items (Publishing.mkWorld 0 0 0 []) in
  List.length (BulkPublisher.getAllItems (snd (fst r))) = 6%nat.
Proof.
  intros r.
  destruct (X27_addItems (fun i _ => numbered i)
              [BulkPublisher.mkNewItem sample_content ["ghost"%string] None]
              five_items (Publishing.mkWorld 0 0 0 [])) as (H & _).
  - intros i j H. apply numbered_inj. exact H.
  - intros i _. destruct i; simpl; intuition discriminate.
  - split; [| repeat constructor].
    simpl. repeat constructor; simpl; intuition discriminate.
  - fold r in H. rewrite H. reflexivity.
Defined.

(** ** Bulk publisher: what [publishAll] publishes *)

Lemma JsMap_held_keys {V} (k : string) (m : list (string * V)) :
  JsMap.get k m <> None <-> In k (map fst m).
Proof.
  induction m as [|[k1 v1] r IH]; simpl; [tauto |].
  destruct (String.eqb_spec k1 k) as [-> | Hne].
  - split; [auto | discriminate].
  - rewrite IH. split; [auto | intros [H | H]; [congruence | exact H]].
Qed.

Section BulkDone.
Import Publishing BulkPublisher.
Variable publisher : Publisher.

Lemma frame_held s s1 k : bulk_frame s s1 -> item_held s k -> item_held s1 k.
Proof.
  intros (_ & Hkeys & _). unfold item_held.
  rewrite !JsMap_held_keys, Hkeys. auto.
Qed.

Lemma updateItem_done_other itemId u s w k :
  k <> itemId -> item_done s k -> item_done (updateItem itemId u s w) k.
Proof.
  intros Hk (c & Hg & Hs). exists c.
  rewrite updateItem_other by exact Hk. auto.
Qed.

Lemma updateItem_done itemId u s w st :
  item_held s itemId -> u_status u = Some st ->
  st = published \/ st = failed ->
  item_done (updateItem itemId u s w) itemId.
Proof.
  unfold item_held. intros Hh Hu Hst.
  destruct (JsMap.get itemId (items s)) as [c|] eqn:E; [| congruence].
  eexists. split; [apply updateItem_same; exact E |].
  cbn. rewrite Hu. exact Hst.
Qed.

Lemma record_result_done p t s w k :
  item_held s k -> k = id (fst p) \/ item_done s k ->
  item_done (snd (fst (record_result p (t, s, w)))) k.
Proof.
  intros Hh Hk. unfold record_result, updateItemStatus. cbv zeta.
  destruct (String.eqb_spec k (id (fst p))) as [-> | Hne].
  - destruct (p_settled (snd p)) as [rs|m]; cbn [fst snd];
      eapply updateItem_done; try exact Hh; try reflexivity;
      [destruct (allSuccessful rs) |]; auto.
  - destruct Hk as [Hk | Hd]; [contradiction |].
    destruct (p_settled (snd p)); cbn [fst snd];
      apply updateItem_done_other; assumption.
Qed.

Lemma record_results_done started : forall t s w k,
  item_held s k ->
  In k (map (fun p => id (fst p)) started) \/ item_done s k ->
  item_done
    (snd (fst (fold_left (fun st p => record_result p st) started
                 (t, s, w)))) k.
Proof.
  induction started as [|p r IH]; intros t s w k Hh Hk; cbn [fold_left].
  - destruct Hk as [[] | Hd]. exact Hd.
  - pose proof (record_results_frame [p] t s w) as Hf.
    cbn [fold_left] in Hf.
    pose proof (record_result_done p t s w k Hh) as Hd.
    destruct (record_result p (t, s, w)) as [[t1 s1] w1].
    cbn [fst snd] in Hf, Hd.
    apply IH; [exact (frame_held _ _ _ Hf Hh) |].
    destruct (String.eqb_spec k (id (fst p))) as [-> | Hne].
    + right. apply Hd. left. reflexivity.
    + destruct Hk as [[Hk | Hk] | Hk];
        [congruence | left; exact Hk | right; apply Hd; right; exact Hk].
Qed.

Lemma start_batch_other batch : forall s w k,
  ~ In k (map id batch) ->
  JsMap.get k (items (fst (snd (start_batch publisher batch (s, w)))))
  = JsMap.get k (items s).
Proof.
  induction batch as [|item r IH]; intros s w k Hk; cbn [start_batch].
  - reflexivity.
  - unfold publishItem_start, start_publish, updateItemStatus.
    match goal with
    | |- context [start_batch publisher r (?s1, ?w1)] =>
        specialize (IH s1 w1 k);
        destruct (start_batch publisher r (s1, w1)) as [started [s2 w2]]
    end.
    cbn [fst snd] in *. rewrite IH by (intros H; apply Hk; right; exact H).
    apply updateItem_other. intros E. apply Hk. left. congruence.
Qed.

Lemma settle_batch_other started : forall s w k,
  ~ In k (map (fun p => id (fst p)) started) ->
  JsMap.get k (items (fst (settle_batch started (s, w))))
  = JsMap.get k (items s).
Proof.
  unfold settle_batch.
  induction started as [|p r IH]; intros s w k Hk; cbn [fold_left].
  - reflexivity.
  - assert (H1 : JsMap.get k
                   (items (fst (publishItem_finish (fst p) (snd p) (s, w))))
                 = JsMap.get k (items s)).
    { unfold publishItem_finish, updateItemStatus.
      destruct (p_settled (snd p)); cbn [fst];
        apply updateItem_other; intros E; apply Hk; left; congruence. }
    destruct (publishItem_finish (fst p) (snd p) (s, w)) as [s1 w1].
    cbn [fst] in H1. rewrite IH by (intros H; apply Hk; right; exact H).
    exact H1.
Qed.

Lemma run_batch_done all c pause i t s w k :
  item_held s k ->
  In k (map id (Js.slice i (i + c) all)) \/ item_done s k ->
  item_done (snd (fst (run_batch publisher all c pause i (t, s, w)))) k.
Proof.
  intros Hh Hk. unfold run_batch. cbv zeta.
  set (batch := Js.slice i (i + c) all) in *.
  match goal with
  | |- context [start_batch publisher batch (s, ?w0)] =>
      pose proof (start_batch_frame publisher batch s w0) as Hf1;
      pose proof (start_batch_other batch s w0 k) as Ho1;
      pose proof (start_batch_spec publisher batch (s, w0)) as [Hmap _];
      destruct (start_batch publisher batch (s, w0)) as [started [s1 w1]]
  end.
  cbn [fst snd] in Hf1, Ho1, Hmap.
  assert (Hids : map (fun p => id (fst p)) started = map id batch)
    by (rewrite <- Hmap, map_map; reflexivity).
  pose proof (settle_batch_frame started s1 w1) as Hf2.
  pose proof (settle_batch_other started s1 w1 k) as Ho2.
  destruct (settle_batch started (s1, w1)) as [s2 w2].
  cbn [fst] in Hf2, Ho2.
  assert (Hh2 : item_held s2 k)
    by (eapply frame_held; [exact Hf2 |]; eapply frame_held; eassumption).
  pose proof (record_results_done started t s2 w2 k Hh2) as Hd.
  destruct (fold_left _ started (t, s2, w2)) as [[t3 s3] w3].
  cbn [fst snd] in Hd.
  assert (Hfin : item_done s3 k).
  { apply Hd. rewrite Hids.
    destruct (in_dec string_dec k (map id batch)) as [Hin | Hout];
      [left; exact Hin |].
    right. destruct Hk as [Hk | (c0 & Hg & Hs)]; [contradiction |].
    exists c0. rewrite Ho2 by (rewrite Hids; exact Hout).
    rewrite Ho1 by exact Hout. auto. }
  destruct (_ <? _)%nat; exact Hfin.
Qed.

Lemma batch_loop_done all c pause fuel : forall i t s w k,
  (1 <= c)%nat -> (List.length all - i <= fuel)%nat ->
  item_held s k ->
  In k (map id (skipn i all)) \/ item_done s k ->
  item_done
    (snd (fst (batch_loop publisher fuel all c pause i (t, s, w)))) k.
Proof.
  induction fuel as [|f IH]; intros i t s w k Hc Hfuel Hh Hk;
    cbn [batch_loop].
  - rewrite skipn_all2 in Hk by lia. destruct Hk as [[] | Hd]. exact Hd.
  - destruct (Nat.ltb_spec i (List.length all)) as [Hlt | Hge].
    + pose proof (run_batch_frame publisher all c pause i t s w) as Hf.
      pose proof (run_batch_done all c pause i t s w k Hh) as Hd.
      destruct (run_batch publisher all c pause i (t, s, w))
        as [[t1 s1] w1].
      cbn [fst snd] in Hf, Hd.
      apply IH; [exact Hc | lia | exact (frame_held _ _ _ Hf Hh) |].
      assert (Hsplit : skipn i all
                       = Js.slice i (i + c) all ++ skipn (i + c) all).
      { unfold Js.slice. replace (i + c - i)%nat with c by lia.
        replace (i + c)%nat with (c + i)%nat by lia.
        rewrite <- skipn_skipn. symmetry. apply firstn_skipn. }
      destruct Hk as [Hk | Hk].
      * rewrite Hsplit, map_app, in_app_iff in Hk.
        destruct Hk as [Hk | Hk]; [right; apply Hd; left; exact Hk |].
        left. exact Hk.
      * right. apply Hd. right. exact Hk.
    + rewrite skipn_all2 in Hk by lia. destruct Hk as [[] | Hd]. exact Hd.
Qed.

Lemma retryFailedItems_done s w k :
  item_done s k -> item_done (fst (retryFailedItems publisher s w)) k.
Proof.
  unfold retryFailedItems. cbv zeta.
  generalize (Js.or_default (maxRetries (config s)) 3). intros m.
  generalize (getItemsByStatus failed s). intros l.
  revert s w.
  induction l as [|item r IH]; intros s w Hd; cbn [fold_left]; [exact Hd |].
  destruct (retry_count item <? m); [| apply IH; exact Hd].
  set (s0 := updateItem (id item)
               (mkUpdates (Some pending) None None
                  (Some (retry_count item + 1))) s w).
  set (w0 := delay (Js.or_default (retryDelay (config s0)) 5000) w).
  assert (Hd1 : item_done (fst (snd (publishItem publisher item (s0, w0)))) k).
  { destruct (String.eqb_spec k (id item)) as [-> | Hne].
    - destruct Hd as (c & Hg & _).
      pose proof (publishItem_spec publisher item s0 w0 _
                    (updateItem_same (id item) _ s w c Hg))
        as (_ & _ & c1 & Hc1 & _ & Hst).
      exists c1. auto.
    - pose proof (updateItem_done_other (id item)
                    (mkUpdates (Some pending) None None
                       (Some (retry_count item + 1))) s w k Hne Hd)
        as (c & Hg & Hs).
      fold s0 in Hg.
      destruct (JsMap.get (id item) (items s0)) as [ci|] eqn:Ei.
      + pose proof (publishItem_spec publisher item s0 w0 ci Ei)
          as (_ & Ho & _).
        exists c. rewrite Ho by exact Hne. auto.
      + exists c. split; [| exact Hs].
        unfold publishItem, publishItem_start, publishItem_finish,
          start_publish, updateItemStatus.
        cbv zeta. cbn [fst snd].
        destruct (p_settled _); cbn [fst snd];
          rewrite !updateItem_other by exact Hne; exact Hg. }
  destruct (publishItem publisher item (s0, w0)) as [step [s1 w1]].
  cbn [fst snd] in *. apply IH. exact Hd1.
Qed.

Lemma publishItemsInBatches_done all s w k :
  item_held s k -> In k (map id all) ->
  item_done (snd (fst (publishItemsInBatches publisher all s w))) k.
Proof.
  intros Hh Hk. unfold publishItemsInBatches. cbv zeta.
  pose proof (batch_loop_done all (effective_concurrency s)
                (Js.or_default (delayBetweenPublishes (config s)) 2000)
                (List.length all) 0 empty_tally s w k
                (effective_concurrency_pos s) ltac:(lia) Hh
                (or_introl Hk)) as Hd.
  destruct (batch_loop publisher _ all _ _ 0 (empty_tally, s, w))
    as [[t s1] w1].
  cbn [fst snd] in Hd.
  destruct (opt_true (retryFailed (config s1))).
  - pose proof (retryFailedItems_done s1 w1 k Hd) as Hd2.
    destruct (retryFailedItems publisher s1 w1) as [s2 w2]. exact Hd2.
  - exact Hd.
Qed.

End BulkDone.

Lemma frame_keyed s s1 :
  bulk_frame s s1 -> items_keyed (BulkPublisher.items s) ->
  items_keyed (BulkPublisher.items s1).
Proof.
  intros (_ & Hkeys & Hitems) [Hnd Hk]. split; [rewrite Hkeys; exact Hnd |].
  apply Forall_forall. intros [k c1] Hin. simpl.
  assert (Hg : JsMap.get k (BulkPublisher.items s1) = Some c1)
    by (apply JsMap_In_get; [rewrite Hkeys; exact Hnd | exact Hin]).
  destruct (Hitems k c1 Hg) as (c & Hc & Hid & _).
  rewrite Hid. exact (proj1 (items_keyed_get _ _ _ (conj Hnd Hk) Hc)).
Qed.

(** X28.  [publishAll], called on a publisher that is not publishing and
    holds each item under its own identifier, leaves every item that was
    ready when the batches were cut (after the tests of [autoTest], when it
    is on) published or failed: none is skipped and none is left ready or
    publishing. *)
Theorem X28_publishAll_settles_ready_items (publisher : Publishing.Publisher)
    (s : BulkPublisher.Bulk) (w : Publishing.World) :
  items_keyed (BulkPublisher.items s) ->
  BulkPublisher.isPublishing s = false ->
  let s0 := BulkPublisher.with_isPublishing true s in
  let tested :=
    if BulkPublisher.opt_true
         (BulkPublisher.autoTest (BulkPublisher.config s0))
    then BulkPublisher.testAllItems s0 w else s0 in
  let s1 := snd (fst (BulkPublisher.publishAll publisher s w)) in
  forall k c,
    JsMap.get k (BulkPublisher.items tested) = Some c ->
    BulkPublisher.status c = Publishing.ready ->
    exists c1,
      JsMap.get k (BulkPublisher.items s1) = Some c1
      /\ (BulkPublisher.status c1 = Publishing.published
          \/ BulkPublisher.status c1 = Publishing.failed).
Proof.
  intros Hk Hnp s0 tested s1 k c Hg Hr.
  assert (Hkt : items_keyed (BulkPublisher.items tested)).
  { unfold tested. destruct (BulkPublisher.opt_true _); [| exact Hk].
    eapply frame_keyed; [apply testAllItems_frame | exact Hk]. }
  destruct (items_keyed_get _ _ _ Hkt Hg) as [Hid Hv].
  assert (Hin : In c (BulkPublisher.getItemsByStatus Publishing.ready tested)).
  { unfold BulkPublisher.getItemsByStatus. apply filter_In.
    split; [exact Hv |]. apply Status_eqb_eq. exact Hr. }
  unfold s1, BulkPublisher.publishAll. rewrite Hnp. cbv zeta.
  fold s0. fold tested.
  destruct (BulkPublisher.getItemsByStatus Publishing.ready tested)
    as [|x l] eqn:E; [destruct Hin |].
  assert (Hd : item_done
                 (snd (fst (BulkPublisher.publishItemsInBatches publisher
                              (BulkPublisher.sortItemsByPriority (x :: l))
                              tested w))) k).
  { apply publishItemsInBatches_done.
    - unfold item_held. rewrite Hg. discriminate.
    - rewrite <- Hid. apply in_map.
      unfold BulkPublisher.sortItemsByPriority. apply sort_In. exact Hin. }
  destruct (BulkPublisher.publishItemsInBatches publisher _ tested w)
    as [[r s2] w2].
  cbn [fst snd] in *. exact Hd.
Qed.

Lemma X28_publishAll_settles_ready_items_witness :
  exists c1,
    JsMap.get "a"
      (BulkPublisher.items
         (snd (fst (BulkPublisher.publishAll succeeding_publisher five_items
                      (Publishing.mkWorld 0 0 0 []))))) = Some c1
    /\ (BulkPublisher.status c1 = Publishing.published
        \/ BulkPublisher.status c1 = Publishing.failed).
Proof.
  assert (Hk : items_keyed (BulkPublisher.items five_items)).
  { split; [| repeat constructor].
    simpl. repeat constructor; simpl; intuition discriminate. }
  eapply (X28_publishAll_settles_ready_items succeeding_publisher five_items
            (Publishing.mkWorld 0 0 0 []) Hk eq_refl "a"%string).
  - vm_compute. reflexivity.
  - reflexivity.
Defined.
